(** * The batch-witness queue of zkmerkle-proof-of-solvency

    A shallow embedding of [src/utils/db.go], of the witness model and of
    [CreateProof] of the proof model, over a model of the relational store
    the code talks to.

    The Go code is a thin layer of SQL statements.  Each statement is
    embedded twice, side by side: its text, as the code formats it, and its
    meaning as a small relational operation on the list of rows of the
    witness table.  The store is deterministic; what the code cannot control
    (a broken connection, a statement killed by the server, a column that
    does not scan) is an oracle of faults consumed one entry per round trip
    to the store, whether the code looks at the [error] that comes back or
    not: [rows.Next], whose [rows.Err] the code never asks, ends the loop
    when it fails, and a [tx.Commit] that fails commits nothing while the
    code, which drops what it returns, goes on as if it had.

    The first part embeds the code and the store; the second states and
    proves the properties, first of single calls, then of calls issued
    concurrently. *)

From Stdlib Require Import ZArith.
From stdpp Require Import base decidable option list sets sorting strings pretty.

Local Open Scope string_scope.
Local Open Scope list_scope.
Local Open Scope Z_scope.

(** ** Go values *)

(** [time.Time], to the second. *)
Definition Time := Z.

(** Modelled from the spec: the sentinels [utils.DbErrNotFound] and
    [utils.DbErrSqlOperation], which the code names and package [utils]
    declares in a file other than db.go: the shared "not found" and
    "operation failed" markers, each a value of its own that callers compare
    by identity.  [DbErrOther] stands for any further sentinel of the
    package.  The other constructors are Go's: [sql.ErrNoRows],
    [sql.ErrTxDone], the driver's [MySQLError] with its number and message,
    and any other error of the driver. *)
Inductive error : Type :=
  | DbErrNotFound
  | DbErrSqlOperation
  | DbErrOther (name : string)
  | ErrNoRows
  | ErrTxDone
  | MySQLError (Number : Z) (Message : string)
  | DriverError (msg : string).

Global Instance error_eq_dec : EqDecision error.
Proof. solve_decision. Defined.

(** A value made by the store or its driver, as opposed to a sentinel of the
    repository. *)
Definition raw_store_error (e : error) : bool :=
  match e with
  | MySQLError _ _ | DriverError _ | ErrNoRows | ErrTxDone => true
  | DbErrNotFound | DbErrSqlOperation | DbErrOther _ => false
  end.

Definition ER_DUP_ENTRY : Z := 1062.
Definition ER_WRONG_ARGUMENTS : Z := 1210.

(** What the server answers to an INSERT that breaks UNIQUE(height). *)
Definition duplicate_entry : error :=
  MySQLError ER_DUP_ENTRY "Duplicate entry for key 'height'".

Inductive result (A : Type) : Type :=
  | Ok (a : A)
  | Err (e : error).
Arguments Ok {A} a.
Arguments Err {A} e.


(** [int64] wrap-around, for the one product the code computes. *)
Definition wrap64 (z : Z) : Z := (z + 2 ^ 63) mod 2 ^ 64 - 2 ^ 63.

(** ** Records *)

Record BatchWitness : Type := mkBatchWitness {
  ID : Z;
  CreatedAt : Time;
  UpdatedAt : Time;
  DeletedAt : option Time;
  Height : Z;
  WitnessData : string;
  Status : Z;
}.

Global Instance BatchWitness_eq_dec : EqDecision BatchWitness.
Proof. solve_decision. Defined.

Definition StatusPublished : Z := 0.
Definition StatusReceived : Z := 1.
Definition StatusFinished : Z := 2.

Definition TableNamePrefix : string := "witness".

(** ** The store *)

(** The WHERE conditions the witness model uses. *)
Inductive cond : Type :=
  | StatusEq (s : Z)
  | HeightEq (h : Z)
  | DeletedAtIsNull.

Definition holds (r : BatchWitness) (c : cond) : bool :=
  match c with
  | StatusEq s => Status r =? s
  | HeightEq h => Height r =? h
  | DeletedAtIsNull => match DeletedAt r with None => true | Some _ => false end
  end.

Definition satisfies (cs : list cond) (r : BatchWitness) : Prop :=
  forallb (holds r) cs = true.

Global Instance satisfies_dec cs r : Decision (satisfies cs r).
Proof. unfold satisfies. apply _. Defined.

Inductive direction : Type := ASC | DESC.

Definition height_le (a b : BatchWitness) : Prop := Height a ≤ Height b.
Definition height_ge (a b : BatchWitness) : Prop := Height b ≤ Height a.

Global Instance height_le_dec a b : Decision (height_le a b).
Proof. unfold height_le. apply _. Defined.
Global Instance height_ge_dec a b : Decision (height_ge a b).
Proof. unfold height_ge. apply _. Defined.

Definition order_by_height (d : option direction) (l : list BatchWitness)
  : list BatchWitness :=
  match d with
  | None => l
  | Some ASC => merge_sort height_le l
  | Some DESC => merge_sort height_ge l
  end.

(** SELECT ... FROM t WHERE c1 AND ... [ORDER BY height d] [LIMIT n]
    [OFFSET k] [FOR UPDATE], with its parameters bound. *)
Record select : Type := SELECT {
  sel_where : list cond;
  sel_order : option direction;
  sel_limit : option Z;
  sel_offset : option Z;
  sel_for_update : bool;
}.

Definition negative (o : option Z) : bool :=
  match o with Some n => n <? 0 | None => false end.

Definition take_limit (o : option Z) (l : list BatchWitness) : list BatchWitness :=
  match o with Some n => take (Z.to_nat n) l | None => l end.

Definition drop_offset (o : option Z) (l : list BatchWitness) : list BatchWitness :=
  match o with Some n => drop (Z.to_nat n) l | None => l end.

(** The rows a SELECT returns.  The server refuses a negative LIMIT or
    OFFSET. *)
Definition run_select (q : select) (t : list BatchWitness)
  : result (list BatchWitness) :=
  if negative (sel_limit q) || negative (sel_offset q)
  then Err (MySQLError ER_WRONG_ARGUMENTS "Incorrect arguments to EXECUTE")
  else Ok (take_limit (sel_limit q)
            (drop_offset (sel_offset q)
              (order_by_height (sel_order q) (filter (satisfies (sel_where q)) t)))).

(** The two writes of the witness model:
    INSERT INTO t (height, witness_data, status, created_at, updated_at)
      VALUES (?, ?, ?, NOW(), NOW())
    UPDATE t SET status = ?, updated_at = NOW() WHERE height = ? *)
Inductive exec : Type :=
  | INSERT (height : Z) (witness_data : string) (status : Z)
  | UPDATE (status : Z) (height : Z).

(** [sql.Result]. *)
Record Result : Type := mkResult {
  LastInsertId : Z;
  RowsAffected : result Z;
}.

Definition set_status (s : Z) (t : Time) (r : BatchWitness) : BatchWitness :=
  {| ID := ID r; CreatedAt := CreatedAt r; UpdatedAt := t;
     DeletedAt := DeletedAt r; Height := Height r;
     WitnessData := WitnessData r; Status := s |}.

(** UPDATE ... WHERE height = h: no condition on deleted_at. *)
Definition update_rows (s h : Z) (t : Time) (rows : list BatchWitness)
  : list BatchWitness :=
  (λ r, if Height r =? h then set_status s t r else r) <$> rows.

(** The server counts the rows an UPDATE changed, not those it matched. *)
Definition changed_rows (s h : Z) (t : Time) (rows : list BatchWitness) : Z :=
  Z.of_nat (length (filter (λ r, Height r = h ∧ set_status s t r ≠ r) rows)).

(** The table as [CreateBatchWitnessTable] declares it: [id] is the
    auto-increment primary key and [height] is UNIQUE, over every row. *)
Record Table : Type := mkTable {
  rows : list BatchWitness;
  auto_increment : Z;
}.

Definition height_taken (h : Z) (t : Table) : bool :=
  existsb (λ r, Height r =? h) (rows t).

Definition run_exec (x : exec) (clock : Time) (t : Table) : result (Result * Table) :=
  match x with
  | INSERT h d s =>
      if height_taken h t
      then Err duplicate_entry
      else
        let r := {| ID := auto_increment t; CreatedAt := clock; UpdatedAt := clock;
                    DeletedAt := None; Height := h; WitnessData := d; Status := s |} in
        Ok ({| LastInsertId := auto_increment t; RowsAffected := Ok 1 |},
            {| rows := rows t ++ [r]; auto_increment := auto_increment t + 1 |})
  | UPDATE s h =>
      Ok ({| LastInsertId := 0; RowsAffected := Ok (changed_rows s h clock (rows t)) |},
          {| rows := update_rows s h clock (rows t);
             auto_increment := auto_increment t |})
  end.

(** What the code runs against: the committed table, the working copy of
    the transaction in progress, the server's clock, the faults to come and
    the text of every statement sent so far. *)
Record World : Type := mkWorld {
  committed : Table;
  in_tx : option Table;
  now : Time;
  faults : list (option error);
  sent : list string;
}.

Definition set_committed (t : Table) (w : World) : World :=
  {| committed := t; in_tx := in_tx w; now := now w;
     faults := faults w; sent := sent w |}.
Definition set_in_tx (o : option Table) (w : World) : World :=
  {| committed := committed w; in_tx := o; now := now w;
     faults := faults w; sent := sent w |}.
Definition set_faults (f : list (option error)) (w : World) : World :=
  {| committed := committed w; in_tx := in_tx w; now := now w;
     faults := f; sent := sent w |}.
Definition log (q : string) (w : World) : World :=
  {| committed := committed w; in_tx := in_tx w; now := now w;
     faults := faults w; sent := sent w ++ [q] |}.

(** ** Calls that may fail and change the world *)

Definition M (A : Type) : Type := World → result A * World.

Global Instance M_ret : MRet M := λ A a w, (Ok a, w).
Global Instance M_bind : MBind M := λ A B f c w,
  match c w with
  | (Ok a, w') => f a w'
  | (Err e, w') => (Err e, w')
  end.

Definition throw {A} (e : error) : M A := λ w, (Err e, w).

(** [if err != nil { return nil, f(err) }]. *)
Definition or_return {A} (c : M A) (f : error → error) : M A := λ w,
  match c w with
  | (Ok a, w') => (Ok a, w')
  | (Err e, w') => (Err (f e), w')
  end.

(** The next entry of the oracle: the call at hand fails with it, or goes
    through. *)
Definition fault : M unit := λ w,
  match faults w with
  | Some e :: fs => (Err e, set_faults fs w)
  | None :: fs => (Ok (), set_faults fs w)
  | [] => (Ok (), w)
  end.

Definition lift {A} (r : result A) : M A := λ w, (r, w).

(** [for _, x := range l { ... if err != nil { return err } }]. *)
Fixpoint for_range {A} (l : list A) (body : A → M unit) : M unit :=
  match l with
  | [] => mret ()
  | x :: l' => body x ;; for_range l' body
  end.

(** ** db.go: the gateway *)

(** [DB]: the embedded [sql.DB] is the [World]; [maxExecutionTime] is a
    [time.Duration], in nanoseconds. *)
Record DB : Type := mkDB {
  maxExecutionTime : Z;
}.

Definition Second : Z := 1000000000.

(** [Duration.Milliseconds]. *)
Definition Milliseconds (d : Z) : Z := d ÷ 1000000.

(** [sql.Open], [Ping], then the default of 10000 seconds. *)
Definition NewDB : M DB :=
  fault ;; fault ;; mret {| maxExecutionTime := 10000 * Second |}.

Definition SetMaxExecutionTime (seconds : Z) (d : DB) : DB :=
  {| maxExecutionTime := wrap64 (seconds * Second) |}.

(** [fmt.Sprintf("/*+ MAX_EXECUTION_TIME(%d) */ %s", ms, query)]. *)
Definition timeoutQuery (d : DB) (query : string) : string :=
  "/*+ MAX_EXECUTION_TIME(" +:+ pretty (Milliseconds (maxExecutionTime d))
    +:+ ") */ " +:+ query.

(** The result set of [Query]: the rows still to be read. *)
Definition Rows := list BatchWitness.

(** [sql.Row]: the outcome of [QueryRow], looked at by [Scan] only. *)
Definition Row := result (option BatchWitness).

(** [sql.DB.Exec]: one statement, committed on its own. *)
Definition Exec (query : string) (x : exec) : M Result := λ w,
  let w := log query w in
  match fault w with
  | (Err e, w') => (Err e, w')
  | (Ok _, w') =>
      match run_exec x (now w') (committed w') with
      | Err e => (Err e, w')
      | Ok (res, t) => (Ok res, set_committed t w')
      end
  end.

(** [sql.DB.Query]. *)
Definition Query (query : string) (q : select) : M Rows := λ w,
  let w := log query w in
  match fault w with
  | (Err e, w') => (Err e, w')
  | (Ok _, w') => (run_select q (rows (committed w')), w')
  end.

(** [sql.DB.QueryRow]: never fails by itself. *)
Definition QueryRow (query : string) (q : select) : M Row := λ w,
  match Query query q w with
  | (Err e, w') => (Ok (Err e), w')
  | (Ok rs, w') => (Ok (Ok (head rs)), w')
  end.

Definition ExecWithTimeout (d : DB) (query : string) (x : exec) : M Result :=
  Exec (timeoutQuery d query) x.

Definition QueryWithTimeout (d : DB) (query : string) (q : select) : M Rows :=
  Query (timeoutQuery d query) q.

Definition QueryRowWithTimeout (d : DB) (query : string) (q : select) : M Row :=
  QueryRow (timeoutQuery d query) q.

(** [rows.Scan] into the fields of a [BatchWitness], and into a height. *)
Definition Scan (r : BatchWitness) : M BatchWitness := fault ;; mret r.
Definition ScanHeight (r : BatchWitness) : M Z := fault ;; mret (Height r).

(** [row.Scan]: the error of the query, [sql.ErrNoRows], or the first row. *)
Definition RowScan {A} (row : Row) (scan : BatchWitness → M A) : M A :=
  match row with
  | Err e => throw e
  | Ok None => throw ErrNoRows
  | Ok (Some r) => scan r
  end.

(** [rows.Next()]: the next row, when there is one and the store delivers
    it.  It is false at the end of the rows, and false as well when the
    store fails to deliver the next one: the error is kept in [rows.Err]. *)
Definition Next (rs : Rows) : M (option BatchWitness) := λ w,
  match fault w with
  | (Err _, w') => (Ok None, w')
  | (Ok _, w') => (Ok (head rs), w')
  end.

(** [for rows.Next() { ...; err = rows.Scan(...); if err != nil { return nil,
    err }; xs = append(xs, x) }].  The loop ends when [rows.Next] is false;
    the code does not look at [rows.Err], so it takes a result cut short for
    a result read to its end. *)
Fixpoint for_rows_Next {A} (rs : Rows) (scan : BatchWitness → M A)
    (xs : list A) : M (list A) :=
  next ← Next rs;
  match next, rs with
  | Some r, _ :: rs' => x ← scan r; for_rows_Next rs' scan (xs ++ [x])
  | _, _ => mret xs
  end.

(** [Transaction]: the embedded [sql.Tx] works on [in_tx]. *)
Record Transaction : Type := mkTransaction { }.

Definition BeginTransaction : M Transaction := λ w,
  match fault w with
  | (Err e, w') => (Err e, w')
  | (Ok _, w') => (Ok mkTransaction, set_in_tx (Some (committed w')) w')
  end.

(** [sql.Tx.Query] and [sql.Tx.Exec]. *)
Definition tx_Query (tx : Transaction) (query : string) (q : select) : M Rows := λ w,
  let w := log query w in
  match fault w with
  | (Err e, w') => (Err e, w')
  | (Ok _, w') =>
      match in_tx w' with
      | None => (Err ErrTxDone, w')
      | Some t => (run_select q (rows t), w')
      end
  end.

Definition tx_Exec (tx : Transaction) (query : string) (x : exec) : M Result := λ w,
  let w := log query w in
  match fault w with
  | (Err e, w') => (Err e, w')
  | (Ok _, w') =>
      match in_tx w' with
      | None => (Err ErrTxDone, w')
      | Some t =>
          match run_exec x (now w') t with
          | Err e => (Err e, w')
          | Ok (res, t') => (Ok res, set_in_tx (Some t') w')
          end
      end
  end.

(** [sql.Tx.Commit]: it installs the working copy.  When the round trip
    fails nothing is installed and the store drops the transaction. *)
Definition Commit (tx : Transaction) : M unit := λ w,
  match fault w with
  | (Err e, w') => (Err e, set_in_tx None w')
  | (Ok _, w') =>
      match in_tx w' with
      | Some t => (Ok (), set_in_tx None (set_committed t w'))
      | None => (Err ErrTxDone, w')
      end
  end.

(** [sql.Tx.Rollback]: the working copy is dropped, also when the round
    trip fails. *)
Definition Rollback (tx : Transaction) : M unit := λ w,
  match fault w with
  | (Err e, w') => (Err e, set_in_tx None w')
  | (Ok _, w') =>
      match in_tx w' with
      | Some _ => (Ok (), set_in_tx None w')
      | None => (Err ErrTxDone, w')
      end
  end.

(** [defer func() { if err != nil { tx.Rollback() } else { tx.Commit() } }()]
    around the rest of the function, [err] being its named result.  What
    [tx.Rollback] and [tx.Commit] return is dropped: the function returns
    what its body returned. *)
Definition defer_Rollback_or_Commit {A} (tx : Transaction) (body : M A) : M A := λ w,
  match body w with
  | (Err e, w') => (Err e, snd (Rollback tx w'))
  | (Ok a, w') => (Ok a, snd (Commit tx w'))
  end.

(** ** proof_model.go: [CreateProof] *)

Module prover.

Definition TableNamePrefix : string := "proof".

Record Proof : Type := mkProof {
  ID : Z;
  CreatedAt : Time;
  UpdatedAt : Time;
  DeletedAt : option Time;
  ProofInfo : string;
  CexAssetListCommitments : string;
  AccountTreeRoots : string;
  BatchCommitment : string;
  AssetsCount : Z;
  BatchNumber : Z;
}.

Record defaultProofModel : Type := mkProofModel {
  table : string;
  db : DB;
}.

Definition NewProofModel (d : DB) (suffix : string) : defaultProofModel :=
  {| table := TableNamePrefix +:+ suffix; db := d |}.

Definition insert_query (m : defaultProofModel) : string :=
  "INSERT INTO " +:+ table m
    +:+ " (proof_info, cex_asset_list_commitments, account_tree_roots, batch_commitment, assets_count, batch_number, created_at, updated_at) VALUES (?, ?, ?, ?, ?, ?, NOW(), NOW())".

Section gateway.
(** [m.db.Exec] on the proof table, which is not the witness table: the
    statement text and the row whose fields are its arguments. *)
Variable Exec : string → Proof → M Result.

Definition CreateProof (m : defaultProofModel) (row : Proof) : M unit :=
  result ← Exec (insert_query m) row;
  rowsAffected ← lift (RowsAffected result);
  if rowsAffected =? 0 then throw DbErrSqlOperation else mret ().
End gateway.

End prover.

(** ** witness model *)

Record defaultWitnessModel : Type := mkWitnessModel {
  table : string;
  db : DB;
}.

Definition NewWitnessModel (d : DB) (suffix : string) : defaultWitnessModel :=
  {| table := TableNamePrefix +:+ suffix; db := d |}.

Definition TableName (m : defaultWitnessModel) : string := table m.

(** The statement texts, [fmt.Sprintf]'ed with the table name. *)
Definition columns : string :=
  "id, created_at, updated_at, deleted_at, height, witness_data, status".

Definition latest_height_query (m : defaultWitnessModel) : string :=
  "SELECT height FROM " +:+ table m
    +:+ " WHERE deleted_at IS NULL ORDER BY height DESC LIMIT 1".

Definition latest_by_status_query (m : defaultWitnessModel) : string :=
  "SELECT " +:+ columns +:+ " FROM " +:+ table m
    +:+ " WHERE status = ? AND deleted_at IS NULL LIMIT 1".

Definition claim_by_status_query (m : defaultWitnessModel) : string :=
  "SELECT " +:+ columns +:+ " FROM " +:+ table m
    +:+ " WHERE status = ? AND deleted_at IS NULL ORDER BY height ASC LIMIT ? FOR UPDATE".

Definition claim_by_height_query (m : defaultWitnessModel) : string :=
  "SELECT " +:+ columns +:+ " FROM " +:+ table m
    +:+ " WHERE height = ? AND status = ? AND deleted_at IS NULL ORDER BY height ASC".

Definition by_height_query (m : defaultWitnessModel) : string :=
  "SELECT " +:+ columns +:+ " FROM " +:+ table m
    +:+ " WHERE height = ? AND deleted_at IS NULL LIMIT 1".

Definition heights_by_status_query (m : defaultWitnessModel) : string :=
  "SELECT height FROM " +:+ table m
    +:+ " WHERE status = ? AND deleted_at IS NULL ORDER BY height ASC LIMIT ? OFFSET ?".

Definition updateQuery (m : defaultWitnessModel) : string :=
  "UPDATE " +:+ table m +:+ " SET status = ?, updated_at = NOW() WHERE height = ?".

Definition insert_query (m : defaultWitnessModel) : string :=
  "INSERT INTO " +:+ table m
    +:+ " (height, witness_data, status, created_at, updated_at) VALUES (?, ?, ?, NOW(), NOW())".

Section WitnessModel.

(** [utils.ConvertMysqlErrToDbErr] is declared in a file of package [utils]
    other than db.go: a parameter, whatever it does to an error. *)
Variable ConvertMysqlErrToDbErr : error → error.

(** [if err == sql.ErrNoRows { return _, utils.DbErrNotFound };
     if err != nil { return _, utils.ConvertMysqlErrToDbErr(err) }]. *)
Definition not_found_or_converted (err : error) : error :=
  if decide (err = ErrNoRows) then DbErrNotFound else ConvertMysqlErrToDbErr err.

Definition GetLatestBatchWitnessHeight (m : defaultWitnessModel) : M Z :=
  row ← QueryRowWithTimeout (db m) (latest_height_query m)
          (SELECT [DeletedAtIsNull] (Some DESC) (Some 1) None false);
  or_return (RowScan row ScanHeight) not_found_or_converted.

Definition GetBatchWitnessByHeight (m : defaultWitnessModel) (height : Z)
  : M BatchWitness :=
  row ← QueryRowWithTimeout (db m) (by_height_query m)
          (SELECT [HeightEq height; DeletedAtIsNull] None (Some 1) None false);
  or_return (RowScan row Scan) not_found_or_converted.

Definition GetLatestBatchWitness (m : defaultWitnessModel) : M BatchWitness :=
  row ← QueryRowWithTimeout (db m) (latest_height_query m)
          (SELECT [DeletedAtIsNull] (Some DESC) (Some 1) None false);
  height ← or_return (RowScan row ScanHeight) not_found_or_converted;
  GetBatchWitnessByHeight m height.

Definition GetLatestBatchWitnessByStatus (m : defaultWitnessModel) (status : Z)
  : M BatchWitness :=
  row ← QueryRowWithTimeout (db m) (latest_by_status_query m)
          (SELECT [StatusEq status; DeletedAtIsNull] None (Some 1) None false);
  or_return (RowScan row Scan) not_found_or_converted.

(** The update loop the two claims share, statement for statement. *)
Definition update_each (m : defaultWitnessModel) (tx : Transaction)
    (afterStatus : Z) (witnesses : list BatchWitness) : M unit :=
  for_range witnesses (λ w,
    tx_Exec tx (updateQuery m) (UPDATE afterStatus (Height w)) ;; mret ()).

Definition GetAndUpdateBatchesWitnessByStatus (m : defaultWitnessModel)
    (beforeStatus afterStatus count : Z) : M (list BatchWitness) :=
  tx ← BeginTransaction;
  defer_Rollback_or_Commit tx (
    rows ← or_return
      (tx_Query tx (claim_by_status_query m)
         (SELECT [StatusEq beforeStatus; DeletedAtIsNull] (Some ASC) (Some count) None true))
      ConvertMysqlErrToDbErr;
    witnesses ← for_rows_Next rows Scan [];
    if decide (length witnesses = 0%nat) then throw DbErrNotFound else
    update_each m tx afterStatus witnesses ;;
    mret witnesses).

Definition GetAndUpdateBatchesWitnessByHeight (m : defaultWitnessModel)
    (height beforeStatus afterStatus : Z) : M (list BatchWitness) :=
  tx ← BeginTransaction;
  defer_Rollback_or_Commit tx (
    rows ← or_return
      (tx_Query tx (claim_by_height_query m)
         (SELECT [HeightEq height; StatusEq beforeStatus; DeletedAtIsNull]
            (Some ASC) None None false))
      ConvertMysqlErrToDbErr;
    witnesses ← for_rows_Next rows Scan [];
    if decide (length witnesses = 0%nat) then throw DbErrNotFound else
    update_each m tx afterStatus witnesses ;;
    mret witnesses).

Definition CreateBatchWitness (m : defaultWitnessModel)
    (witness : list BatchWitness) : M unit :=
  if decide (length witness = 0%nat) then mret () else
  for_range witness (λ w,
    Exec (insert_query m) (INSERT (Height w) (WitnessData w) (Status w)) ;; mret ()).

Definition GetAllBatchHeightsByStatus (m : defaultWitnessModel)
    (status limit offset : Z) : M (list Z) :=
  rows ← or_return
    (QueryWithTimeout (db m) (heights_by_status_query m)
       (SELECT [StatusEq status; DeletedAtIsNull] (Some ASC) (Some limit) (Some offset) false))
    ConvertMysqlErrToDbErr;
  witnessHeights ← for_rows_Next rows ScanHeight [];
  if decide (length witnessHeights = 0%nat) then throw DbErrNotFound else
  mret witnessHeights.

Definition UpdateBatchWitnessStatus (m : defaultWitnessModel)
    (witness : BatchWitness) (status : Z) : M unit :=
  Exec (updateQuery m) (UPDATE status (Height witness)) ;; mret ().

End WitnessModel.

(** [ConvertMysqlErrToDbErr] that hands every error back, for running the
    model on examples. *)
Definition keep_error (err : error) : error := err.

Definition test_model : defaultWitnessModel :=
  NewWitnessModel {| maxExecutionTime := 10000 * Second |} "".

Definition row (id height status : Z) : BatchWitness :=
  {| ID := id; CreatedAt := 0; UpdatedAt := 0; DeletedAt := None;
     Height := height; WitnessData := "w"; Status := status |}.

Definition world (rs : list BatchWitness) (n : Z) (fs : list (option error)) : World :=
  {| committed := {| rows := rs; auto_increment := n |}; in_tx := None;
     now := 100; faults := fs; sent := [] |}.


(** * Definitions for the statements and the proofs *)

(** The rows a claim by status looks at, lowest height first. *)
Definition candidates (b : Z) (rs : list BatchWitness) : list BatchWitness :=
  merge_sort height_le (filter (satisfies [StatusEq b; DeletedAtIsNull]) rs).

(** The table after the UPDATEs of a claim: every row at a claimed height
    has the new status and the clock's time, every other row is as it was. *)
Definition transition (a : Z) (t : Time) (hs : list Z) (rs : list BatchWitness)
  : list BatchWitness :=
  (λ r, if decide (Height r ∈ hs) then set_status a t r else r) <$> rs.

(** What no call but a commit or a rollback touches. *)
Definition frame (w w' : World) : Prop :=
  committed w' = committed w ∧ in_tx w' = in_tx w ∧ now w' = now w.

(** The store reports no failure from here on. *)
Definition quiet (w : World) : Prop := Forall (λ f, f = None) (faults w).

Definition updated (s h : Z) (clock : Time) (t : Table) : Table :=
  {| rows := update_rows s h clock (rows t); auto_increment := auto_increment t |}.

(** The working copy after the update loop of a claim. *)
Definition transitioned (a : Z) (clock : Time) (ws : list BatchWitness) (t : Table)
  : Table :=
  {| rows := transition a clock (Height <$> ws) (rows t);
     auto_increment := auto_increment t |}.

(** Both claims run the same statements after their SELECT; the lemmas are
    proved once, for any SELECT. *)
Definition claim_body (conv : error → error) (m : defaultWitnessModel)
    (tx : Transaction) (text : string) (q : select) (afterStatus : Z)
  : M (list BatchWitness) :=
  rows ← or_return (tx_Query tx text q) conv;
  witnesses ← for_rows_Next rows Scan [];
  if decide (length witnesses = 0%nat) then throw DbErrNotFound else
  update_each m tx afterStatus witnesses ;;
  mret witnesses.

Definition claim (conv : error → error) (m : defaultWitnessModel)
    (text : string) (q : select) (afterStatus : Z) : M (list BatchWitness) :=
  tx ← BeginTransaction;
  defer_Rollback_or_Commit tx (claim_body conv m tx text q afterStatus).

Definition by_status (b n : Z) : select :=
  SELECT [StatusEq b; DeletedAtIsNull] (Some ASC) (Some n) None true.

Definition by_height (h b : Z) : select :=
  SELECT [HeightEq h; StatusEq b; DeletedAtIsNull] (Some ASC) None None false.

(** What a claim returns when the store reports no failure. *)
Definition claim_outcome (conv : error → error) (r : result (list BatchWitness))
  : result (list BatchWitness) :=
  match r with
  | Err e => Err (conv e)
  | Ok [] => Err DbErrNotFound
  | Ok ws => Ok ws
  end.

(** Published rows at heights 5, 3 and 7; a claim of two takes 3 and 5, in
    that order. *)
Definition example_world : World :=
  world [row 1 5 StatusPublished; row 2 3 StatusPublished; row 3 7 StatusPublished] 4 [].

Definition example_claim : result (list BatchWitness) * World :=
  GetAndUpdateBatchesWitnessByStatus keep_error test_model
    StatusPublished StatusReceived 2 example_world.

Definition example_claimed : list BatchWitness :=
  [row 2 3 StatusPublished; row 1 5 StatusPublished].

(** Two rows are selected and the second UPDATE fails. *)
Definition failing_world : World :=
  world [row 1 5 StatusPublished; row 2 3 StatusPublished] 3
    [None; None; None; None; None; None; None; None;
     Some (DriverError "bad connection")].

Definition failing_claim : result (list BatchWitness) * World :=
  GetAndUpdateBatchesWitnessByStatus keep_error test_model
    StatusPublished StatusReceived 2 failing_world.

(** A Published row, and a claim of at most 0 rows. *)
Definition one_row_world : World := world [row 1 5 StatusPublished] 2 [].

Definition insert_each (m : defaultWitnessModel) (ws : list BatchWitness) : M unit :=
  for_range ws (λ w,
    Exec (insert_query m) (INSERT (Height w) (WitnessData w) (Status w)) ;; mret ()).

(** The only row at height 5 is soft-deleted. *)
Definition deleted_row : BatchWitness :=
  {| ID := 1; CreatedAt := 0; UpdatedAt := 0; DeletedAt := Some 50;
     Height := 5; WitnessData := "w"; Status := StatusPublished |}.

Definition deleted_row_world : World := world [deleted_row] 2 [].

(** A store that reports no row affected by the INSERT of a proof. *)
Definition Exec_no_row (query : string) (p : prover.Proof) : M Result :=
  λ w, (Ok {| LastInsertId := 0; RowsAffected := Ok 0 |}, log query w).

Definition test_proof : prover.Proof :=
  {| prover.ID := 0; prover.CreatedAt := 0; prover.UpdatedAt := 0;
     prover.DeletedAt := None; prover.ProofInfo := "p";
     prover.CexAssetListCommitments := "c"; prover.AccountTreeRoots := "r";
     prover.BatchCommitment := "b"; prover.AssetsCount := 1;
     prover.BatchNumber := 7 |}.

Definition test_proof_model : prover.defaultProofModel :=
  prover.NewProofModel {| maxExecutionTime := 10000 * Second |} "".

(** The heights a listing pages through. *)
Definition listed (s : Z) (rs : list BatchWitness) : list Z :=
  Height <$> candidates s rs.

(** A statement text that starts with the execution-time hint. *)
Definition has_hint (query : string) : bool :=
  String.prefix "/*+ MAX_EXECUTION_TIME(" query.

(** Every statement a call sends satisfies [P]. *)
Definition sends (P : string → Prop) {A} (c : M A) : Prop :=
  ∀ w, ∃ l, sent (snd (c w)) = sent w ++ l ∧ Forall P l.

Definition hinted (query : string) : Prop := has_hint query = true.
Definition unhinted (query : string) : Prop := has_hint query = false.


(** * Claims issued concurrently

    Several sessions each run one [GetAndUpdateBatchesWitnessByStatus], for
    the same [beforeStatus] and [afterStatus], against one table.  A session
    advances by one round trip to the store at a time, in the order of the
    code: begin, the SELECT ... FOR UPDATE, the scan of its rows, one UPDATE
    per witness, and the deferred commit (or rollback, when a call fails).
    The round trips of different sessions interleave in any order, and any
    of them may fail: also the reading of the rows, which then ends early
    without an error, and the commit, after which the call returns its
    records all the same.

    The store keeps what a transaction wrote to itself until it commits, and
    a SELECT with FOR UPDATE locks the rows it returns until the transaction
    ends: a SELECT ... FOR UPDATE that would return a row locked by another
    session waits.  [height] being UNIQUE, a row is named by its height, as
    the UPDATE of the code names it, and the UPDATEs of a session find their
    rows locked by its SELECT. *)

(** Where a session is in the code: [held] are the rows its transaction has
    locked, [rows] the result of its SELECT, [witnesses] the rows it has
    scanned.  A session whose commit failed has returned its witnesses with
    no error, as one whose commit went through. *)
Inductive pc : Type :=
  | AtBegin
  | AtQuery
  | AtScan (held rows : list BatchWitness)
  | AtUpdate (held witnesses todo : list BatchWitness)
  | Returned (r : result (list BatchWitness))
  | ReturnedUncommitted (witnesses : list BatchWitness).

Record session : Type := mkSession {
  count : Z;
  at_pc : pc;
}.

Record config : Type := mkConfig {
  store : list BatchWitness;
  sessions : list session;
}.

(** The rows a session has locked, the rows it works on, the rows it was
    handed by a claim that is committed, and those it was handed by a claim
    whose commit failed. *)
Definition locked (s : session) : list BatchWitness :=
  match at_pc s with
  | AtScan held _ | AtUpdate held _ _ => held
  | _ => []
  end.




(** The heights locked by the sessions other than [i]. *)
Definition others_hold (i : nat) (ss : list session) : list Z :=
  mjoin (imap (λ j s, if decide (j = i) then [] else Height <$> locked s) ss).

(** A round trip of a session: it goes through ([Act]), the store fails it
    with an error ([Fail]), or, while the rows are read, [rows.Next] fails
    after [k] of them ([Cut]). *)
Inductive label : Type :=
  | Act (i : nat)
  | Fail (i : nat) (e : error)
  | Cut (i : nat) (k : nat).

Definition label_session (l : label) : nat :=
  match l with Act i | Fail i _ | Cut i _ => i end.

Section Concurrent.

Variable conv : error → error.
Variables beforeStatus afterStatus : Z.
Variable clock : Time.

(** The next round trip of session [i] goes through: its new place in the
    code and the committed rows; [None] when it has returned or waits for a
    lock. *)
Definition act (i : nat) (s : session) (c : config)
  : option (pc * list BatchWitness) :=
  match at_pc s with
  | AtBegin => Some (AtQuery, store c)
  | AtQuery =>
      let q := by_status beforeStatus (count s) in
      match run_select q (store c) with
      | Err e => Some (Returned (Err (conv e)), store c)
      | Ok ws =>
          let held := if sel_for_update q then ws else [] in
          if decide (Forall (λ r, Height r ∉ others_hold i (sessions c)) held)
          then Some (AtScan held ws, store c)
          else None
      end
  | AtScan held ws =>
      if decide (length ws = 0%nat)
      then Some (Returned (Err DbErrNotFound), store c)
      else Some (AtUpdate held ws ws, store c)
  | AtUpdate held ws (w :: todo) => Some (AtUpdate held ws todo, store c)
  | AtUpdate held ws [] =>
      Some (Returned (Ok ws),
            transition afterStatus clock (Height <$> ws) (store c))
  | Returned _ | ReturnedUncommitted _ => None
  end.

(** The next round trip of the session fails with [e].  Where the code
    looks at the error, the call returns it and its transaction is rolled
    back.  The commit is the round trip whose error the code drops: the
    call returns its witnesses and nothing is committed. *)
Definition fail (e : error) (s : session) (c : config)
  : option (pc * list BatchWitness) :=
  match at_pc s with
  | AtBegin => Some (Returned (Err e), store c)
  | AtQuery => Some (Returned (Err (conv e)), store c)
  | AtScan _ (_ :: _) => Some (Returned (Err e), store c)
  | AtUpdate _ _ (_ :: _) => Some (Returned (Err e), store c)
  | AtUpdate _ ws [] => Some (ReturnedUncommitted ws, store c)
  | AtScan _ [] | Returned _ | ReturnedUncommitted _ => None
  end.

(** [rows.Next] fails after [k] rows, fewer than there are: the loop ends
    as if they were all, and the call goes on with them. *)
Definition cut (k : nat) (s : session) (c : config)
  : option (pc * list BatchWitness) :=
  match at_pc s with
  | AtScan held ws =>
      if decide (k < length ws)%nat
      then if decide (length (take k ws) = 0%nat)
           then Some (Returned (Err DbErrNotFound), store c)
           else Some (AtUpdate held (take k ws) (take k ws), store c)
      else None
  | _ => None
  end.

Definition step (l : label) (c : config) : option config :=
  match sessions c !! label_session l with
  | None => None
  | Some s =>
      match (match l with
             | Act i => act i s c
             | Fail _ e => fail e s c
             | Cut _ k => cut k s c
             end) with
      | None => None
      | Some (p, rs) =>
          Some {| store := rs;
                  sessions := <[label_session l := {| count := count s; at_pc := p |}]>
                                (sessions c) |}
      end
  end.

Fixpoint run (ls : list label) (c : config) : option config :=
  match ls with
  | [] => Some c
  | l :: ls' =>
      match step l c with
      | Some c' => run ls' c'
      | None => None
      end
  end.

End Concurrent.

(** Every call has been issued and none has started. *)
Definition issued (t : list BatchWitness) (counts : list Z) : config :=
  {| store := t; sessions := (λ n, {| count := n; at_pc := AtBegin |}) <$> counts |}.

(** What session [i] has returned, if it has. *)
Definition returned (c : config) (i : nat) : option (result (list BatchWitness)) :=
  match sessions c !! i with
  | Some {| at_pc := Returned r |} => Some r
  | Some {| at_pc := ReturnedUncommitted ws |} => Some (Ok ws)
  | _ => None
  end.







Definition alone (n : Z) (p : pc) (rs : list BatchWitness) : config :=
  {| store := rs; sessions := [ {| count := n; at_pc := p |} ] |}.

(** * Further definitions *)

(** The rows every query of the witness model looks at. *)
Definition active (r : BatchWitness) : Prop := DeletedAt r = None.

(** A call that leaves the table, committed or in a transaction, and the
    clock as they are. *)
Definition reads_only {A} (c : M A) : Prop := ∀ w, frame w (snd (c w)).

(** The row an INSERT of [CreateBatchWitness] makes of a record: the store
    gives the id and the two times, the record the rest. *)
Definition new_row (id : Z) (clock : Time) (x : BatchWitness) : BatchWitness :=
  {| ID := id; CreatedAt := clock; UpdatedAt := clock; DeletedAt := None;
     Height := Height x; WitnessData := WitnessData x; Status := Status x |}.

(** The rows the INSERTs of a list of records append, ids counting up. *)
Fixpoint inserted (from : Z) (clock : Time) (xs : list BatchWitness)
  : list BatchWitness :=
  match xs with
  | [] => []
  | x :: xs' => new_row from clock x :: inserted (from + 1) clock xs'
  end.

(** A table as the schema keeps it: heights and ids unique over all rows,
    ids below the auto-increment counter. *)
Definition well_formed (t : Table) : Prop :=
  NoDup (Height <$> rows t) ∧ NoDup (ID <$> rows t)
  ∧ Forall (λ r, ID r < auto_increment t) (rows t).

(** Two rows that differ at most in [Status] and [UpdatedAt]. *)
Definition same_identity (r r' : BatchWitness) : Prop :=
  ID r' = ID r ∧ Height r' = Height r ∧ WitnessData r' = WitnessData r
  ∧ CreatedAt r' = CreatedAt r ∧ DeletedAt r' = DeletedAt r.

(** What an UPDATE of the status asks of a row, old against new: at one of
    the heights the row has the new status and the new update time and is
    otherwise as it was; at any other height it is as it was. *)
Definition moved (a : Z) (t : Time) (hs : list Z) (old new : BatchWitness) : Prop :=
  if decide (Height old ∈ hs)
  then Status new = a ∧ UpdatedAt new = t ∧ same_identity old new
  else new = old.



(** [GetRowCounts] of the witness model.  Its queries count rows: the store
    answers with one row that holds a number. *)
Definition run_count (cs : list cond) (t : list BatchWitness) : Z :=
  Z.of_nat (length (filter (satisfies cs) t)).

(** [sql.Row] for a counting query. *)
Definition CountRow := result Z.

Definition QueryRowCount (query : string) (cs : list cond) : M CountRow := λ w,
  let w := log query w in
  match fault w with
  | (Err e, w') => (Ok (Err e), w')
  | (Ok _, w') => (Ok (Ok (run_count cs (rows (committed w')))), w')
  end.

Definition QueryRowCountWithTimeout (d : DB) (query : string) (cs : list cond)
  : M CountRow :=
  QueryRowCount (timeoutQuery d query) cs.

(** [row.Scan(&count)]. *)
Definition CountScan (row : CountRow) : M Z :=
  match row with
  | Err e => throw e
  | Ok n => fault ;; mret n
  end.

Definition count_query (m : defaultWitnessModel) : string :=
  "SELECT COUNT(*) FROM " +:+ table m +:+ " WHERE deleted_at IS NULL".

Definition count_by_status_query (m : defaultWitnessModel) : string :=
  "SELECT COUNT(*) FROM " +:+ table m +:+ " WHERE status = ? AND deleted_at IS NULL".

Definition GetRowCounts (ConvertMysqlErrToDbErr : error → error)
    (m : defaultWitnessModel) : M (list Z) :=
  let counts := [] in
  row ← QueryRowCountWithTimeout (db m) (count_query m) [DeletedAtIsNull];
  count ← or_return (CountScan row) ConvertMysqlErrToDbErr;
  let counts := counts ++ [count] in
  row ← QueryRowCountWithTimeout (db m) (count_by_status_query m)
          [StatusEq StatusPublished; DeletedAtIsNull];
  publishedCount ← or_return (CountScan row) ConvertMysqlErrToDbErr;
  let counts := counts ++ [publishedCount] in
  row ← QueryRowCountWithTimeout (db m) (count_by_status_query m)
          [StatusEq StatusReceived; DeletedAtIsNull];
  pendingCount ← or_return (CountScan row) ConvertMysqlErrToDbErr;
  let counts := counts ++ [pendingCount] in
  row ← QueryRowCountWithTimeout (db m) (count_by_status_query m)
          [StatusEq StatusFinished; DeletedAtIsNull];
  finishedCount ← or_return (CountScan row) ConvertMysqlErrToDbErr;
  let counts := counts ++ [finishedCount] in
  mret counts.

(** The number of rows that are not deleted and have the status. *)
Definition count_status (s : Z) (rs : list BatchWitness) : Z :=
  Z.of_nat (length (filter (λ r, Status r = s ∧ active r) rs)).

(** ** The gateway over any other table

    The proof model and the user-proof model talk to tables of their own
    through the same gateway.  The store of such a table is the one of the
    witness table with the row type left open: a statement is its text and
    its meaning, given by what the WHERE keeps, the key ORDER BY sorts on,
    the LIMIT, and for an INSERT the values the columns refuse, the rows it
    conflicts with (the UNIQUE keys of the table) and the row it makes. *)

Module sqltable.

Section Table.

Variable R : Type.

Record World : Type := mkWorld {
  rows : list R;
  auto_increment : Z;
  now : Time;
  faults : list (option error);
  sent : list string;
}.

Definition M (A : Type) : Type := World → result A * World.

Definition ret {A} (a : A) : M A := λ w, (Ok a, w).

Definition bind {A B} (f : A → M B) (c : M A) : M B := λ w,
  match c w with
  | (Ok a, w') => f a w'
  | (Err e, w') => (Err e, w')
  end.

Definition throw {A} (e : error) : M A := λ w, (Err e, w).

Definition or_return {A} (c : M A) (f : error → error) : M A := λ w,
  match c w with
  | (Ok a, w') => (Ok a, w')
  | (Err e, w') => (Err (f e), w')
  end.

Definition lift {A} (r : result A) : M A := λ w, (r, w).

Definition log (q : string) (w : World) : World :=
  {| rows := rows w; auto_increment := auto_increment w; now := now w;
     faults := faults w; sent := sent w ++ [q] |}.

Definition fault : M unit := λ w,
  match faults w with
  | Some e :: fs =>
      (Err e, {| rows := rows w; auto_increment := auto_increment w; now := now w;
                 faults := fs; sent := sent w |})
  | None :: fs =>
      (Ok (), {| rows := rows w; auto_increment := auto_increment w; now := now w;
                 faults := fs; sent := sent w |})
  | [] => (Ok (), w)
  end.

Record select : Type := SELECT {
  sel_where : R → bool;
  sel_order : option ((R → Z) * direction);
  sel_limit : option Z;
}.

Definition key_le (k : R → Z) (x y : R) : Prop := k x ≤ k y.
Definition key_ge (k : R → Z) (x y : R) : Prop := k y ≤ k x.

Global Instance key_le_dec k x y : Decision (key_le k x y).
Proof. unfold key_le. apply _. Defined.
Global Instance key_ge_dec k x y : Decision (key_ge k x y).
Proof. unfold key_ge. apply _. Defined.

Definition order_by (o : option ((R → Z) * direction)) (l : list R) : list R :=
  match o with
  | None => l
  | Some (k, ASC) => merge_sort (key_le k) l
  | Some (k, DESC) => merge_sort (key_ge k) l
  end.

Definition matching (q : select) (l : list R) : list R :=
  filter (λ r, sel_where q r = true) l.

Definition run_select (q : select) (l : list R) : result (list R) :=
  match sel_limit q with
  | Some n =>
      if n <? 0
      then Err (MySQLError ER_WRONG_ARGUMENTS "Incorrect arguments to EXECUTE")
      else Ok (take (Z.to_nat n) (order_by (sel_order q) (matching q l)))
  | None => Ok (order_by (sel_order q) (matching q l))
  end.

(** An INSERT: the error of the server when a value does not fit its
    column, the existing rows the new one cannot stand beside, and the row
    it makes from the next id and the clock.  The server looks at the values
    before it looks at the keys. *)
Record insert : Type := INSERT {
  ins_refused : option error;
  ins_conflict : R → bool;
  ins_row : Z → Time → R;
}.

Definition Exec (query : string) (i : insert) : M Result := λ w,
  let w := log query w in
  match fault w with
  | (Err e, w') => (Err e, w')
  | (Ok _, w') =>
      match ins_refused i with
      | Some e => (Err e, w')
      | None =>
          if existsb (ins_conflict i) (rows w')
          then (Err (MySQLError ER_DUP_ENTRY "Duplicate entry"), w')
          else (Ok {| LastInsertId := auto_increment w'; RowsAffected := Ok 1 |},
                {| rows := rows w' ++ [ins_row i (auto_increment w') (now w')];
                   auto_increment := auto_increment w' + 1; now := now w';
                   faults := faults w'; sent := sent w' |})
      end
  end.

Definition Query (query : string) (q : select) : M (list R) := λ w,
  let w := log query w in
  match fault w with
  | (Err e, w') => (Err e, w')
  | (Ok _, w') => (run_select q (rows w'), w')
  end.

Definition QueryRow (query : string) (q : select) : M (result (option R)) := λ w,
  match Query query q w with
  | (Err e, w') => (Ok (Err e), w')
  | (Ok rs, w') => (Ok (Ok (head rs)), w')
  end.

Definition QueryRowCount (query : string) (keep : R → bool) : M (result Z) := λ w,
  let w := log query w in
  match fault w with
  | (Err e, w') => (Ok (Err e), w')
  | (Ok _, w') =>
      (Ok (Ok (Z.of_nat (length (filter (λ r, keep r = true) (rows w'))))), w')
  end.

Definition QueryWithTimeout (d : DB) (query : string) (q : select) : M (list R) :=
  Query (timeoutQuery d query) q.

Definition QueryRowWithTimeout (d : DB) (query : string) (q : select)
  : M (result (option R)) :=
  QueryRow (timeoutQuery d query) q.

Definition QueryRowCountWithTimeout (d : DB) (query : string) (keep : R → bool)
  : M (result Z) :=
  QueryRowCount (timeoutQuery d query) keep.

(** [rows.Scan] and [row.Scan] of a row, of one of its columns, of a count. *)
Definition Scan {A} (column : R → A) (r : R) : M A := bind (λ _, ret (column r)) fault.

Definition RowScan {A} (row : result (option R)) (column : R → A) : M A :=
  match row with
  | Err e => throw e
  | Ok None => throw ErrNoRows
  | Ok (Some r) => Scan column r
  end.

Definition CountScan (row : result Z) : M Z :=
  match row with
  | Err e => throw e
  | Ok n => bind (λ _, ret n) fault
  end.

(** [rows.Next()], false at the end of the rows and when the store fails
    to deliver the next one. *)
Definition Next (rs : list R) : M (option R) := λ w,
  match fault w with
  | (Err _, w') => (Ok None, w')
  | (Ok _, w') => (Ok (head rs), w')
  end.

Fixpoint for_rows_Next (rs : list R) (xs : list R) : M (list R) :=
  bind (λ next,
          match next, rs with
          | Some r, _ :: rs' => bind (λ x, for_rows_Next rs' (xs ++ [x])) (Scan id r)
          | _, _ => ret xs
          end)
       (Next rs).

Fixpoint for_range {A} (l : list A) (body : A → M unit) : M unit :=
  match l with
  | [] => ret ()
  | x :: l' => bind (λ _, for_range l' body) (body x)
  end.

Definition quiet (w : World) : Prop := Forall (λ f, f = None) (faults w).

End Table.

Global Instance M_ret R : MRet (M R) := λ A, @ret R A.
Global Instance M_bind R : MBind (M R) := λ A B, @bind R A B.

Arguments throw {R A} e.
Arguments or_return {R A} c f.
Arguments lift {R A} r.
Arguments fault {R}.
Arguments Exec {R} query i.
Arguments QueryWithTimeout {R} d query q.
Arguments QueryRowWithTimeout {R} d query q.
Arguments QueryRowCountWithTimeout {R} d query keep.
Arguments Scan {R A} column r.
Arguments RowScan {R A} row column.
Arguments CountScan {R} row.
Arguments for_rows_Next {R} rs xs.
Arguments for_range {R A} l body.
Arguments Next {R} rs.
Arguments SELECT {R} sel_where sel_order sel_limit.
Arguments INSERT {R} ins_refused ins_conflict ins_row.
Arguments quiet {R} w.
Arguments matching {R} q l.
Arguments rows {R} w.
Arguments auto_increment {R} w.
Arguments now {R} w.
Arguments faults {R} w.
Arguments sent {R} w.

End sqltable.

(** ** proof_model.go, against a table of proofs *)

Module proof_model.

Import prover.

Definition columns : string :=
  "id, created_at, updated_at, deleted_at, proof_info, cex_asset_list_commitments, account_tree_roots, batch_commitment, assets_count, batch_number".

Definition not_deleted (p : Proof) : bool :=
  match DeletedAt p with None => true | Some _ => false end.

(** The row the INSERT of [CreateProof] makes. *)
Definition stored (row : Proof) (id : Z) (clock : Time) : Proof :=
  {| ID := id; CreatedAt := clock; UpdatedAt := clock; DeletedAt := None;
     ProofInfo := ProofInfo row;
     CexAssetListCommitments := CexAssetListCommitments row;
     AccountTreeRoots := AccountTreeRoots row;
     BatchCommitment := BatchCommitment row;
     AssetsCount := AssetsCount row; BatchNumber := BatchNumber row |}.

Definition ER_WARN_DATA_OUT_OF_RANGE : Z := 1264.
Definition ER_DATA_TOO_LONG : Z := 1406.

(** The columns of the proof table against the Go values bound to them: a
    TEXT holds 65535 bytes, an INT the integers of 32 bits while
    [AssetsCount] is an [int], of 64.  [batch_number], a BIGINT, takes every
    [int64], and [proof_info], a LONGTEXT, more bytes than a statement can
    carry. *)
Definition fits_TEXT (v : string) : bool :=
  Z.of_nat (String.length v) <=? 65535.
Definition fits_INT (v : Z) : bool :=
  (-2147483648 <=? v) && (v <=? 2147483647).

(** What the server, in its default strict mode, answers to a row with a
    value that does not fit its column, the columns taken in the order of
    the statement. *)
Definition refused (row : Proof) : option error :=
  if negb (fits_TEXT (CexAssetListCommitments row))
  then Some (MySQLError ER_DATA_TOO_LONG
               "Data too long for column 'cex_asset_list_commitments'")
  else if negb (fits_TEXT (AccountTreeRoots row))
  then Some (MySQLError ER_DATA_TOO_LONG "Data too long for column 'account_tree_roots'")
  else if negb (fits_TEXT (BatchCommitment row))
  then Some (MySQLError ER_DATA_TOO_LONG "Data too long for column 'batch_commitment'")
  else if negb (fits_INT (AssetsCount row))
  then Some (MySQLError ER_WARN_DATA_OUT_OF_RANGE
               "Out of range value for column 'assets_count'")
  else None.

(** The values of a proof fit the columns of the table. *)
Definition fits (row : Proof) : Prop :=
  Z.of_nat (String.length (CexAssetListCommitments row)) ≤ 65535
  ∧ Z.of_nat (String.length (AccountTreeRoots row)) ≤ 65535
  ∧ Z.of_nat (String.length (BatchCommitment row)) ≤ 65535
  ∧ -2147483648 ≤ AssetsCount row ≤ 2147483647.

(** The INSERT of [CreateProof]: [batch_number] is UNIQUE, over every
    row. *)
Definition insert_proof (row : Proof) : sqltable.insert Proof :=
  sqltable.INSERT (refused row) (λ p, BatchNumber p =? BatchNumber row) (stored row).

Definition between_query (m : defaultProofModel) : string :=
  "SELECT " +:+ columns +:+ " FROM " +:+ table m
    +:+ " WHERE batch_number >= ? AND batch_number <= ? AND deleted_at IS NULL ORDER BY batch_number".

Definition latest_query (m : defaultProofModel) : string :=
  "SELECT " +:+ columns +:+ " FROM " +:+ table m
    +:+ " WHERE deleted_at IS NULL ORDER BY batch_number DESC LIMIT 1".

Definition by_number_query (m : defaultProofModel) : string :=
  "SELECT " +:+ columns +:+ " FROM " +:+ table m
    +:+ " WHERE batch_number = ? AND deleted_at IS NULL LIMIT 1".

Definition count_query (m : defaultProofModel) : string :=
  "SELECT COUNT(*) FROM " +:+ table m +:+ " WHERE deleted_at IS NULL".

Section ProofModel.

Variable ConvertMysqlErrToDbErr : error → error.

Definition CreateProof (m : defaultProofModel) (row : Proof)
  : sqltable.M Proof unit :=
  result ← sqltable.Exec (insert_query m) (insert_proof row);
  rowsAffected ← sqltable.lift (RowsAffected result);
  if rowsAffected =? 0 then sqltable.throw DbErrSqlOperation else mret ().

Definition GetProofsBetween (m : defaultProofModel) (start end_ : Z)
  : sqltable.M Proof (list Proof) :=
  rows ← sqltable.or_return
    (sqltable.QueryWithTimeout (db m) (between_query m)
       (sqltable.SELECT
          (λ p, (start <=? BatchNumber p) && (BatchNumber p <=? end_) && not_deleted p)
          (Some (BatchNumber, ASC)) None))
    ConvertMysqlErrToDbErr;
  proofs ← sqltable.for_rows_Next rows [];
  if decide (length proofs = 0%nat) then sqltable.throw DbErrNotFound else
  mret proofs.

Definition GetLatestProof (m : defaultProofModel) : sqltable.M Proof Proof :=
  dbRow ← sqltable.QueryRowWithTimeout (db m) (latest_query m)
            (sqltable.SELECT not_deleted (Some (BatchNumber, DESC)) (Some 1));
  sqltable.or_return (sqltable.RowScan dbRow id)
    (not_found_or_converted ConvertMysqlErrToDbErr).

Definition GetLatestConfirmedProof (m : defaultProofModel) : sqltable.M Proof Proof :=
  dbRow ← sqltable.QueryRowWithTimeout (db m) (latest_query m)
            (sqltable.SELECT not_deleted (Some (BatchNumber, DESC)) (Some 1));
  sqltable.or_return (sqltable.RowScan dbRow id)
    (not_found_or_converted ConvertMysqlErrToDbErr).

Definition GetProofByBatchNumber (m : defaultProofModel) (num : Z)
  : sqltable.M Proof Proof :=
  dbRow ← sqltable.QueryRowWithTimeout (db m) (by_number_query m)
            (sqltable.SELECT (λ p, (BatchNumber p =? num) && not_deleted p) None (Some 1));
  sqltable.or_return (sqltable.RowScan dbRow id)
    (not_found_or_converted ConvertMysqlErrToDbErr).

Definition GetRowCounts (m : defaultProofModel) : sqltable.M Proof Z :=
  row ← sqltable.QueryRowCountWithTimeout (db m) (count_query m) not_deleted;
  sqltable.or_return (sqltable.CountScan row) ConvertMysqlErrToDbErr.

End ProofModel.

End proof_model.

(** ** The user-proof model, against a table of user proofs *)

Module userproof.

Definition TableNamePreifx : string := "userproof".

Record UserProof : Type := mkUserProof {
  AccountIndex : Z;
  AccountId : string;
  AccountLeafHash : string;
  TotalEquity : string;
  TotalDebt : string;
  TotalCollateral : string;
  Assets : string;
  Proof : string;
  Config : string;
  CreatedAt : Time;
  UpdatedAt : Time;
}.

Record defaultUserProofModel : Type := mkUserProofModel {
  table : string;
  db : DB;
}.

Definition NewUserProofModel (d : DB) (suffix : string) : defaultUserProofModel :=
  {| table := TableNamePreifx +:+ suffix; db := d |}.

Definition columns : string :=
  "account_index, account_id, account_leaf_hash, total_equity, total_debt, total_collateral, assets, proof, config, created_at, updated_at".

(** The row an INSERT of [CreateUserProofs] makes: the table has no id. *)
Definition stored (row : UserProof) (clock : Time) : UserProof :=
  {| AccountIndex := AccountIndex row; AccountId := AccountId row;
     AccountLeafHash := AccountLeafHash row; TotalEquity := TotalEquity row;
     TotalDebt := TotalDebt row; TotalCollateral := TotalCollateral row;
     Assets := Assets row; Proof := Proof row; Config := Config row;
     CreatedAt := clock; UpdatedAt := clock |}.

(** [account_index] is UNIQUE and [account_id] is UNIQUE.  The table is
    created without a character set or a collation, so which account ids
    the store takes for equal, and which strings it finds too long for a
    VARCHAR(255), are the server's choice: [same_id] and [refuses] stand for
    them. *)
Definition insert_user_proof (same_id : string → string → bool)
    (refuses : UserProof → option error) (row : UserProof)
  : sqltable.insert UserProof :=
  sqltable.INSERT (refuses row)
    (λ u, (AccountIndex u =? AccountIndex row) || same_id (AccountId u) (AccountId row))
    (λ _, stored row).

Definition insert_query (m : defaultUserProofModel) : string :=
  "INSERT INTO " +:+ table m
    +:+ " (account_index, account_id, account_leaf_hash, total_equity, total_debt, total_collateral, assets, proof, config, created_at, updated_at) VALUES (?, ?, ?, ?, ?, ?, ?, ?, ?, NOW(), NOW())".

Definition by_index_query (m : defaultUserProofModel) : string :=
  "SELECT " +:+ columns +:+ " FROM " +:+ table m +:+ " WHERE account_index = ? LIMIT 1".

Definition by_id_query (m : defaultUserProofModel) : string :=
  "SELECT " +:+ columns +:+ " FROM " +:+ table m +:+ " WHERE account_id = ? LIMIT 1".

Definition latest_index_query (m : defaultUserProofModel) : string :=
  "SELECT account_index FROM " +:+ table m +:+ " ORDER BY account_index DESC LIMIT 1".

Definition count_query (m : defaultUserProofModel) : string :=
  "SELECT COUNT(*) FROM " +:+ table m.

Section UserProofModel.

Variable ConvertMysqlErrToDbErr : error → error.
Variable same_id : string → string → bool.
Variable refuses : UserProof → option error.

Definition CreateUserProofs (m : defaultUserProofModel) (rows : list UserProof)
  : sqltable.M UserProof unit :=
  if decide (length rows = 0%nat) then mret () else
  sqltable.for_range rows (λ row,
    sqltable.Exec (insert_query m) (insert_user_proof same_id refuses row) ;; mret ()).

Definition GetUserProofByIndex (m : defaultUserProofModel) (id : Z)
  : sqltable.M UserProof UserProof :=
  row ← sqltable.QueryRowWithTimeout (db m) (by_index_query m)
          (sqltable.SELECT (λ u, AccountIndex u =? id) None (Some 1));
  sqltable.or_return (sqltable.RowScan row (λ u, u))
    (not_found_or_converted ConvertMysqlErrToDbErr).

Definition GetUserProofById (m : defaultUserProofModel) (id : string)
  : sqltable.M UserProof UserProof :=
  row ← sqltable.QueryRowWithTimeout (db m) (by_id_query m)
          (sqltable.SELECT (λ u, same_id (AccountId u) id) None (Some 1));
  sqltable.or_return (sqltable.RowScan row (λ u, u))
    (not_found_or_converted ConvertMysqlErrToDbErr).

Definition GetLatestAccountIndex (m : defaultUserProofModel)
  : sqltable.M UserProof Z :=
  row ← sqltable.QueryRowWithTimeout (db m) (latest_index_query m)
          (sqltable.SELECT (λ _, true) (Some (AccountIndex, DESC)) (Some 1));
  sqltable.or_return (sqltable.RowScan row AccountIndex)
    (not_found_or_converted ConvertMysqlErrToDbErr).

Definition GetUserCounts (m : defaultUserProofModel) : sqltable.M UserProof Z :=
  row ← sqltable.QueryRowCountWithTimeout (db m) (count_query m) (λ _, true);
  sqltable.or_return (sqltable.CountScan row) ConvertMysqlErrToDbErr.

End UserProofModel.

End userproof.

(** Two worlds of a table with the same rows, counter and clock. *)
Definition same_table {R} (w w' : sqltable.World R) : Prop :=
  sqltable.rows w' = sqltable.rows w
  ∧ sqltable.auto_increment w' = sqltable.auto_increment w
  ∧ sqltable.now w' = sqltable.now w.

(** What a query for at most one row gives once scanned. *)
Definition first_or_NotFound {R A} (conv : error → error) (column : R → A)
    (r : result (list R)) : result A :=
  match r with
  | Err e => Err (not_found_or_converted conv e)
  | Ok rs => match head rs with Some x => Ok (column x) | None => Err DbErrNotFound end
  end.

(** A proof table to run the proof model on. *)
Definition proof_world (ps : list prover.Proof) (fs : list (option error))
  : sqltable.World prover.Proof :=
  {| sqltable.rows := ps; sqltable.auto_increment := 1 + Z.of_nat (length ps);
     sqltable.now := 100; sqltable.faults := fs; sqltable.sent := [] |}.

Definition proof_at (id number : Z) (deleted : option Time) : prover.Proof :=
  {| prover.ID := id; prover.CreatedAt := 0; prover.UpdatedAt := 0;
     prover.DeletedAt := deleted; prover.ProofInfo := "p";
     prover.CexAssetListCommitments := "c"; prover.AccountTreeRoots := "r";
     prover.BatchCommitment := "b"; prover.AssetsCount := 1;
     prover.BatchNumber := number |}.

(** Proofs of batches 4, 2 and 9, the last one soft-deleted. *)
Definition three_proofs : sqltable.World prover.Proof :=
  proof_world [proof_at 1 4 None; proof_at 2 2 None; proof_at 3 9 (Some 50)] [].

(** A user-proof table to run the user-proof model on. *)
Definition user_world (us : list userproof.UserProof) (fs : list (option error))
  : sqltable.World userproof.UserProof :=
  {| sqltable.rows := us; sqltable.auto_increment := 0;
     sqltable.now := 100; sqltable.faults := fs; sqltable.sent := [] |}.

Definition user_at (index : Z) (id : string) : userproof.UserProof :=
  {| userproof.AccountIndex := index; userproof.AccountId := id;
     userproof.AccountLeafHash := "h"; userproof.TotalEquity := "1";
     userproof.TotalDebt := "0"; userproof.TotalCollateral := "0";
     userproof.Assets := "a"; userproof.Proof := "p"; userproof.Config := "c";
     userproof.CreatedAt := 0; userproof.UpdatedAt := 0 |}.

Definition test_user_model : userproof.defaultUserProofModel :=
  userproof.NewUserProofModel {| maxExecutionTime := 10000 * Second |} "".

(** A server that finds no value too long, for running the model on
    examples. *)
Definition refuses_nothing (u : userproof.UserProof) : option error := None.

(** * Properties *)


(** ** The store's operations *)

Lemma holds_satisfies cs r : satisfies cs r ↔ ∀ c, c ∈ cs → holds r c = true.
Proof.
  unfold satisfies. rewrite forallb_forall.
  split; intros H c Hc; apply H; by apply list_elem_of_In.
Qed.

Lemma satisfies_status_active b r :
  satisfies [StatusEq b; DeletedAtIsNull] r ↔ Status r = b ∧ DeletedAt r = None.
Proof.
  unfold satisfies; simpl. rewrite !andb_true_iff, Z.eqb_eq.
  destruct (DeletedAt r); naive_solver.
Qed.

Lemma satisfies_height_status_active h b r :
  satisfies [HeightEq h; StatusEq b; DeletedAtIsNull] r
  ↔ Height r = h ∧ Status r = b ∧ DeletedAt r = None.
Proof.
  unfold satisfies; simpl. rewrite !andb_true_iff, !Z.eqb_eq.
  destruct (DeletedAt r); naive_solver.
Qed.

Global Instance height_le_total : Total height_le.
Proof. intros a b. unfold height_le. lia. Qed.
Global Instance height_le_trans : Transitive height_le.
Proof. intros a b c. unfold height_le. lia. Qed.
Global Instance height_ge_total : Total height_ge.
Proof. intros a b. unfold height_ge. lia. Qed.
Global Instance height_ge_trans : Transitive height_ge.
Proof. intros a b c. unfold height_ge. lia. Qed.

Lemma elem_of_candidates b rs r :
  r ∈ candidates b rs ↔ r ∈ rs ∧ Status r = b ∧ DeletedAt r = None.
Proof.
  unfold candidates. rewrite merge_sort_Permutation, list_elem_of_filter.
  rewrite satisfies_status_active. naive_solver.
Qed.

Lemma candidates_sorted b rs : StronglySorted height_le (candidates b rs).
Proof. apply StronglySorted_merge_sort; apply _. Qed.


Lemma StronglySorted_drop {A} (R : relation A) n l :
  StronglySorted R l → StronglySorted R (drop n l).
Proof.
  intros H. rewrite <- (take_drop n l) in H.
  by apply StronglySorted_app_1_r in H.
Qed.

Lemma set_status_idemp a t r : set_status a t (set_status a t r) = set_status a t r.
Proof. reflexivity. Qed.

Lemma transition_nil a t rs : transition a t [] rs = rs.
Proof.
  unfold transition. rewrite <- (list_fmap_id rs) at 2.
  apply list_fmap_ext. intros _ r _.
  rewrite decide_False; [done|]. apply not_elem_of_nil.
Qed.

Lemma transition_cons a t h hs rs :
  transition a t hs (update_rows a h t rs) = transition a t (h :: hs) rs.
Proof.
  unfold transition, update_rows. rewrite <- list_fmap_compose.
  apply list_fmap_ext. intros _ r _. simpl.
  destruct (Z.eqb_spec (Height r) h) as [Heq|Hne].
  - change (Height (set_status a t r)) with (Height r).
    rewrite (decide_True (P := Height r ∈ h :: hs)) by (rewrite Heq; left).
    by destruct (decide (Height r ∈ hs)).
  - destruct (decide (Height r ∈ hs)) as [Hin|Hin];
      destruct (decide (Height r ∈ h :: hs)) as [Hin'|Hin']; try done.
    + exfalso. apply Hin'. by right.
    + exfalso. apply elem_of_cons in Hin' as [?|?]; done.
Qed.

(** ** Running a call *)

Lemma bind_inv {A B} (c : M A) (f : A → M B) w r w' :
  (c ≫= f) w = (r, w') →
  (∃ e, c w = (Err e, w') ∧ r = Err e)
  ∨ (∃ a w1, c w = (Ok a, w1) ∧ f a w1 = (r, w')).
Proof.
  unfold mbind, M_bind. destruct (c w) as [[a|e] w1]; intros H.
  - right. eauto.
  - left. exists e. by inversion H.
Qed.

Lemma bind_ok {A B} (c : M A) (f : A → M B) w a w1 :
  c w = (Ok a, w1) → (c ≫= f) w = f a w1.
Proof. unfold mbind, M_bind. by intros ->. Qed.

Lemma bind_err {A B} (c : M A) (f : A → M B) w e w1 :
  c w = (Err e, w1) → (c ≫= f) w = (Err e, w1).
Proof. unfold mbind, M_bind. by intros ->. Qed.

Lemma frame_refl w : frame w w.
Proof. done. Qed.

Lemma frame_trans w1 w2 w3 : frame w1 w2 → frame w2 w3 → frame w1 w3.
Proof. unfold frame. intros (-> & -> & ->) (-> & -> & ->). done. Qed.

Lemma fault_inv w r w' :
  fault w = (r, w') → frame w w' ∧ sent w' = sent w.
Proof.
  unfold fault. destruct (faults w) as [|[e|] fs]; intros [= <- <-]; done.
Qed.

Lemma fault_quiet w :
  quiet w → ∃ w', fault w = (Ok (), w') ∧ quiet w' ∧ frame w w' ∧ sent w' = sent w.
Proof.
  unfold quiet, fault. destruct (faults w) as [|[e|] fs] eqn:Hf; intros Hq.
  - exists w. by rewrite Hf.
  - by inversion Hq.
  - eexists. split; [done|]. inversion Hq; subst. done.
Qed.

Lemma Scan_inv r w res w' :
  Scan r w = (res, w') → frame w w' ∧ sent w' = sent w ∧ ∀ x, res = Ok x → x = r.
Proof.
  unfold Scan. intros H. apply bind_inv in H as [(e & H & ->)|([] & w1 & H & [= <- <-])].
  - apply fault_inv in H as [? ?]. done.
  - apply fault_inv in H as [? ?]. split_and!; [done..|]. by intros x [= <-].
Qed.

Lemma ScanHeight_inv r w res w' :
  ScanHeight r w = (res, w') →
  frame w w' ∧ sent w' = sent w ∧ ∀ x, res = Ok x → x = Height r.
Proof.
  unfold ScanHeight. intros H.
  apply bind_inv in H as [(e & H & ->)|([] & w1 & H & [= <- <-])].
  - apply fault_inv in H as [? ?]. done.
  - apply fault_inv in H as [? ?]. split_and!; [done..|]. by intros x [= <-].
Qed.

Lemma Next_inv rs w res w' :
  Next rs w = (res, w') →
  frame w w' ∧ sent w' = sent w ∧ (res = Ok None ∨ res = Ok (head rs)).
Proof.
  unfold Next. destruct (fault w) as [[[]|e] w1] eqn:Hf;
    apply fault_inv in Hf as (? & ?); intros [= <- <-]; auto.
Qed.

Lemma Next_quiet rs w :
  quiet w →
  ∃ w', Next rs w = (Ok (head rs), w') ∧ quiet w' ∧ frame w w' ∧ sent w' = sent w.
Proof.
  intros Hq. destruct (fault_quiet w Hq) as (w' & H & ?).
  exists w'. unfold Next. by rewrite H.
Qed.

(** The loop returns the rows it was given, scanned, or the first few of
    them when the store cut the result short. *)
Lemma for_rows_Next_inv {A} (scan : BatchWitness → M A) (f : BatchWitness → A) :
  (∀ r w res w', scan r w = (res, w') →
     frame w w' ∧ sent w' = sent w ∧ ∀ x, res = Ok x → x = f r) →
  ∀ rs xs w res w', for_rows_Next rs scan xs w = (res, w') →
    frame w w' ∧ sent w' = sent w
    ∧ ∀ l, res = Ok l → ∃ k, l = xs ++ (f <$> take k rs).
Proof.
  intros Hscan. induction rs as [|r rs IH]; intros xs w res w' H; simpl in H.
  - apply bind_inv in H as [(e & H & ->)|(o & w1 & H & Hrest)];
      apply Next_inv in H as (? & ? & Ho); [by destruct Ho|].
    assert (res = Ok xs ∧ w' = w1) as [-> ->] by (by destruct o; inversion Hrest).
    split_and!; [done..|]. intros l [= <-]. exists 0%nat. by rewrite app_nil_r.
  - apply bind_inv in H as [(e & H & ->)|(o & w1 & H & Hrest)];
      apply Next_inv in H as (Hf0 & Hs0 & Ho); [by destruct Ho|].
    destruct Ho as [[= ->]|[= ->]]; simpl in Hrest.
    { inversion Hrest; subst. split_and!; [done..|]. intros l [= <-].
      exists 0%nat. by rewrite app_nil_r. }
    apply bind_inv in Hrest as [(e & H & ->)|(x & w2 & H & Hrest)].
    + apply Hscan in H as (? & ? & _).
      split_and!; [by eapply frame_trans|congruence|done].
    + apply Hscan in H as (Hf & Hs & Hx). apply IH in Hrest as (Hf' & Hs' & Hl).
      split_and!; [eapply frame_trans; [done|]; by eapply frame_trans|congruence|].
      intros l ->. destruct (Hl _ eq_refl) as (k & ->). exists (S k).
      rewrite (Hx _ eq_refl), <- app_assoc. done.
Qed.

Lemma for_rows_Next_quiet {A} (scan : BatchWitness → M A) (f : BatchWitness → A) :
  (∀ r w, quiet w → ∃ w', scan r w = (Ok (f r), w') ∧ quiet w' ∧ frame w w' ∧ sent w' = sent w) →
  ∀ rs xs w, quiet w →
    ∃ w', for_rows_Next rs scan xs w = (Ok (xs ++ (f <$> rs)), w')
          ∧ quiet w' ∧ frame w w' ∧ sent w' = sent w.
Proof.
  intros Hscan. induction rs as [|r rs IH]; intros xs w Hq; simpl.
  - destruct (Next_quiet [] w Hq) as (w0 & H0 & Hq0 & Hf0 & Hs0).
    exists w0. rewrite (bind_ok _ _ _ _ _ H0). simpl. by rewrite app_nil_r.
  - destruct (Next_quiet (r :: rs) w Hq) as (w0 & H0 & Hq0 & Hf0 & Hs0).
    destruct (Hscan r w0 Hq0) as (w1 & H1 & Hq1 & Hf1 & Hs1).
    destruct (IH (xs ++ [f r]) w1 Hq1) as (w2 & H2 & Hq2 & Hf2 & Hs2).
    exists w2. rewrite (bind_ok _ _ _ _ _ H0). simpl.
    rewrite (bind_ok _ _ _ _ _ H1), H2, <- app_assoc.
    split_and!; [done|done|eapply frame_trans; [done|]; by eapply frame_trans|congruence].
Qed.

Lemma Scan_quiet r w :
  quiet w → ∃ w', Scan r w = (Ok (id r), w') ∧ quiet w' ∧ frame w w' ∧ sent w' = sent w.
Proof.
  intros Hq. destruct (fault_quiet w Hq) as (w' & H & ?).
  exists w'. unfold Scan. by rewrite (bind_ok _ _ _ _ _ H).
Qed.

Lemma ScanHeight_quiet r w :
  quiet w →
  ∃ w', ScanHeight r w = (Ok (Height r), w') ∧ quiet w' ∧ frame w w' ∧ sent w' = sent w.
Proof.
  intros Hq. destruct (fault_quiet w Hq) as (w' & H & ?).
  exists w'. unfold ScanHeight. by rewrite (bind_ok _ _ _ _ _ H).
Qed.

(** ** Inside a transaction *)

Lemma BeginTransaction_inv w res w' :
  BeginTransaction w = (res, w') →
  committed w' = committed w ∧ now w' = now w ∧ sent w' = sent w
  ∧ match res with
    | Ok _ => in_tx w' = Some (committed w)
    | Err _ => in_tx w' = in_tx w
    end.
Proof.
  unfold BeginTransaction. destruct (fault w) as [[[]|e] w1] eqn:Hf;
    apply fault_inv in Hf as ((Hc & Hi & Hn) & Hs); intros [= <- <-]; simpl;
    rewrite ?Hc; done.
Qed.

Lemma BeginTransaction_quiet w :
  quiet w →
  ∃ w', BeginTransaction w = (Ok mkTransaction, w') ∧ quiet w'
        ∧ committed w' = committed w ∧ now w' = now w
        ∧ in_tx w' = Some (committed w).
Proof.
  intros Hq. destruct (fault_quiet w Hq) as (w1 & Hf & Hq1 & (Hc & Hi & Hn) & Hs).
  unfold BeginTransaction. rewrite Hf. eexists. split; [done|].
  simpl. rewrite Hc. done.
Qed.

Lemma tx_Query_inv tx text q w res w' :
  tx_Query tx text q w = (res, w') →
  frame w w' ∧ sent w' = sent w ++ [text]
  ∧ ∀ rs, res = Ok rs → ∃ t, in_tx w = Some t ∧ run_select q (rows t) = Ok rs.
Proof.
  unfold tx_Query. destruct (fault (log text w)) as [[[]|e] w1] eqn:Hf;
    apply fault_inv in Hf as ((Hc & Hi & Hn) & Hs); simpl in *.
  - destruct (in_tx w1) as [t|] eqn:Ht; intros [= <- <-].
    + split_and!; [unfold frame; split_and!; congruence|done|].
      intros rs Hrs. exists t. by rewrite <- Hi.
    + split_and!; [unfold frame; split_and!; congruence|done|done].
  - intros [= <- <-]. done.
Qed.

Lemma tx_Query_quiet tx text q w t :
  quiet w → in_tx w = Some t →
  ∃ w', tx_Query tx text q w = (run_select q (rows t), w') ∧ quiet w'
        ∧ frame w w' ∧ sent w' = sent w ++ [text].
Proof.
  intros Hq Ht. destruct (fault_quiet (log text w) Hq) as (w1 & Hf & Hq1 & (Hc & Hi & Hn) & Hs).
  unfold tx_Query. rewrite Hf. simpl in *. rewrite Hi, Ht. eexists. done.
Qed.

Lemma tx_Exec_UPDATE_inv tx text s h w res w' :
  tx_Exec tx text (UPDATE s h) w = (res, w') →
  committed w' = committed w ∧ now w' = now w ∧ sent w' = sent w ++ [text]
  ∧ match res with
    | Ok _ => ∃ t, in_tx w = Some t ∧ in_tx w' = Some (updated s h (now w) t)
    | Err _ => in_tx w' = in_tx w
    end.
Proof.
  unfold tx_Exec. destruct (fault (log text w)) as [[[]|e] w1] eqn:Hf;
    apply fault_inv in Hf as ((Hc & Hi & Hn) & Hs); simpl in *.
  - destruct (in_tx w1) as [t|] eqn:Ht; intros [= <- <-]; simpl.
    + split_and!; [done..|]. exists t. by rewrite <- Hi, Hn.
    + split_and!; congruence.
  - intros [= <- <-]. done.
Qed.

Lemma tx_Exec_UPDATE_quiet tx text s h w t :
  quiet w → in_tx w = Some t →
  ∃ res w', tx_Exec tx text (UPDATE s h) w = (Ok res, w') ∧ quiet w'
        ∧ committed w' = committed w ∧ now w' = now w
        ∧ in_tx w' = Some (updated s h (now w) t).
Proof.
  intros Hq Ht. destruct (fault_quiet (log text w) Hq) as (w1 & Hf & Hq1 & (Hc & Hi & Hn) & Hs).
  unfold tx_Exec. rewrite Hf. simpl in *. rewrite Hi, Ht. simpl.
  do 2 eexists. split; [done|]. simpl. rewrite Hn. done.
Qed.

Lemma transitioned_nil a clock t : transitioned a clock [] t = t.
Proof. unfold transitioned. simpl. rewrite transition_nil. by destruct t. Qed.

Lemma transitioned_cons a clock w ws t :
  transitioned a clock ws (updated a (Height w) clock t)
  = transitioned a clock (w :: ws) t.
Proof. unfold transitioned, updated. simpl. by rewrite transition_cons. Qed.

Lemma update_each_inv m tx a ws w res w' :
  update_each m tx a ws w = (res, w') →
  committed w' = committed w ∧ now w' = now w
  ∧ ∀ t, in_tx w = Some t → res = Ok () → in_tx w' = Some (transitioned a (now w) ws t).
Proof.
  unfold update_each. revert w. induction ws as [|x ws IH]; intros w H; simpl in H.
  - inversion H; subst. split_and!; [done..|]. intros t Ht _. by rewrite transitioned_nil.
  - apply bind_inv in H as [(e & H & ->)|([] & w1 & H & Hrest)].
    + apply bind_inv in H as [(e' & H & _)|(r & w2 & H & [=])].
      apply tx_Exec_UPDATE_inv in H as (? & ? & _). done.
    + apply bind_inv in H as [(e' & H & [=])|(r & w2 & H & [= ->])].
      apply tx_Exec_UPDATE_inv in H as (Hc & Hn & _ & t0 & Ht0 & Ht1).
      apply IH in Hrest as (Hc' & Hn' & Hrest).
      split_and!; [congruence..|]. intros t Ht Hres.
      rewrite Ht in Ht0. injection Ht0 as <-.
      rewrite (Hrest _ Ht1 Hres), Hn, transitioned_cons. done.
Qed.

Lemma update_each_quiet m tx a ws w t :
  quiet w → in_tx w = Some t →
  ∃ w', update_each m tx a ws w = (Ok (), w') ∧ quiet w'
        ∧ committed w' = committed w ∧ now w' = now w
        ∧ in_tx w' = Some (transitioned a (now w) ws t).
Proof.
  unfold update_each. revert w t. induction ws as [|x ws IH]; intros w t Hq Ht; simpl.
  - exists w. rewrite transitioned_nil. done.
  - destruct (tx_Exec_UPDATE_quiet tx (updateQuery m) a (Height x) w t Hq Ht)
      as (r & w1 & H1 & Hq1 & Hc1 & Hn1 & Ht1).
    destruct (IH w1 _ Hq1 Ht1) as (w2 & H2 & Hq2 & Hc2 & Hn2 & Ht2).
    exists w2. erewrite bind_ok; [|by erewrite bind_ok].
    rewrite H2. split_and!; [done|done|congruence..|].
    rewrite Ht2, Hn1, transitioned_cons. done.
Qed.

(** ** The two claims *)

Lemma ByStatus_claim conv m b a n :
  GetAndUpdateBatchesWitnessByStatus conv m b a n
  = claim conv m (claim_by_status_query m) (by_status b n) a.
Proof. reflexivity. Qed.

Lemma ByHeight_claim conv m h b a :
  GetAndUpdateBatchesWitnessByHeight conv m h b a
  = claim conv m (claim_by_height_query m) (by_height h b) a.
Proof. reflexivity. Qed.

Lemma or_return_inv {A} (c : M A) f w res w' :
  or_return c f w = (res, w') →
  (∃ a, c w = (Ok a, w') ∧ res = Ok a) ∨ (∃ e, c w = (Err e, w') ∧ res = Err (f e)).
Proof.
  unfold or_return. destruct (c w) as [[a|e] w1]; intros [= <- <-]; eauto.
Qed.

Lemma Commit_inv tx w res w' :
  Commit tx w = (res, w') →
  in_tx w' = None ∧ now w' = now w ∧ sent w' = sent w
  ∧ (committed w' = committed w ∨ ∃ t, in_tx w = Some t ∧ committed w' = t).
Proof.
  unfold Commit. destruct (fault w) as [[[]|e] w1] eqn:Hf;
    apply fault_inv in Hf as ((Hc & Hi & Hn) & Hs).
  - destruct (in_tx w1) as [t|] eqn:Ht; intros [= <- <-]; simpl.
    + split_and!; [done..|]. right. exists t. by rewrite <- Hi.
    + split_and!; [done..|]. by left.
  - intros [= <- <-]. simpl. split_and!; [done..|]. by left.
Qed.

Lemma Commit_quiet tx w t :
  quiet w → in_tx w = Some t →
  ∃ w', Commit tx w = (Ok (), w') ∧ quiet w' ∧ committed w' = t ∧ in_tx w' = None
        ∧ now w' = now w ∧ sent w' = sent w.
Proof.
  intros Hq Ht. destruct (fault_quiet w Hq) as (w1 & Hf & Hq1 & (Hc & Hi & Hn) & Hs).
  unfold Commit. rewrite Hf, Hi, Ht. eexists. split; [done|]. done.
Qed.

Lemma Rollback_inv tx w res w' :
  Rollback tx w = (res, w') →
  in_tx w' = None ∧ committed w' = committed w ∧ now w' = now w ∧ sent w' = sent w.
Proof.
  unfold Rollback. destruct (fault w) as [[[]|e] w1] eqn:Hf;
    apply fault_inv in Hf as ((Hc & Hi & Hn) & Hs).
  - destruct (in_tx w1) as [t|] eqn:Ht; intros [= <- <-]; done.
  - intros [= <- <-]. done.
Qed.

Lemma Rollback_quiet tx w : quiet w → quiet (snd (Rollback tx w)).
Proof.
  intros Hq. destruct (fault_quiet w Hq) as (w1 & Hf & Hq1 & _).
  unfold Rollback. rewrite Hf. by destruct (in_tx w1).
Qed.

(** The body of a claim, whatever the store does: what it returns are the
    first rows of what its SELECT found, all of them unless the store cut
    the result short, and the working copy has them updated. *)
Lemma claim_body_inv conv m tx text q a w res w' :
  claim_body conv m tx text q a w = (res, w') →
  committed w' = committed w ∧ now w' = now w
  ∧ ∀ ws, res = Ok ws →
      ws ≠ [] ∧ ∃ t rs k, in_tx w = Some t ∧ run_select q (rows t) = Ok rs
                     ∧ ws = take k rs
                     ∧ in_tx w' = Some (transitioned a (now w) ws t).
Proof.
  unfold claim_body. intros H.
  apply bind_inv in H as [(e & H & ->)|(rs & w1 & H & H1)].
  { apply or_return_inv in H as [(? & H & [=])|(e' & H & _)].
    apply tx_Query_inv in H as ((? & ? & ?) & _). done. }
  apply or_return_inv in H as [(? & H & [= <-])|(e' & H & [=])].
  apply tx_Query_inv in H as ((Hc1 & Hi1 & Hn1) & _ & Hsel).
  destruct (Hsel _ eq_refl) as (t & Ht & Hrun).
  apply bind_inv in H1 as [(e & H1 & ->)|(ws & w2 & H1 & H2)].
  { apply (for_rows_Next_inv Scan id Scan_inv) in H1 as ((? & ? & ?) & _).
    split_and!; [congruence..|done]. }
  apply (for_rows_Next_inv Scan id Scan_inv) in H1 as ((Hc2 & Hi2 & Hn2) & _ & Hws).
  destruct (Hws _ eq_refl) as (k & Hk). simpl in Hk. rewrite list_fmap_id in Hk.
  destruct (decide (length ws = 0%nat)) as [Hlen|Hlen].
  { inversion H2; subst. split_and!; [congruence..|done]. }
  apply bind_inv in H2 as [(e & H2 & ->)|([] & w3 & H2 & [= <- <-])].
  { apply update_each_inv in H2 as (? & ? & _). split_and!; [congruence..|done]. }
  apply update_each_inv in H2 as (Hc3 & Hn3 & Hup).
  split_and!; [congruence..|]. intros ws' [= <-]. split.
  { intros ->. done. }
  exists t, rs, k. split_and!; [done..|].
  rewrite (Hup t) by congruence. congruence.
Qed.

Lemma or_return_ok {A} (c : M A) f w a w' :
  c w = (Ok a, w') → or_return c f w = (Ok a, w').
Proof. unfold or_return. by intros ->. Qed.

Lemma or_return_err {A} (c : M A) f w e w' :
  c w = (Err e, w') → or_return c f w = (Err (f e), w').
Proof. unfold or_return. by intros ->. Qed.

Lemma claim_body_quiet conv m tx text q a w t :
  quiet w → in_tx w = Some t →
  ∃ w', claim_body conv m tx text q a w = (claim_outcome conv (run_select q (rows t)), w')
        ∧ quiet w' ∧ committed w' = committed w ∧ now w' = now w
        ∧ in_tx w' = Some (match claim_outcome conv (run_select q (rows t)) with
                           | Ok ws => transitioned a (now w) ws t
                           | Err _ => t
                           end).
Proof.
  intros Hq Ht. unfold claim_body.
  destruct (tx_Query_quiet tx text q w t Hq Ht) as (w1 & H1 & Hq1 & (Hc1 & Hi1 & Hn1) & _).
  destruct (run_select q (rows t)) as [rs|e] eqn:Hrun.
  2:{ exists w1. erewrite bind_err; [|by apply or_return_err].
      split_and!; [done..|]. simpl. congruence. }
  erewrite bind_ok; [|by apply or_return_ok].
  destruct (for_rows_Next_quiet Scan id Scan_quiet rs [] w1 Hq1)
    as (w2 & H2 & Hq2 & (Hc2 & Hi2 & Hn2) & _).
  simpl in H2. rewrite list_fmap_id in H2.
  erewrite bind_ok; [|done].
  destruct (decide (length rs = 0%nat)) as [Hlen|Hlen].
  { destruct rs; [|done]. exists w2. simpl. split_and!; [done|done|congruence..]. }
  destruct (update_each_quiet m tx a rs w2 t Hq2 ltac:(congruence))
    as (w3 & H3 & Hq3 & Hc3 & Hn3 & Ht3).
  erewrite bind_ok; [|done]. exists w3.
  destruct rs; [done|]. simpl. split_and!; [done|done|congruence..].
Qed.

(** A claim that returns records, whatever the store does: they are the
    first rows of what its SELECT finds in the table, and the table has
    them updated, unless the commit failed: then the table is as it was. *)
Lemma claim_Ok conv m text q a w ws w' :
  claim conv m text q a w = (Ok ws, w') →
  ws ≠ [] ∧ (∃ rs k, run_select q (rows (committed w)) = Ok rs ∧ ws = take k rs)
  ∧ (committed w' = transitioned a (now w) ws (committed w)
     ∨ committed w' = committed w)
  ∧ in_tx w' = None ∧ now w' = now w.
Proof.
  unfold claim. intros H.
  apply bind_inv in H as [(e & _ & [=])|(tx & w1 & H & H1)].
  apply BeginTransaction_inv in H as (Hc & Hn & _ & Ht).
  unfold defer_Rollback_or_Commit in H1.
  destruct (claim_body conv m tx text q a w1) as [[ws'|e] w2] eqn:Hb; [|done].
  injection H1 as <- <-.
  apply claim_body_inv in Hb as (Hc2 & Hn2 & Hb).
  destruct (Hb _ eq_refl) as (Hne & t & rs & k & Ht' & Hrun & Hk & Ht2).
  rewrite Ht in Ht'. injection Ht' as <-.
  destruct (Commit tx w2) as [r w3] eqn:HC. simpl.
  apply Commit_inv in HC as (Hi3 & Hn3 & _ & Hc3).
  split_and!; [done|by exists rs, k| |done|congruence].
  destruct Hc3 as [Hc3|(t & Ht3 & Hc3)].
  - right. congruence.
  - left. rewrite Ht2 in Ht3. injection Ht3 as <-. rewrite Hc3. congruence.
Qed.

Lemma claim_Err conv m text q a w e w' :
  claim conv m text q a w = (Err e, w') →
  committed w' = committed w ∧ now w' = now w ∧ (in_tx w = None → in_tx w' = None).
Proof.
  unfold claim. intros H.
  apply bind_inv in H as [(e' & H & _)|(tx & w1 & H & H1)].
  { apply BeginTransaction_inv in H as (? & ? & _ & ?). split_and!; congruence. }
  apply BeginTransaction_inv in H as (Hc & Hn & _ & Ht).
  unfold defer_Rollback_or_Commit in H1.
  destruct (claim_body conv m tx text q a w1) as [[ws'|e'] w2] eqn:Hb; [done|].
  injection H1 as <- <-.
  apply claim_body_inv in Hb as (Hc2 & Hn2 & _).
  destruct (Rollback tx w2) as [r w3] eqn:HR. simpl.
  apply Rollback_inv in HR as (? & ? & ? & _). split_and!; congruence.
Qed.

(** A claim while the store reports no failure: what it returns, and the
    table it leaves. *)
Lemma claim_quiet conv m text q a w :
  quiet w →
  ∃ w', claim conv m text q a w
        = (claim_outcome conv (run_select q (rows (committed w))), w')
        ∧ quiet w' ∧ now w' = now w ∧ in_tx w' = None
        ∧ committed w'
          = match claim_outcome conv (run_select q (rows (committed w))) with
            | Ok ws => transitioned a (now w) ws (committed w)
            | Err _ => committed w
            end.
Proof.
  intros Hq. unfold claim.
  destruct (BeginTransaction_quiet w Hq) as (w1 & H1 & Hq1 & Hc1 & Hn1 & Ht1).
  destruct (claim_body_quiet conv m mkTransaction text q a w1 _ Hq1 Ht1)
    as (w2 & H2 & Hq2 & Hc2 & Hn2 & Ht2).
  erewrite bind_ok; [|done]. unfold defer_Rollback_or_Commit. rewrite H2.
  destruct (claim_outcome conv (run_select q (rows (committed w)))) as [ws|e].
  - destruct (Commit_quiet mkTransaction w2 _ Hq2 Ht2) as (w3 & H3 & Hq3 & Hc3 & Hi3 & Hn3 & _).
    exists w3. rewrite H3. simpl. split_and!; [done|done|congruence|done|congruence].
  - destruct (Rollback mkTransaction w2) as [r w3] eqn:HR.
    pose proof (Rollback_quiet mkTransaction w2 Hq2) as Hq3. rewrite HR in Hq3.
    apply Rollback_inv in HR as (? & ? & ? & _).
    exists w3. simpl. split_and!; [done|done|congruence|done|congruence].
Qed.

Lemma claim_outcome_Ok conv r ws :
  claim_outcome conv r = Ok ws → r = Ok ws ∧ ws ≠ [].
Proof. destruct r as [[|x l]|e]; simpl; intros [= <-]; done. Qed.

(** A claim that returns records while the store reports no failure. *)
Lemma claim_Ok_quiet conv m text q a w ws w' :
  quiet w →
  claim conv m text q a w = (Ok ws, w') →
  ws ≠ [] ∧ run_select q (rows (committed w)) = Ok ws
  ∧ committed w' = transitioned a (now w) ws (committed w)
  ∧ in_tx w' = None ∧ now w' = now w ∧ quiet w'.
Proof.
  intros Hq H.
  destruct (claim_quiet conv m text q a w Hq) as (w1 & H1 & Hq1 & Hn1 & Hi1 & Hc1).
  rewrite H in H1. injection H1 as Hout <-. symmetry in Hout.
  rewrite Hout in Hc1. apply claim_outcome_Ok in Hout as [? ?]. done.
Qed.

Lemma merge_sort_nil_iff {A} (R : relation A) `{∀ x y, Decision (R x y)} l :
  merge_sort R l = [] ↔ l = [].
Proof.
  split; intros Hl.
  - apply Permutation_nil_r. rewrite <- Hl. symmetry. apply merge_sort_Permutation.
  - subst. reflexivity.
Qed.

Lemma filter_nil_iff {A} (P : A → Prop) `{∀ x, Decision (P x)} (l : list A) :
  filter P l = [] ↔ ¬ ∃ x, x ∈ l ∧ P x.
Proof.
  split.
  - intros Hl (x & Hx & HP).
    assert (x ∈ filter P l) as Hin by (apply list_elem_of_filter; done).
    rewrite Hl in Hin. by apply not_elem_of_nil in Hin.
  - intros Hno. destruct (filter P l) as [|x l'] eqn:Hl; [done|].
    exfalso. apply Hno. exists x.
    assert (x ∈ filter P l) as Hin by (rewrite Hl; left).
    apply list_elem_of_filter in Hin. naive_solver.
Qed.

Lemma run_select_by_status b n rs :
  0 ≤ n → run_select (by_status b n) rs = Ok (take (Z.to_nat n) (candidates b rs)).
Proof.
  intros Hn. unfold run_select, by_status; simpl.
  destruct (Z.ltb_spec n 0); [lia|]. reflexivity.
Qed.

Lemma run_select_by_status_inv b n rs ws :
  run_select (by_status b n) rs = Ok ws →
  0 ≤ n ∧ ws = take (Z.to_nat n) (candidates b rs).
Proof.
  unfold run_select, by_status; simpl.
  destruct (Z.ltb_spec n 0); simpl; [done|]. intros [= <-]. done.
Qed.

Lemma run_select_by_height h b rs :
  run_select (by_height h b) rs
  = Ok (merge_sort height_le
          (filter (satisfies [HeightEq h; StatusEq b; DeletedAtIsNull]) rs)).
Proof. reflexivity. Qed.

Lemma elem_of_transition a t hs rs r' :
  r' ∈ transition a t hs rs ↔
  ∃ r, r ∈ rs ∧ r' = if decide (Height r ∈ hs) then set_status a t r else r.
Proof. unfold transition. rewrite list_elem_of_fmap. naive_solver. Qed.

(** ** The claims about the two claim operations *)

Lemma transition_moved a t hs rs :
  Forall2 (moved a t hs) rs (transition a t hs rs).
Proof.
  unfold transition, moved. induction rs as [|r rs IH]; simpl; constructor; [|done].
  destruct (decide (Height r ∈ hs)); done.
Qed.





(** C2. A failing claim, by status or by height, whatever made it fail,
    leaves the committed table as it was, every row and every field, and
    leaves no transaction open. *)
Theorem failed_claim_leaves_table conv m h b a n w e w' :
  GetAndUpdateBatchesWitnessByStatus conv m b a n w = (Err e, w')
  ∨ GetAndUpdateBatchesWitnessByHeight conv m h b a w = (Err e, w') →
  committed w' = committed w ∧ (in_tx w = None → in_tx w' = None).
Proof.
  rewrite ByStatus_claim, ByHeight_claim.
  intros [H|H]; apply claim_Err in H as (? & _ & ?); done.
Qed.

Lemma failed_claim_leaves_table_witness :
  (failing_claim = (Err (DriverError "bad connection"), snd failing_claim)
   ∨ GetAndUpdateBatchesWitnessByHeight keep_error test_model 0
       StatusPublished StatusReceived failing_world
     = (Err (DriverError "bad connection"), snd failing_claim))
  ∧ committed (snd failing_claim) = committed failing_world
  ∧ (in_tx failing_world = None → in_tx (snd failing_claim) = None).
Proof.
  assert (failing_claim = (Err (DriverError "bad connection"), snd failing_claim)) as H
    by (vm_compute; reflexivity).
  split; [left; exact H|].
  apply (failed_claim_leaves_table keep_error test_model 0 StatusPublished
           StatusReceived 2 failing_world (DriverError "bad connection")
           (snd failing_claim)).
  left; exact H.
Defined.

Lemma take_nil_iff {A} (k : nat) (l : list A) : take k l = [] ↔ k = 0%nat ∨ l = [].
Proof. destruct k, l; simpl; naive_solver. Qed.

Lemma candidates_nil_iff b rs :
  candidates b rs = [] ↔ ¬ ∃ r, r ∈ rs ∧ DeletedAt r = None ∧ Status r = b.
Proof.
  unfold candidates. rewrite merge_sort_nil_iff, filter_nil_iff.
  split; intros Hno (r & Hr); apply Hno; exists r;
    rewrite satisfies_status_active in *; naive_solver.
Qed.

Lemma claim_outcome_NotFound_Ok conv ws :
  claim_outcome conv (Ok ws) = Err DbErrNotFound ↔ ws = [].
Proof. destruct ws; simpl; naive_solver. Qed.

(** C3, as the code has it.  While the store reports no failure:
    [GetAndUpdateBatchesWitnessByStatus] with a [count] of at least 0 fails
    with [DbErrNotFound] exactly when its SELECT returns no row, that is
    when [count] is 0 or no row that is not deleted has [beforeStatus];
    [GetAndUpdateBatchesWitnessByHeight] fails with [DbErrNotFound] exactly
    when no row that is not deleted has that height and [beforeStatus].
    Whenever either fails with [DbErrNotFound] the table is as it was. *)
Theorem NotFound_iff_nothing_selected conv m h b a n w :
  quiet w →
  (0 ≤ n →
     fst (GetAndUpdateBatchesWitnessByStatus conv m b a n w) = Err DbErrNotFound
     ↔ n = 0 ∨ ¬ ∃ r, r ∈ rows (committed w) ∧ DeletedAt r = None ∧ Status r = b)
  ∧ (fst (GetAndUpdateBatchesWitnessByHeight conv m h b a w) = Err DbErrNotFound
     ↔ ¬ ∃ r, r ∈ rows (committed w) ∧ DeletedAt r = None
              ∧ Height r = h ∧ Status r = b)
  ∧ (fst (GetAndUpdateBatchesWitnessByStatus conv m b a n w) = Err DbErrNotFound →
     committed (snd (GetAndUpdateBatchesWitnessByStatus conv m b a n w)) = committed w)
  ∧ (fst (GetAndUpdateBatchesWitnessByHeight conv m h b a w) = Err DbErrNotFound →
     committed (snd (GetAndUpdateBatchesWitnessByHeight conv m h b a w)) = committed w).
Proof.
  intros Hq. rewrite ByStatus_claim, ByHeight_claim. split_and!.
  - intros Hn.
    destruct (claim_quiet conv m (claim_by_status_query m) (by_status b n) a w Hq)
      as (w' & -> & _). cbn [fst].
    rewrite run_select_by_status by done.
    rewrite claim_outcome_NotFound_Ok, take_nil_iff, candidates_nil_iff.
    split; (intros [?|?]; [left; lia|by right]).
  - destruct (claim_quiet conv m (claim_by_height_query m) (by_height h b) a w Hq)
      as (w' & -> & _). cbn [fst].
    rewrite run_select_by_height, claim_outcome_NotFound_Ok.
    rewrite merge_sort_nil_iff, filter_nil_iff.
    split; intros Hno (r & Hr); apply Hno; exists r;
      rewrite satisfies_height_status_active in *; naive_solver.
  - destruct (claim _ _ _ (by_status b n) _ w) as [res w'] eqn:H. simpl.
    intros ->. by apply claim_Err in H as (? & _).
  - destruct (claim _ _ _ (by_height h b) _ w) as [res w'] eqn:H. simpl.
    intros ->. by apply claim_Err in H as (? & _).
Qed.

Lemma NotFound_iff_nothing_selected_witness :
  quiet one_row_world
  ∧ (0 ≤ 0 →
     fst (GetAndUpdateBatchesWitnessByStatus keep_error test_model
            StatusPublished StatusReceived 0 one_row_world) = Err DbErrNotFound
     ↔ 0 = 0 ∨ ¬ ∃ r, r ∈ rows (committed one_row_world) ∧ DeletedAt r = None
                      ∧ Status r = StatusPublished).
Proof.
  assert (quiet one_row_world) as Hq by (vm_compute; constructor).
  split; [exact Hq|].
  exact (proj1 (NotFound_iff_nothing_selected keep_error test_model 5
                  StatusPublished StatusReceived 0 one_row_world Hq)).
Defined.

(** C3 as stated fails: a row that is not deleted has [beforeStatus], and
    the claim of at most 0 rows fails with [DbErrNotFound]. *)
Lemma ClaimBatch_NotFound_despite_match :
  fst (GetAndUpdateBatchesWitnessByStatus keep_error test_model
         StatusPublished StatusReceived 0 one_row_world) = Err DbErrNotFound
  ∧ ∃ r, r ∈ rows (committed one_row_world) ∧ DeletedAt r = None
         ∧ Status r = StatusPublished.
Proof.
  split; [reflexivity|].
  exists (row 1 5 StatusPublished). split; [left|done].
Qed.

(** Why the store must report no failure: no row has Received, the begin
    fails, and the error is the driver's. *)
Lemma store_failure_is_not_NotFound :
  fst (GetAndUpdateBatchesWitnessByStatus keep_error test_model
         StatusReceived StatusFinished 1
         (world [row 1 5 StatusPublished] 2 [Some (DriverError "bad connection")]))
  = Err (DriverError "bad connection").
Proof. reflexivity. Qed.




(** ** Writes outside a transaction *)

Lemma height_taken_iff h t : height_taken h t = true ↔ ∃ r, r ∈ rows t ∧ Height r = h.
Proof.
  unfold height_taken. rewrite existsb_exists. split.
  - intros (r & Hr & Hh). exists r. rewrite list_elem_of_In, <- Z.eqb_eq. done.
  - intros (r & Hr & Hh). exists r. rewrite <- list_elem_of_In, Z.eqb_eq. done.
Qed.

(** One INSERT of [CreateBatchWitness]: it fails with the oracle's error, or
    with the server's duplicate-key error when the height is taken by any
    row at all; otherwise it appends one row. *)
Lemma Exec_INSERT_inv text h d s w res w' :
  Exec text (INSERT h d s) w = (res, w') →
  match res with
  | Err e =>
      committed w' = committed w
      ∧ (head (faults w) = Some (Some e)
         ∨ e = duplicate_entry ∧ height_taken h (committed w) = true)
  | Ok _ =>
      height_taken h (committed w) = false
      ∧ ∃ r, rows (committed w') = rows (committed w) ++ [r] ∧ Height r = h
  end.
Proof.
  unfold Exec, fault. simpl.
  destruct (faults w) as [|[e|] fs]; simpl.
  - destruct (height_taken h (committed w)) eqn:Ht; intros [= <- <-]; simpl; eauto.
  - intros [= <- <-]. simpl. eauto.
  - destruct (height_taken h (committed w)) eqn:Ht; intros [= <- <-]; simpl; eauto.
Qed.

Lemma Exec_quiet text x w :
  quiet w →
  ∃ w1, quiet w1 ∧ committed w1 = committed w ∧ now w1 = now w
        ∧ Exec text x w
          = match run_exec x (now w) (committed w) with
            | Err e => (Err e, w1)
            | Ok (res, t) => (Ok res, set_committed t w1)
            end.
Proof.
  intros Hq. destruct (fault_quiet (log text w) Hq) as (w1 & Hf & Hq1 & (Hc & Hi & Hn) & Hs).
  exists w1. unfold Exec. rewrite Hf. simpl in *. rewrite Hc, Hn. done.
Qed.

Lemma fault_faults w r w' : fault w = (r, w') → faults w' = tail (faults w).
Proof.
  unfold fault. destruct (faults w) as [|[e|] fs] eqn:Hf; intros [= <- <-]; done.
Qed.

Lemma Exec_faults text x w res w' :
  Exec text x w = (res, w') → faults w' = tail (faults w).
Proof.
  unfold Exec. destruct (fault (log text w)) as [[[]|e] w1] eqn:Hf;
    apply fault_faults in Hf; simpl in Hf.
  - destruct (run_exec x (now w1) (committed w1)) as [[r t]|e];
      intros [= <- <-]; done.
  - intros [= <- <-]. done.
Qed.

Lemma CreateBatchWitness_insert_each m ws :
  CreateBatchWitness m ws = insert_each m ws.
Proof. unfold CreateBatchWitness. destruct ws; reflexivity. Qed.

(** The inserts only ever append. *)
Lemma insert_each_appends m ws w res w' :
  insert_each m ws w = (res, w') →
  ∃ added, rows (committed w') = rows (committed w) ++ added.
Proof.
  unfold insert_each. revert w. induction ws as [|x ws IH]; intros w H; simpl in H.
  - inversion H; subst. exists []. by rewrite app_nil_r.
  - apply bind_inv in H as [(e & H & ->)|([] & w1 & H & Hrest)].
    + apply bind_inv in H as [(e' & H & _)|(r & w2 & H & [=])].
      apply Exec_INSERT_inv in H as (-> & _). exists []. by rewrite app_nil_r.
    + apply bind_inv in H as [(e' & H & [=])|(r & w2 & H & [= ->])].
      apply Exec_INSERT_inv in H as (_ & r' & Hrows & _).
      apply IH in Hrest as (added & ->). rewrite Hrows, <- app_assoc. eauto.
Qed.

(** A record whose height some row has makes the inserts fail: with the
    oracle's error if the store fails first, with the duplicate-key error
    otherwise. *)
Lemma insert_each_duplicate m ws w x r :
  x ∈ ws → r ∈ rows (committed w) → Height x = Height r →
  ∃ e w', insert_each m ws w = (Err e, w')
          ∧ (In (Some e) (faults w) ∨ e = duplicate_entry)
          ∧ (quiet w → e = duplicate_entry).
Proof.
  unfold insert_each. revert w. induction ws as [|y ws IH]; intros w Hx Hr Hh.
  { by apply not_elem_of_nil in Hx. }
  simpl.
  destruct (Exec (insert_query m) (INSERT (Height y) (WitnessData y) (Status y)) w)
    as [[res|e] w1] eqn:HE; pose proof HE as HE'; apply Exec_INSERT_inv in HE'.
  - destruct HE' as (Hfree & r' & Hrows & _).
    apply elem_of_cons in Hx as [->|Hx].
    { exfalso. apply not_true_iff_false in Hfree. apply Hfree, height_taken_iff. eauto. }
    destruct (IH w1 Hx) as (e & w' & Hrest & Hfrom & Hdup); [|done|].
    { rewrite Hrows. apply elem_of_app. by left. }
    exists e, w'. erewrite bind_ok; [|by erewrite bind_ok].
    split; [done|].
    pose proof (Exec_faults _ _ _ _ _ HE) as Hfs.
    split.
    + destruct Hfrom as [Hfrom|?]; [left|by right].
      rewrite Hfs in Hfrom. destruct (faults w); [done|]. by right.
    + intros Hq. apply Hdup. unfold quiet in *. rewrite Hfs.
      destruct (faults w); [done|]. by inversion Hq.
  - destruct HE' as (_ & Hfrom).
    exists e, w1. erewrite bind_err; [|by erewrite bind_err].
    split; [done|]. split.
    + destruct Hfrom as [Hfrom|[-> _]]; [left|by right].
      destruct (faults w); [done|]. injection Hfrom as ->. by left.
    + intros Hq. destruct Hfrom as [Hfrom|[-> _]]; [|done].
      unfold quiet in Hq. destruct (faults w); [done|]. injection Hfrom as ->.
      by inversion Hq.
Qed.

(** ** The claims about the writes *)

(** C5, as the code has it.  Enqueueing a record whose height an active row
    already has fails and leaves the table as it was; the error returned is
    the error of the store itself, untranslated: the oracle's if the store
    failed, the server's duplicate-key error (a raw store value) otherwise. *)
Theorem Enqueue_duplicate_raw_error m w r x :
  r ∈ rows (committed w) → DeletedAt r = None → Height x = Height r →
  ∃ e w', CreateBatchWitness m [x] w = (Err e, w')
          ∧ committed w' = committed w
          ∧ (In (Some e) (faults w) ∨ e = duplicate_entry)
          ∧ (quiet w → e = duplicate_entry ∧ raw_store_error e = true).
Proof.
  intros Hr _ Hh. rewrite CreateBatchWitness_insert_each.
  destruct (insert_each_duplicate m [x] w x r) as (e & w' & H & Hfrom & Hdup);
    [by left|done|done|].
  exists e, w'. split_and!; [done| |done|].
  - unfold insert_each in H. simpl in H.
    apply bind_inv in H as [(e' & H & _)|([] & w1 & H & [=])].
    apply bind_inv in H as [(e'' & H & _)|(? & w2 & H & [=])].
    by apply Exec_INSERT_inv in H as (? & _).
  - intros Hq. rewrite (Hdup Hq). done.
Qed.

Lemma Enqueue_duplicate_raw_error_witness :
  row 1 5 StatusPublished ∈ rows (committed one_row_world)
  ∧ DeletedAt (row 1 5 StatusPublished) = None
  ∧ Height (row 0 5 StatusPublished) = Height (row 1 5 StatusPublished)
  ∧ ∃ e w', CreateBatchWitness test_model [row 0 5 StatusPublished] one_row_world
            = (Err e, w')
          ∧ committed w' = committed one_row_world
          ∧ (In (Some e) (faults one_row_world) ∨ e = duplicate_entry)
          ∧ (quiet one_row_world → e = duplicate_entry ∧ raw_store_error e = true).
Proof.
  assert (row 1 5 StatusPublished ∈ rows (committed one_row_world)) as Hin
    by (vm_compute; left).
  split_and!; [exact Hin|reflexivity|reflexivity|].
  exact (Enqueue_duplicate_raw_error test_model one_row_world
           (row 1 5 StatusPublished) (row 0 5 StatusPublished) Hin eq_refl eq_refl).
Defined.

(** C5 as stated fails: the error that comes back for a duplicate height is
    the driver's own value, number 1062, not a sentinel of the repository. *)
Lemma Enqueue_duplicate_escapes_raw :
  fst (CreateBatchWitness test_model [row 0 5 StatusPublished] one_row_world)
  = Err (MySQLError 1062 "Duplicate entry for key 'height'")
  ∧ raw_store_error (MySQLError 1062 "Duplicate entry for key 'height'") = true.
Proof. split; reflexivity. Qed.

(** C10. [height] is UNIQUE over every row of the table: enqueueing records
    one of which has the height of any existing row, deleted or not, fails,
    with the server's duplicate-key error unless the store failed first. *)
Theorem height_unique_over_all_rows m ws w x r :
  r ∈ rows (committed w) → x ∈ ws → Height x = Height r →
  ∃ e w', CreateBatchWitness m ws w = (Err e, w')
          ∧ (quiet w → e = duplicate_entry).
Proof.
  intros Hr Hx Hh. rewrite CreateBatchWitness_insert_each.
  destruct (insert_each_duplicate m ws w x r Hx Hr Hh) as (e & w' & H & _ & Hdup).
  eauto.
Qed.

Lemma height_unique_over_all_rows_witness :
  deleted_row ∈ rows (committed deleted_row_world)
  ∧ row 0 5 StatusPublished ∈ [row 0 5 StatusPublished]
  ∧ Height (row 0 5 StatusPublished) = Height deleted_row
  ∧ ∃ e w', CreateBatchWitness test_model [row 0 5 StatusPublished] deleted_row_world
            = (Err e, w')
          ∧ (quiet deleted_row_world → e = duplicate_entry).
Proof.
  assert (deleted_row ∈ rows (committed deleted_row_world)) as Hin
    by (vm_compute; left).
  assert (row 0 5 StatusPublished ∈ [row 0 5 StatusPublished]) as Hx by left.
  split_and!; [exact Hin|exact Hx|reflexivity|].
  exact (height_unique_over_all_rows test_model [row 0 5 StatusPublished]
           deleted_row_world (row 0 5 StatusPublished) deleted_row Hin Hx eq_refl).
Defined.

Lemma update_rows_no_match s h t rs :
  (∀ r, r ∈ rs → Height r ≠ h) → update_rows s h t rs = rs.
Proof.
  intros Hno. unfold update_rows. rewrite <- (list_fmap_id rs) at 2.
  apply list_fmap_ext. intros i r Hr. apply list_elem_of_lookup_2 in Hr.
  destruct (Z.eqb_spec (Height r) h); [by apply Hno in Hr|done].
Qed.

Lemma changed_rows_no_match s h t rs :
  (∀ r, r ∈ rs → Height r ≠ h) → changed_rows s h t rs = 0.
Proof.
  intros Hno. unfold changed_rows.
  replace (filter _ rs) with (@nil BatchWitness); [done|].
  symmetry. apply filter_nil_iff. intros (r & Hr & Hh & _). by apply Hno in Hr.
Qed.

(** C7, as the code has it.  [CreateProof] fails with [DbErrSqlOperation]
    when the store reports that its INSERT affected no row.
    [UpdateBatchWitnessStatus] does not look at the count: when no row has
    the height and the store reports no failure, the store reports 0 rows
    affected, the call succeeds and the table is as it was. *)
Theorem zero_rows_affected proofExec pm prow w res w1 :
  proofExec (prover.insert_query pm) prow w = (Ok res, w1) →
  RowsAffected res = Ok 0 →
  prover.CreateProof proofExec pm prow w = (Err DbErrSqlOperation, w1)
  ∧ ∀ m x s w2,
      quiet w2 → (∀ r, r ∈ rows (committed w2) → Height r ≠ Height x) →
      ∃ res' w3,
        Exec (updateQuery m) (UPDATE s (Height x)) w2 = (Ok res', w3)
        ∧ RowsAffected res' = Ok 0
        ∧ UpdateBatchWitnessStatus m x s w2 = (Ok (), w3)
        ∧ committed w3 = committed w2.
Proof.
  intros HE Hzero. split.
  - unfold prover.CreateProof. erewrite bind_ok; [|done].
    unfold lift. rewrite Hzero. reflexivity.
  - intros m x s w2 Hq Hno.
    destruct (Exec_quiet (updateQuery m) (UPDATE s (Height x)) w2 Hq)
      as (w3 & _ & Hc & _ & HE2).
    simpl in HE2. rewrite update_rows_no_match, changed_rows_no_match in HE2 by done.
    eexists _, _. split; [exact HE2|]. split; [done|].
    unfold UpdateBatchWitnessStatus. erewrite bind_ok; [|exact HE2].
    split; [done|]. simpl. by destruct (committed w2).
Qed.

Lemma zero_rows_affected_witness :
  Exec_no_row (prover.insert_query test_proof_model) test_proof one_row_world
  = (Ok {| LastInsertId := 0; RowsAffected := Ok 0 |},
     log (prover.insert_query test_proof_model) one_row_world)
  ∧ RowsAffected {| LastInsertId := 0; RowsAffected := Ok 0 |} = Ok 0
  ∧ prover.CreateProof Exec_no_row test_proof_model test_proof one_row_world
    = (Err DbErrSqlOperation, log (prover.insert_query test_proof_model) one_row_world).
Proof.
  split_and!; [reflexivity|reflexivity|].
  exact (proj1 (zero_rows_affected Exec_no_row test_proof_model test_proof
                  one_row_world _ _ eq_refl eq_refl)).
Defined.

(** C7 as stated fails: no row has height 9, the store reports 0 rows
    affected by the UPDATE, and [UpdateBatchWitnessStatus] succeeds. *)
Lemma UpdateStatus_no_row_succeeds :
  RowsAffected <$> (match fst (Exec (updateQuery test_model) (UPDATE StatusFinished 9)
                                 one_row_world) with
                    | Ok res => Some res
                    | Err _ => None
                    end) = Some (Ok 0)
  ∧ fst (UpdateBatchWitnessStatus test_model (row 0 9 StatusPublished) StatusFinished
           one_row_world) = Ok ().
Proof. split; reflexivity. Qed.

(** ** Listing heights *)

Lemma Query_quiet text q w :
  quiet w →
  ∃ w', Query text q w = (run_select q (rows (committed w)), w') ∧ quiet w'
        ∧ frame w w' ∧ sent w' = sent w ++ [text].
Proof.
  intros Hq. destruct (fault_quiet (log text w) Hq) as (w1 & Hf & Hq1 & (Hc & Hi & Hn) & Hs).
  unfold Query. rewrite Hf. simpl in *. rewrite Hc. eexists. done.
Qed.





(** ** The statements sent *)

Lemma sends_nothing P {A} (c : M A) :
  (∀ w, sent (snd (c w)) = sent w) → sends P c.
Proof. intros H w. exists []. rewrite app_nil_r. done. Qed.

Lemma sends_ret P {A} (a : A) : sends P (mret a : M A).
Proof. by apply sends_nothing. Qed.

Lemma sends_throw P {A} e : sends P (throw e : M A).
Proof. by apply sends_nothing. Qed.

Lemma sends_fault P : sends P fault.
Proof.
  apply sends_nothing. intros w. destruct (fault w) as [r w'] eqn:H.
  by apply fault_inv in H as [_ ?].
Qed.

Lemma sends_bind P {A B} (c : M A) (f : A → M B) :
  sends P c → (∀ a, sends P (f a)) → sends P (c ≫= f).
Proof.
  intros Hc Hf w. destruct (Hc w) as (l1 & Hl1 & HP1).
  unfold mbind, M_bind. destruct (c w) as [[a|e] w1]; simpl in *.
  - destruct (Hf a w1) as (l2 & Hl2 & HP2). exists (l1 ++ l2).
    rewrite Hl2, Hl1, app_assoc. split; [done|]. by apply Forall_app.
  - eauto.
Qed.

Lemma sends_or_return P {A} (c : M A) f : sends P c → sends P (or_return c f).
Proof.
  intros Hc w. destruct (Hc w) as (l & Hl & HP). exists l. split; [|done].
  unfold or_return. by destruct (c w) as [[a|e] w1].
Qed.

Lemma sends_one P {A} (c : M A) text :
  P text → (∀ w, sent (snd (c w)) = sent w ++ [text]) → sends P c.
Proof. intros HP H w. exists [text]. split; [done|]. by constructor. Qed.

Lemma sends_Query P text q : P text → sends P (Query text q).
Proof.
  intros HP. apply (sends_one P _ text HP). intros w. unfold Query.
  destruct (fault (log text w)) as [[[]|e] w1] eqn:Hf;
    by apply fault_inv in Hf as [_ ?].
Qed.

Lemma sends_QueryRow P text q : P text → sends P (QueryRow text q).
Proof.
  intros HP w. destruct (sends_Query P text q HP w) as (l & Hl & Hall).
  exists l. split; [|done]. unfold QueryRow.
  by destruct (Query text q w) as [[rs|e] w1].
Qed.

Lemma sends_Exec P text x : P text → sends P (Exec text x).
Proof.
  intros HP. apply (sends_one P _ text HP). intros w. unfold Exec.
  destruct (fault (log text w)) as [[[]|e] w1] eqn:Hf;
    apply fault_inv in Hf as [_ Hs]; [|done].
  by destruct (run_exec x (now w1) (committed w1)) as [[r t]|e].
Qed.

Lemma sends_tx_Query P tx text q : P text → sends P (tx_Query tx text q).
Proof.
  intros HP. apply (sends_one P _ text HP). intros w.
  destruct (tx_Query tx text q w) as [r w'] eqn:H.
  by apply tx_Query_inv in H as (_ & ? & _).
Qed.

Lemma sends_tx_Exec P tx text x : P text → sends P (tx_Exec tx text x).
Proof.
  intros HP. apply (sends_one P _ text HP). intros w. unfold tx_Exec.
  destruct (fault (log text w)) as [[[]|e] w1] eqn:Hf;
    apply fault_inv in Hf as [_ Hs]; [|done].
  destruct (in_tx w1); [|done].
  by destruct (run_exec x (now w1) t) as [[r t']|e].
Qed.

Lemma sends_BeginTransaction P : sends P BeginTransaction.
Proof.
  apply sends_nothing. intros w. destruct (BeginTransaction w) as [r w'] eqn:H.
  by apply BeginTransaction_inv in H as (_ & _ & ? & _).
Qed.

Lemma sends_defer P {A} tx (c : M A) :
  sends P c → sends P (defer_Rollback_or_Commit tx c).
Proof.
  intros Hc w. destruct (Hc w) as (l & Hl & HP). exists l. split; [|done].
  unfold defer_Rollback_or_Commit.
  destruct (c w) as [[a|e] w1]; simpl in *.
  - destruct (Commit tx w1) as [r w2] eqn:HC. simpl.
    apply Commit_inv in HC as (_ & _ & Hs & _). congruence.
  - destruct (Rollback tx w1) as [r w2] eqn:HR. simpl.
    apply Rollback_inv in HR as (_ & _ & _ & Hs). congruence.
Qed.

Lemma sends_Next P rs : sends P (Next rs).
Proof.
  apply sends_nothing. intros w. destruct (Next rs w) as [r w'] eqn:H.
  by apply Next_inv in H as (_ & ? & _).
Qed.

Lemma sends_for_rows_Next P {A} (scan : BatchWitness → M A) rs xs :
  (∀ r, sends P (scan r)) → sends P (for_rows_Next rs scan xs).
Proof.
  intros Hscan. revert xs. induction rs as [|r rs IH]; intros xs; simpl.
  - apply sends_bind; [apply sends_Next|]. intros [?|]; apply sends_ret.
  - apply sends_bind; [apply sends_Next|]. intros [r'|]; [|apply sends_ret].
    apply sends_bind; [done|]. intros x. apply IH.
Qed.

Lemma sends_for_range P {A} (l : list A) (body : A → M unit) :
  (∀ x, sends P (body x)) → sends P (for_range l body).
Proof.
  intros Hbody. induction l as [|x l IH]; simpl.
  - apply sends_ret.
  - apply sends_bind; [done|]. intros _. apply IH.
Qed.

Lemma sends_Scan P r : sends P (Scan r).
Proof. apply sends_bind; [apply sends_fault|]. intros _. apply sends_ret. Qed.

Lemma sends_ScanHeight P r : sends P (ScanHeight r).
Proof. apply sends_bind; [apply sends_fault|]. intros _. apply sends_ret. Qed.

Lemma sends_RowScan P {A} (row : Row) (scan : BatchWitness → M A) :
  (∀ r, sends P (scan r)) → sends P (RowScan row scan).
Proof.
  intros Hscan. destruct row as [[r|]|e]; simpl; [done|apply sends_throw..].
Qed.

Lemma prefix_append s t : String.prefix s (s +:+ t) = true.
Proof.
  induction s as [|a s IH]; simpl; [by destruct t|].
  destruct (Ascii.ascii_dec a a); done.
Qed.

Lemma has_hint_timeoutQuery d query : has_hint (timeoutQuery d query) = true.
Proof. apply prefix_append. Qed.

Lemma sends_claim conv m text q a :
  unhinted text → sends unhinted (claim conv m text q a).
Proof.
  intros Htext. unfold claim, claim_body, update_each.
  apply sends_bind; [apply sends_BeginTransaction|]. intros tx.
  apply sends_defer, sends_bind;
    [by apply sends_or_return, sends_tx_Query|].
  intros rs. apply sends_bind; [apply sends_for_rows_Next, sends_Scan|].
  intros ws. destruct (decide _); [apply sends_throw|].
  apply sends_bind; [|intros; apply sends_ret].
  apply sends_for_range. intros x.
  apply sends_bind; [|intros; apply sends_ret].
  by apply sends_tx_Exec.
Qed.

(** C6, as the code has it.  The reads of the witness model go through
    [QueryWithTimeout] and [QueryRowWithTimeout]: every statement they send
    starts with the execution-time hint.  The inserts of
    [CreateBatchWitness], the update of [UpdateBatchWitnessStatus] and the
    SELECT and UPDATE statements of the two claims go through [Exec],
    [tx.Query] and [tx.Exec]: none of the statements they send has it. *)
Theorem hint_on_reads_only conv m :
  sends hinted (GetLatestBatchWitnessHeight conv m)
  ∧ sends hinted (GetLatestBatchWitness conv m)
  ∧ (∀ height, sends hinted (GetBatchWitnessByHeight conv m height))
  ∧ (∀ status, sends hinted (GetLatestBatchWitnessByStatus conv m status))
  ∧ (∀ status limit offset,
       sends hinted (GetAllBatchHeightsByStatus conv m status limit offset))
  ∧ (∀ witness, sends unhinted (CreateBatchWitness m witness))
  ∧ (∀ witness status, sends unhinted (UpdateBatchWitnessStatus m witness status))
  ∧ (∀ b a n, sends unhinted (GetAndUpdateBatchesWitnessByStatus conv m b a n))
  ∧ (∀ h b a, sends unhinted (GetAndUpdateBatchesWitnessByHeight conv m h b a)).
Proof.
  assert (sends hinted (GetLatestBatchWitnessHeight conv m)) as Hlatest.
  { apply sends_bind; [apply sends_QueryRow, has_hint_timeoutQuery|].
    intros r. apply sends_or_return, sends_RowScan, sends_ScanHeight. }
  assert (∀ height, sends hinted (GetBatchWitnessByHeight conv m height)) as Hby.
  { intros height. apply sends_bind; [apply sends_QueryRow, has_hint_timeoutQuery|].
    intros r. apply sends_or_return, sends_RowScan, sends_Scan. }
  split_and!.
  - done.
  - apply sends_bind; [apply sends_QueryRow, has_hint_timeoutQuery|].
    intros r. apply sends_bind; [|done].
    apply sends_or_return, sends_RowScan, sends_ScanHeight.
  - done.
  - intros status. apply sends_bind; [apply sends_QueryRow, has_hint_timeoutQuery|].
    intros r. apply sends_or_return, sends_RowScan, sends_Scan.
  - intros status limit offset.
    apply sends_bind; [apply sends_or_return, sends_Query, has_hint_timeoutQuery|].
    intros rs. apply sends_bind; [apply sends_for_rows_Next, sends_ScanHeight|].
    intros hs. destruct (decide _); [apply sends_throw|apply sends_ret].
  - intros witness. rewrite CreateBatchWitness_insert_each.
    apply sends_for_range. intros x.
    apply sends_bind; [|intros; apply sends_ret].
    by apply sends_Exec.
  - intros witness status.
    apply sends_bind; [|intros; apply sends_ret].
    by apply sends_Exec.
  - intros b a n. rewrite ByStatus_claim. by apply sends_claim.
  - intros h b a. rewrite ByHeight_claim. by apply sends_claim.
Qed.

(** C6 as stated fails: the INSERT that [CreateBatchWitness] sends does not
    start with the hint. *)
Lemma Enqueue_sends_no_hint :
  sent (snd (CreateBatchWitness test_model [row 0 5 StatusPublished] (world [] 1 [])))
  = ["INSERT INTO witness (height, witness_data, status, created_at, updated_at) VALUES (?, ?, ?, NOW(), NOW())"]
  ∧ has_hint "INSERT INTO witness (height, witness_data, status, created_at, updated_at) VALUES (?, ?, ?, NOW(), NOW())" = false.
Proof. split; reflexivity. Qed.

(** ** Calls issued concurrently *)

Lemma elem_of_others_hold i ss h :
  h ∈ others_hold i ss ↔
  ∃ j s, j ≠ i ∧ ss !! j = Some s ∧ h ∈ Height <$> locked s.
Proof.
  unfold others_hold. rewrite list_elem_of_join. split.
  - intros (l & Hh & Hl). apply elem_of_lookup_imap in Hl as (j & s & -> & Hs).
    destruct (decide (j = i)); [by apply not_elem_of_nil in Hh|]. eauto.
  - intros (j & s & Hne & Hs & Hh).
    exists (Height <$> locked s). split; [done|].
    apply elem_of_lookup_imap. exists j, s. by rewrite decide_False.
Qed.

Section ConcurrentProperties.

Variable conv : error → error.
Variables b a : Z.
Variable clock : Time.
Hypothesis b_ne_a : b ≠ a.

(** The rows the table started with. *)
Variable t0 : list BatchWitness.










End ConcurrentProperties.




(** ** One session is the call

    A session that runs alone goes through the round trips of
    [GetAndUpdateBatchesWitnessByStatus]: whatever the store does to the
    call, there is a run of the session, with the failures of the store as
    its labels, that returns what the function returns and leaves the rows
    the function leaves. *)

Lemma for_rows_Next_Err {A} (scan : BatchWitness → M A) rs xs w e w' :
  for_rows_Next rs scan xs w = (Err e, w') → rs ≠ [].
Proof.
  intros H ->. simpl in H.
  apply bind_inv in H as [(e' & H & _)|(o & w1 & H & H1)].
  - by apply Next_inv in H as (_ & _ & [?|?]).
  - by destruct o.
Qed.

Lemma update_each_Err m tx a ws w e w' :
  update_each m tx a ws w = (Err e, w') → ws ≠ [].
Proof. by intros H ->. Qed.

(** How the body of a claim fails: with a converted error, before any row
    is read; with an error as it is, once the SELECT has returned a row;
    or with [DbErrNotFound]. *)
Lemma claim_body_Err conv m tx text q a w t e w' :
  claim_body conv m tx text q a w = (Err e, w') → in_tx w = Some t →
  (∃ e0, e = conv e0)
  ∨ (∃ rs, run_select q (rows t) = Ok rs ∧ rs ≠ [])
  ∨ (e = DbErrNotFound ∧ ∃ rs, run_select q (rows t) = Ok rs).
Proof.
  unfold claim_body. intros H Ht.
  apply bind_inv in H as [(e1 & H & [= ->])|(rs & w1 & H & H1)].
  { apply or_return_inv in H as [(? & _ & [=])|(e0 & _ & [= ->])]. left. eauto. }
  apply or_return_inv in H as [(? & H & [= <-])|(e' & H & [=])].
  apply tx_Query_inv in H as (_ & _ & Hsel).
  destruct (Hsel _ eq_refl) as (t' & Ht' & Hrun).
  rewrite Ht in Ht'. injection Ht' as <-.
  apply bind_inv in H1 as [(e1 & H1 & [= ->])|(ws & w2 & H1 & H2)].
  { apply for_rows_Next_Err in H1. right. left. eauto. }
  apply (for_rows_Next_inv Scan id Scan_inv) in H1 as (_ & _ & Hws).
  destruct (Hws _ eq_refl) as (k & Hk). simpl in Hk. rewrite list_fmap_id in Hk.
  destruct (decide (length ws = 0%nat)) as [Hlen|Hlen].
  { injection H2 as <- _. right. right. eauto. }
  apply bind_inv in H2 as [(e1 & H2 & [= ->])|([] & w3 & _ & [=])].
  right. left. exists rs. split; [done|]. intros ->. subst ws. by rewrite take_nil in Hlen.
Qed.

Lemma alone_updates conv b a clock n held ws todo rs :
  run conv b a clock (replicate (length todo) (Act 0)) (alone n (AtUpdate held ws todo) rs)
  = Some (alone n (AtUpdate held ws []) rs).
Proof.
  induction todo as [|w todo IH]; simpl; [done|]. exact IH.
Qed.

Lemma alone_no_lock n p rs (ws : list BatchWitness) :
  Forall (λ r, Height r ∉ others_hold 0 (sessions (alone n p rs))) ws.
Proof.
  apply Forall_forall. intros r _ (j & s & Hne & Hs & _)%elem_of_others_hold.
  destruct j; [done|]. simpl in Hs. by rewrite lookup_nil in Hs.
Qed.

Lemma run_app conv b a clock l1 l2 c c1 :
  run conv b a clock l1 c = Some c1 →
  run conv b a clock (l1 ++ l2) c = run conv b a clock l2 c1.
Proof.
  revert c. induction l1 as [|l l1 IH]; intros c; simpl; [by intros [= <-]|].
  destruct (step conv b a clock l c); [apply IH|done].
Qed.

(** Begin and the SELECT, which locks what it returns. *)
Lemma alone_select conv b a clock n t rs :
  run_select (by_status b n) t = Ok rs →
  run conv b a clock [Act 0; Act 0]%nat (alone n AtBegin t)
  = Some (alone n (AtScan rs rs) t).
Proof.
  intros Hsel. simpl. unfold step, act. simpl. rewrite Hsel.
  rewrite decide_True by apply (alone_no_lock n AtQuery t). done.
Qed.

(** The reading of the rows, to the end or cut short after [k] rows. *)
Lemma alone_scan conv b a clock n t rs k :
  run conv b a clock [if decide (k < length rs)%nat then Cut 0 k else Act 0]
    (alone n (AtScan rs rs) t)
  = Some (alone n (if decide (length (take k rs) = 0%nat)
                   then Returned (Err DbErrNotFound)
                   else AtUpdate rs (take k rs) (take k rs)) t).
Proof.
  destruct (decide (k < length rs)%nat) as [Hk|Hk]; simpl; unfold step; simpl.
  - unfold cut. simpl. rewrite decide_True by done. by destruct (decide _).
  - unfold act. simpl. rewrite take_ge by lia. by destruct (decide _).
Qed.

Lemma one_session_is_the_call conv m b a n w :
  ∃ ls c,
    run conv b a (now w) ls (issued (rows (committed w)) [n]) = Some c
    ∧ returned c 0 = Some (fst (GetAndUpdateBatchesWitnessByStatus conv m b a n w))
    ∧ store c = rows (committed (snd (GetAndUpdateBatchesWitnessByStatus conv m b a n w))).
Proof.
  rewrite ByStatus_claim.
  change (issued (rows (committed w)) [n]) with (alone n AtBegin (rows (committed w))).
  destruct (claim conv m (claim_by_status_query m) (by_status b n) a w) as [res w'] eqn:Hcall.
  cbn [fst snd]. destruct res as [ws|e].
  - (* the call returns records *)
    pose proof Hcall as Hcall'.
    apply claim_Ok in Hcall' as (Hne & (rs & k & Hsel & Hk) & Hc & _).
    assert (length (take k rs) ≠ 0%nat) as Hlen by (rewrite <- Hk; by destruct ws).
    assert (run conv b a (now w)
              ([Act 0; Act 0]%nat
               ++ [if decide (k < length rs)%nat then Cut 0 k else Act 0]
               ++ replicate (length ws) (Act 0))
              (alone n AtBegin (rows (committed w)))
            = Some (alone n (AtUpdate rs ws []) (rows (committed w)))) as Hrun.
    { rewrite (run_app _ _ _ _ _ _ _ _ (alone_select conv b a (now w) n _ _ Hsel)).
      rewrite (run_app _ _ _ _ _ _ _ _ (alone_scan conv b a (now w) n _ rs k)).
      rewrite decide_False by done. rewrite <- Hk. apply alone_updates. }
    destruct Hc as [Hc|Hc].
    + eexists (_ ++ [Act 0]%nat), _. rewrite (run_app _ _ _ _ _ _ _ _ Hrun).
      split; [reflexivity|]. rewrite Hc. done.
    + eexists (_ ++ [Fail 0 ErrTxDone]%nat), _. rewrite (run_app _ _ _ _ _ _ _ _ Hrun).
      split; [reflexivity|]. rewrite Hc. done.
  - (* the call fails *)
    pose proof Hcall as Hcall'. apply claim_Err in Hcall' as (Hc & _). rewrite Hc.
    unfold claim in Hcall.
    apply bind_inv in Hcall as [(e' & H & [= ->])|(tx & w1 & H & H1)].
    { exists [Fail 0 e']%nat. eexists. split; [reflexivity|done]. }
    apply BeginTransaction_inv in H as (_ & _ & _ & Ht).
    unfold defer_Rollback_or_Commit in H1.
    destruct (claim_body conv m tx (claim_by_status_query m) (by_status b n) a w1)
      as [[ws'|e'] w2] eqn:Hb; [done|].
    injection H1 as -> _.
    apply (claim_body_Err _ _ _ _ _ _ _ _ _ _ Hb) in Ht
      as [(e0 & ->)|[(rs & Hsel & Hrs)|(-> & rs & Hsel)]].
    + exists [Act 0; Fail 0 e0]%nat. eexists. split; [reflexivity|done].
    + eexists (_ ++ [Fail 0 e]%nat), _.
      rewrite (run_app _ _ _ _ _ _ _ _ (alone_select conv b a (now w) n _ _ Hsel)).
      destruct rs; [done|]. split; [reflexivity|done].
    + eexists (_ ++ [if decide (0 < length rs)%nat then Cut 0 0 else Act 0]), _.
      rewrite (run_app _ _ _ _ _ _ _ _ (alone_select conv b a (now w) n _ _ Hsel)).
      rewrite (alone_scan conv b a (now w) n _ rs 0). split; [reflexivity|done].
Qed.

(** * Further properties *)

(** ** Reads *)

Lemma reads_only_ret {A} (a : A) : reads_only (mret a : M A).
Proof. intros w. apply frame_refl. Qed.

Lemma reads_only_throw {A} e : reads_only (throw e : M A).
Proof. intros w. apply frame_refl. Qed.

Lemma reads_only_fault : reads_only fault.
Proof. intros w. destruct (fault w) as [r w'] eqn:H. by apply fault_inv in H as [? _]. Qed.

Lemma reads_only_bind {A B} (c : M A) (f : A → M B) :
  reads_only c → (∀ a, reads_only (f a)) → reads_only (c ≫= f).
Proof.
  intros Hc Hf w. specialize (Hc w). unfold mbind, M_bind.
  destruct (c w) as [[x|e] w1]; simpl in *; [|done].
  eapply frame_trans; [done|]. apply Hf.
Qed.

Lemma reads_only_or_return {A} (c : M A) f : reads_only c → reads_only (or_return c f).
Proof.
  intros Hc w. specialize (Hc w). unfold or_return. by destruct (c w) as [[x|e] w1].
Qed.

Lemma reads_only_Query text q : reads_only (Query text q).
Proof.
  intros w. unfold Query. destruct (fault (log text w)) as [[[]|e] w1] eqn:Hf;
    by apply fault_inv in Hf as [? _].
Qed.

Lemma reads_only_QueryRow text q : reads_only (QueryRow text q).
Proof.
  intros w. pose proof (reads_only_Query text q w) as H. unfold QueryRow.
  by destruct (Query text q w) as [[rs|e] w1].
Qed.

Lemma reads_only_Scan r : reads_only (Scan r).
Proof. apply reads_only_bind; [apply reads_only_fault|]. intros _. apply reads_only_ret. Qed.

Lemma reads_only_ScanHeight r : reads_only (ScanHeight r).
Proof. apply reads_only_bind; [apply reads_only_fault|]. intros _. apply reads_only_ret. Qed.

Lemma reads_only_RowScan {A} (row : Row) (scan : BatchWitness → M A) :
  (∀ r, reads_only (scan r)) → reads_only (RowScan row scan).
Proof. intros H. destruct row as [[r|]|e]; simpl; [done|apply reads_only_throw..]. Qed.

Lemma reads_only_for_rows_Next {A} (scan : BatchWitness → M A) rs xs :
  (∀ r, reads_only (scan r)) → reads_only (for_rows_Next rs scan xs).
Proof.
  intros Hscan.
  assert (∀ l, reads_only (Next l)) as HNext.
  { intros l w. destruct (Next l w) as [r w'] eqn:H. by apply Next_inv in H as [? _]. }
  revert xs. induction rs as [|r rs IH]; intros xs; simpl.
  - apply reads_only_bind; [done|]. intros [?|]; apply reads_only_ret.
  - apply reads_only_bind; [done|]. intros [r'|]; [|apply reads_only_ret].
    apply reads_only_bind; [done|]. intros x. apply IH.
Qed.

Lemma reads_only_GetBatchWitnessByHeight conv m h :
  reads_only (GetBatchWitnessByHeight conv m h).
Proof.
  apply reads_only_bind; [apply reads_only_QueryRow|]. intros r.
  apply reads_only_or_return, reads_only_RowScan, reads_only_Scan.
Qed.

(** X1. The five reads of the witness model never change a row, whatever
    the store's failures: the committed table, the transaction in progress
    and the clock are after the call what they were before. *)
Theorem reads_change_nothing conv m :
  reads_only (GetLatestBatchWitnessHeight conv m)
  ∧ reads_only (GetLatestBatchWitness conv m)
  ∧ (∀ height, reads_only (GetBatchWitnessByHeight conv m height))
  ∧ (∀ status, reads_only (GetLatestBatchWitnessByStatus conv m status))
  ∧ (∀ status limit offset,
       reads_only (GetAllBatchHeightsByStatus conv m status limit offset)).
Proof.
  split_and!.
  - apply reads_only_bind; [apply reads_only_QueryRow|]. intros r.
    apply reads_only_or_return, reads_only_RowScan, reads_only_ScanHeight.
  - apply reads_only_bind; [apply reads_only_QueryRow|]. intros r.
    apply reads_only_bind;
      [apply reads_only_or_return, reads_only_RowScan, reads_only_ScanHeight|].
    intros h. apply reads_only_GetBatchWitnessByHeight.
  - apply reads_only_GetBatchWitnessByHeight.
  - intros status. apply reads_only_bind; [apply reads_only_QueryRow|]. intros r.
    apply reads_only_or_return, reads_only_RowScan, reads_only_Scan.
  - intros status limit offset.
    apply reads_only_bind; [apply reads_only_or_return, reads_only_Query|].
    intros rs. apply reads_only_bind; [apply reads_only_for_rows_Next, reads_only_ScanHeight|].
    intros hs. destruct (decide _); [apply reads_only_throw|apply reads_only_ret].
Qed.

(** A [QueryRow] and its [Scan], while the store reports no failure. *)
Lemma QueryRow_quiet text q w :
  quiet w →
  ∃ w', QueryRow text q w
        = (Ok (match run_select q (rows (committed w)) with
               | Ok rs => Ok (head rs)
               | Err e => Err e
               end), w')
        ∧ quiet w' ∧ frame w w'.
Proof.
  intros Hq. destruct (Query_quiet text q w Hq) as (w' & H & Hq' & Hf & _).
  exists w'. unfold QueryRow. rewrite H.
  by destruct (run_select q (rows (committed w))).
Qed.

(** The one row of a query of at most one row, or [DbErrNotFound]. *)
Lemma scan_first conv {A} (scan : BatchWitness → M A) (f : BatchWitness → A) rs w :
  (∀ r w, quiet w → ∃ w', scan r w = (Ok (f r), w') ∧ quiet w' ∧ frame w w' ∧ sent w' = sent w) →
  quiet w →
  ∃ w', or_return (RowScan (Ok (head rs)) scan) (not_found_or_converted conv) w
        = (match head rs with Some r => Ok (f r) | None => Err DbErrNotFound end, w')
        ∧ quiet w' ∧ frame w w'.
Proof.
  intros Hscan Hq. destruct (head rs) as [r|]; simpl.
  - destruct (Hscan r w Hq) as (w' & H & Hq' & Hf & _). exists w'.
    split; [by apply or_return_ok|done].
  - exists w. split; [reflexivity|done].
Qed.

Lemma head_merge_sort_max (l : list BatchWitness) :
  match head (merge_sort height_ge l) with
  | Some r => r ∈ l ∧ ∀ r', r' ∈ l → Height r' ≤ Height r
  | None => l = []
  end.
Proof.
  pose proof (StronglySorted_merge_sort height_ge l) as Hsorted.
  pose proof (merge_sort_Permutation height_ge l) as Hperm.
  destruct (merge_sort height_ge l) as [|r l'] eqn:Hl; simpl.
  - by apply Permutation_nil_l in Hperm.
  - split; [rewrite <- Hperm; left|].
    intros r' Hr'. rewrite <- Hperm in Hr'.
    apply StronglySorted_inv in Hsorted as [_ Hall].
    apply elem_of_cons in Hr' as [->|Hr']; [lia|].
    rewrite Forall_forall in Hall. by apply Hall.
Qed.

Lemma satisfies_active r : satisfies [DeletedAtIsNull] r ↔ active r.
Proof. unfold satisfies, active; simpl. destruct (DeletedAt r); naive_solver. Qed.

Lemma satisfies_height_active h r :
  satisfies [HeightEq h; DeletedAtIsNull] r ↔ Height r = h ∧ active r.
Proof.
  unfold satisfies, active; simpl. rewrite !andb_true_iff, Z.eqb_eq.
  destruct (DeletedAt r); naive_solver.
Qed.

Lemma head_filter {A} (P : A → Prop) `{∀ x, Decision (P x)} (l : list A) :
  match head (filter P l) with
  | Some x => x ∈ l ∧ P x
  | None => ∀ x, x ∈ l → ¬ P x
  end.
Proof.
  destruct (filter P l) as [|x l'] eqn:Hl; simpl.
  - intros x Hx HP. apply filter_nil_iff in Hl. apply Hl. eauto.
  - assert (x ∈ filter P l) as Hin by (rewrite Hl; left).
    by apply list_elem_of_filter in Hin as [? ?].
Qed.

Lemma head_take_1 {A} (l : list A) : head (take 1 l) = head l.
Proof. by destruct l. Qed.

Lemma latest_height_quiet conv m w :
  quiet w →
  ∃ w', GetLatestBatchWitnessHeight conv m w
        = (match head (merge_sort height_ge
                         (filter (satisfies [DeletedAtIsNull]) (rows (committed w)))) with
           | Some r => Ok (Height r)
           | None => Err DbErrNotFound
           end, w')
        ∧ quiet w' ∧ frame w w'.
Proof.
  intros Hq. unfold GetLatestBatchWitnessHeight, QueryRowWithTimeout.
  destruct (QueryRow_quiet (timeoutQuery (db m) (latest_height_query m))
              (SELECT [DeletedAtIsNull] (Some DESC) (Some 1) None false) w Hq)
    as (w1 & H1 & Hq1 & Hf1).
  erewrite bind_ok; [|exact H1]. unfold run_select. simpl.
  change (Pos.to_nat 1) with 1%nat. rewrite head_take_1.
  destruct (scan_first conv ScanHeight Height
              (merge_sort height_ge (filter (satisfies [DeletedAtIsNull]) (rows (committed w))))
              w1 ScanHeight_quiet Hq1) as (w2 & H2 & Hq2 & Hf2).
  exists w2. split; [exact H2|]. split; [done|]. by eapply frame_trans.
Qed.

Lemma by_height_quiet conv m h w :
  quiet w →
  ∃ w', GetBatchWitnessByHeight conv m h w
        = (match head (filter (satisfies [HeightEq h; DeletedAtIsNull])
                         (rows (committed w))) with
           | Some r => Ok r
           | None => Err DbErrNotFound
           end, w')
        ∧ quiet w' ∧ frame w w'.
Proof.
  intros Hq. unfold GetBatchWitnessByHeight, QueryRowWithTimeout.
  destruct (QueryRow_quiet (timeoutQuery (db m) (by_height_query m))
              (SELECT [HeightEq h; DeletedAtIsNull] None (Some 1) None false) w Hq)
    as (w1 & H1 & Hq1 & Hf1).
  erewrite bind_ok; [|exact H1]. unfold run_select. simpl.
  change (Pos.to_nat 1) with 1%nat. rewrite head_take_1.
  destruct (scan_first conv Scan id
              (filter (satisfies [HeightEq h; DeletedAtIsNull]) (rows (committed w)))
              w1 Scan_quiet Hq1) as (w2 & H2 & Hq2 & Hf2).
  exists w2. split; [exact H2|]. split; [done|]. by eapply frame_trans.
Qed.

(** X2. While the store reports no failure, [GetLatestBatchWitnessHeight]
    returns the greatest height of the rows that are not deleted, and fails
    with [DbErrNotFound] exactly when every row is deleted or there is none. *)
Theorem LatestHeight_is_greatest conv m w :
  quiet w →
  match fst (GetLatestBatchWitnessHeight conv m w) with
  | Ok h =>
      (∃ r, r ∈ rows (committed w) ∧ active r ∧ Height r = h)
      ∧ ∀ r, r ∈ rows (committed w) → active r → Height r ≤ h
  | Err e => e = DbErrNotFound ∧ ∀ r, r ∈ rows (committed w) → ¬ active r
  end.
Proof.
  intros Hq. destruct (latest_height_quiet conv m w Hq) as (w' & -> & _). cbn [fst].
  pose proof (head_merge_sort_max
                (filter (satisfies [DeletedAtIsNull]) (rows (committed w)))) as Hmax.
  destruct (head _) as [r|].
  - destruct Hmax as (Hr & Hmax). apply list_elem_of_filter in Hr as (Hact & Hr).
    apply satisfies_active in Hact. split; [eauto|].
    intros r' Hr' Hact'. apply Hmax, list_elem_of_filter.
    by rewrite satisfies_active.
  - split; [done|]. intros r Hr Hact.
    assert (r ∈ filter (satisfies [DeletedAtIsNull]) (rows (committed w))) as Hin
      by (apply list_elem_of_filter; by rewrite satisfies_active).
    rewrite Hmax in Hin. by apply not_elem_of_nil in Hin.
Qed.

Lemma LatestHeight_is_greatest_witness :
  quiet example_world
  ∧ match fst (GetLatestBatchWitnessHeight keep_error test_model example_world) with
    | Ok h =>
        (∃ r, r ∈ rows (committed example_world) ∧ active r ∧ Height r = h)
        ∧ ∀ r, r ∈ rows (committed example_world) → active r → Height r ≤ h
    | Err e => e = DbErrNotFound ∧ ∀ r, r ∈ rows (committed example_world) → ¬ active r
    end.
Proof.
  assert (quiet example_world) as Hq by (vm_compute; constructor).
  split; [exact Hq|].
  exact (LatestHeight_is_greatest keep_error test_model example_world Hq).
Defined.

(** X3. While the store reports no failure, [GetBatchWitnessByHeight]
    returns a row of the table that has the height and is not deleted, and
    fails with [DbErrNotFound] exactly when there is no such row: a
    soft-deleted row is not found. *)
Theorem GetByHeight_finds_active_row conv m h w :
  quiet w →
  match fst (GetBatchWitnessByHeight conv m h w) with
  | Ok r => r ∈ rows (committed w) ∧ Height r = h ∧ active r
  | Err e =>
      e = DbErrNotFound
      ∧ ∀ r, r ∈ rows (committed w) → Height r = h → ¬ active r
  end.
Proof.
  intros Hq. destruct (by_height_quiet conv m h w Hq) as (w' & -> & _). cbn [fst].
  pose proof (head_filter (satisfies [HeightEq h; DeletedAtIsNull])
                (rows (committed w))) as Hhead.
  destruct (head _) as [r|].
  - destruct Hhead as (Hr & Hsat). apply satisfies_height_active in Hsat. naive_solver.
  - split; [done|]. intros r Hr Hh Hact. apply (Hhead r Hr).
    by apply satisfies_height_active.
Qed.

Lemma GetByHeight_finds_active_row_witness :
  quiet deleted_row_world
  ∧ match fst (GetBatchWitnessByHeight keep_error test_model 5 deleted_row_world) with
    | Ok r => r ∈ rows (committed deleted_row_world) ∧ Height r = 5 ∧ active r
    | Err e =>
        e = DbErrNotFound
        ∧ ∀ r, r ∈ rows (committed deleted_row_world) → Height r = 5 → ¬ active r
    end.
Proof.
  assert (quiet deleted_row_world) as Hq by (vm_compute; constructor).
  split; [exact Hq|].
  exact (GetByHeight_finds_active_row keep_error test_model 5 deleted_row_world Hq).
Defined.

Lemma bind_assoc {A B C} (c : M A) (f : A → M B) (g : B → M C) w :
  ((c ≫= f) ≫= g) w = (c ≫= (λ x, f x ≫= g)) w.
Proof. unfold mbind, M_bind. by destruct (c w) as [[x|e] w1]. Qed.

Lemma GetLatestBatchWitness_two_queries conv m w :
  GetLatestBatchWitness conv m w
  = (GetLatestBatchWitnessHeight conv m ≫= GetBatchWitnessByHeight conv m) w.
Proof. symmetry. apply bind_assoc. Qed.

(** X4. While the store reports no failure, [GetLatestBatchWitness]
    returns a row that is not deleted and whose height no row that is not
    deleted exceeds; it fails, with [DbErrNotFound], only when there is no
    row that is not deleted: its second query always finds the height its
    first query returned. *)
Theorem GetLatest_is_highest_active_row conv m w :
  quiet w →
  match fst (GetLatestBatchWitness conv m w) with
  | Ok r =>
      r ∈ rows (committed w) ∧ active r
      ∧ ∀ r', r' ∈ rows (committed w) → active r' → Height r' ≤ Height r
  | Err e => e = DbErrNotFound ∧ ∀ r, r ∈ rows (committed w) → ¬ active r
  end.
Proof.
  intros Hq. rewrite GetLatestBatchWitness_two_queries.
  destruct (latest_height_quiet conv m w Hq) as (w1 & H1 & Hq1 & (Hc1 & _ & _)).
  pose proof (head_merge_sort_max
                (filter (satisfies [DeletedAtIsNull]) (rows (committed w)))) as Hmax.
  destruct (head _) as [r0|].
  - destruct Hmax as (Hr0 & Hmax). apply list_elem_of_filter in Hr0 as (Hact0 & Hr0).
    apply satisfies_active in Hact0.
    erewrite bind_ok; [|exact H1].
    destruct (by_height_quiet conv m (Height r0) w1 Hq1) as (w2 & -> & _). cbn [fst].
    rewrite Hc1.
    pose proof (head_filter (satisfies [HeightEq (Height r0); DeletedAtIsNull])
                  (rows (committed w))) as Hhead.
    destruct (head _) as [r|].
    + destruct Hhead as (Hr & (Hh & Hact)%satisfies_height_active).
      split_and!; [done..|]. intros r' Hr' Hact'. rewrite Hh.
      apply Hmax, list_elem_of_filter. by rewrite satisfies_active.
    + exfalso. apply (Hhead r0 Hr0). by apply satisfies_height_active.
  - erewrite bind_err; [|exact H1]. cbn [fst]. split; [done|].
    intros r Hr Hact.
    assert (r ∈ filter (satisfies [DeletedAtIsNull]) (rows (committed w))) as Hin
      by (apply list_elem_of_filter; by rewrite satisfies_active).
    rewrite Hmax in Hin. by apply not_elem_of_nil in Hin.
Qed.

Lemma GetLatest_is_highest_active_row_witness :
  quiet example_world
  ∧ match fst (GetLatestBatchWitness keep_error test_model example_world) with
    | Ok r =>
        r ∈ rows (committed example_world) ∧ active r
        ∧ ∀ r', r' ∈ rows (committed example_world) → active r' → Height r' ≤ Height r
    | Err e => e = DbErrNotFound ∧ ∀ r, r ∈ rows (committed example_world) → ¬ active r
    end.
Proof.
  assert (quiet example_world) as Hq by (vm_compute; constructor).
  split; [exact Hq|].
  exact (GetLatest_is_highest_active_row keep_error test_model example_world Hq).
Defined.

(** X5. While the store reports no failure, [GetLatestBatchWitnessByStatus]
    returns a row of the table that has the status and is not deleted, and
    fails with [DbErrNotFound] exactly when there is no such row. *)
Theorem GetLatestByStatus_finds_active_row conv m s w :
  quiet w →
  match fst (GetLatestBatchWitnessByStatus conv m s w) with
  | Ok r => r ∈ rows (committed w) ∧ Status r = s ∧ active r
  | Err e =>
      e = DbErrNotFound
      ∧ ∀ r, r ∈ rows (committed w) → Status r = s → ¬ active r
  end.
Proof.
  intros Hq.
  assert (∃ w2, GetLatestBatchWitnessByStatus conv m s w
                = (match head (filter (satisfies [StatusEq s; DeletedAtIsNull])
                                 (rows (committed w))) with
                   | Some r => Ok r
                   | None => Err DbErrNotFound
                   end, w2)) as (w2 & ->).
  { unfold GetLatestBatchWitnessByStatus, QueryRowWithTimeout.
    destruct (QueryRow_quiet (timeoutQuery (db m) (latest_by_status_query m))
                (SELECT [StatusEq s; DeletedAtIsNull] None (Some 1) None false) w Hq)
      as (w1 & H1 & Hq1 & Hf1).
    erewrite bind_ok; [|exact H1]. unfold run_select. simpl.
    change (Pos.to_nat 1) with 1%nat. rewrite head_take_1.
    destruct (scan_first conv Scan id
                (filter (satisfies [StatusEq s; DeletedAtIsNull]) (rows (committed w)))
                w1 Scan_quiet Hq1) as (w2 & H2 & _).
    exists w2. exact H2. }
  cbn [fst].
  pose proof (head_filter (satisfies [StatusEq s; DeletedAtIsNull])
                (rows (committed w))) as Hhead.
  destruct (head _) as [r|].
  - destruct Hhead as (Hr & (Hs & Hact)%satisfies_status_active). done.
  - split; [done|]. intros r Hr Hs Hact. apply (Hhead r Hr).
    by apply satisfies_status_active.
Qed.

Lemma GetLatestByStatus_finds_active_row_witness :
  quiet example_world
  ∧ match fst (GetLatestBatchWitnessByStatus keep_error test_model StatusReceived
                 example_world) with
    | Ok r => r ∈ rows (committed example_world) ∧ Status r = StatusReceived ∧ active r
    | Err e =>
        e = DbErrNotFound
        ∧ ∀ r, r ∈ rows (committed example_world) → Status r = StatusReceived → ¬ active r
    end.
Proof.
  assert (quiet example_world) as Hq by (vm_compute; constructor).
  split; [exact Hq|].
  exact (GetLatestByStatus_finds_active_row keep_error test_model StatusReceived
           example_world Hq).
Defined.

(** ** Writes *)

Lemma Exec_inv text x w res w' :
  Exec text x w = (res, w') →
  now w' = now w ∧ in_tx w' = in_tx w
  ∧ match res with
    | Ok r => run_exec x (now w) (committed w) = Ok (r, committed w')
    | Err _ => committed w' = committed w
    end.
Proof.
  unfold Exec. destruct (fault (log text w)) as [[[]|e] w1] eqn:Hf;
    apply fault_inv in Hf as ((Hc & Hi & Hn) & _); simpl in *.
  - rewrite Hc, Hn. destruct (run_exec x (now w) (committed w)) as [[r t]|e];
      intros [= <- <-]; simpl; done.
  - intros [= <- <-]. done.
Qed.

Lemma inserted_app from clock xs ys :
  inserted from clock (xs ++ ys)
  = inserted from clock xs ++ inserted (from + Z.of_nat (length xs)) clock ys.
Proof.
  revert from. induction xs as [|x xs IH]; intros from; simpl.
  - by rewrite Z.add_0_r.
  - rewrite IH. do 3 f_equal. lia.
Qed.

Lemma inserted_heights from clock xs :
  Height <$> inserted from clock xs = Height <$> xs.
Proof. revert from. induction xs as [|x xs IH]; intros from; simpl; by f_equal. Qed.

(** The records of [CreateBatchWitness] go in one by one, each on its own:
    whatever happens, what is in the table afterwards is what was there
    plus the rows of the first [k] records. *)
Lemma insert_each_prefix m xs w res w' :
  insert_each m xs w = (res, w') →
  ∃ k, (k ≤ length xs)%nat
       ∧ rows (committed w')
         = rows (committed w) ++ inserted (auto_increment (committed w)) (now w) (take k xs)
       ∧ auto_increment (committed w') = auto_increment (committed w) + Z.of_nat k
       ∧ now w' = now w
       ∧ (∀ x r, x ∈ take k xs → r ∈ rows (committed w) → Height r ≠ Height x)
       ∧ NoDup (Height <$> take k xs)
       ∧ match res with Ok _ => k = length xs | Err _ => (k < length xs)%nat end.
Proof.
  unfold insert_each. revert w. induction xs as [|x xs IH]; intros w H; simpl in H.
  - inversion H; subst. exists 0%nat. simpl. rewrite app_nil_r, Z.add_0_r.
    split_and!; try done. + intros ? ? ?%not_elem_of_nil. done. + constructor.
  - apply bind_inv in H as [(e & H & ->)|([] & w1 & H & Hrest)].
    + apply bind_inv in H as [(e' & H & _)|(r & w2 & H & [=])].
      apply Exec_inv in H as (Hn & _ & Hc). exists 0%nat. simpl.
      rewrite app_nil_r, Z.add_0_r, Hc. split_and!; try done; try lia.
      * intros ? ? ?%not_elem_of_nil. done.
      * constructor.
    + apply bind_inv in H as [(e' & H & [=])|(r & w2 & H & [= ->])].
      apply Exec_inv in H as (Hn & _ & Hrun). simpl in Hrun.
      destruct (height_taken (Height x) (committed w)) eqn:Hfree; [done|].
      injection Hrun as _ Hc.
      apply IH in Hrest as (k & Hk & Hrows & Hauto & Hn' & Hfresh & Hnodup & Hres).
      rewrite <- Hc in Hrows, Hauto, Hfresh. simpl in Hrows, Hauto, Hfresh.
      exists (S k). simpl. rewrite Hrows, Hauto, Hn', Hn, <- app_assoc. simpl.
      assert (∀ r, r ∈ rows (committed w) → Height r ≠ Height x) as Hx.
      { intros r0 Hr0 Heq. apply not_true_iff_false in Hfree. apply Hfree.
        apply height_taken_iff. eauto. }
      split_and!; try done; try lia.
      * intros y r0 [->|Hy]%elem_of_cons Hr0; [by apply Hx|].
        apply (Hfresh y r0 Hy). apply elem_of_app. by left.
      * apply NoDup_cons. split; [|done].
        intros (y & Heq & Hy)%list_elem_of_fmap.
        apply (Hfresh y (new_row (auto_increment (committed w)) (now w) x) Hy);
          [|done].
        apply elem_of_app. right. left.
      * destruct res; lia.
Qed.

(** X6. [CreateBatchWitness] is not one transaction: whatever happens, the
    table afterwards is the table before plus one new row for each of the
    first [k] records, in order; all of them when the call succeeds, fewer
    when it fails, and the rows that were inserted before the failure stay. *)
Theorem Enqueue_inserts_a_prefix m xs w res w' :
  CreateBatchWitness m xs w = (res, w') →
  ∃ k, (k ≤ length xs)%nat
       ∧ rows (committed w')
         = rows (committed w) ++ inserted (auto_increment (committed w)) (now w) (take k xs)
       ∧ match res with Ok _ => k = length xs | Err _ => (k < length xs)%nat end.
Proof.
  rewrite CreateBatchWitness_insert_each. intros H.
  apply insert_each_prefix in H as (k & Hk & Hrows & _ & _ & _ & _ & Hres). eauto.
Qed.

Lemma Enqueue_inserts_a_prefix_witness :
  CreateBatchWitness test_model [row 0 9 StatusPublished; row 0 5 StatusPublished]
    one_row_world
  = (Err duplicate_entry,
     snd (CreateBatchWitness test_model
            [row 0 9 StatusPublished; row 0 5 StatusPublished] one_row_world))
  ∧ ∃ k, (k ≤ 2)%nat
       ∧ rows (committed (snd (CreateBatchWitness test_model
                    [row 0 9 StatusPublished; row 0 5 StatusPublished] one_row_world)))
         = rows (committed one_row_world)
           ++ inserted (auto_increment (committed one_row_world)) (now one_row_world)
                (take k [row 0 9 StatusPublished; row 0 5 StatusPublished])
       ∧ (k < 2)%nat.
Proof.
  assert (CreateBatchWitness test_model
            [row 0 9 StatusPublished; row 0 5 StatusPublished] one_row_world
          = (Err duplicate_entry,
             snd (CreateBatchWitness test_model
                    [row 0 9 StatusPublished; row 0 5 StatusPublished] one_row_world)))
    as H by (vm_compute; reflexivity).
  split; [exact H|].
  exact (Enqueue_inserts_a_prefix test_model
           [row 0 9 StatusPublished; row 0 5 StatusPublished] one_row_world _ _ H).
Defined.

Lemma insert_each_quiet m xs w :
  quiet w → NoDup (Height <$> xs) →
  (∀ x r, x ∈ xs → r ∈ rows (committed w) → Height r ≠ Height x) →
  ∃ w', insert_each m xs w = (Ok (), w') ∧ quiet w'.
Proof.
  unfold insert_each. revert w. induction xs as [|x xs IH]; intros w Hq Hnodup Hfresh; simpl.
  - by exists w.
  - destruct (Exec_quiet (insert_query m) (INSERT (Height x) (WitnessData x) (Status x)) w Hq)
      as (w1 & Hq1 & Hc1 & Hn1 & HE).
    simpl in HE.
    destruct (height_taken (Height x) (committed w)) eqn:Htaken.
    { apply height_taken_iff in Htaken as (r & Hr & Heq).
      exfalso. apply (Hfresh x r); [left|done..]. }
    apply NoDup_cons in Hnodup as (Hx & Hnodup).
    destruct (IH (set_committed
                    {| rows := rows (committed w) ++ [new_row (auto_increment (committed w)) (now w) x];
                       auto_increment := auto_increment (committed w) + 1 |} w1))
      as (w2 & H2 & Hq2); [done|done| |].
    { simpl. intros y r Hy [Hr| ->%list_elem_of_singleton]%elem_of_app.
      - apply Hfresh; [by right|done].
      - simpl. intros Heq. apply Hx. rewrite Heq. apply list_elem_of_fmap. eauto. }
    exists w2. erewrite bind_ok; [|by erewrite bind_ok; [|exact HE]]. done.
Qed.

Lemma elem_of_inserted from clock xs r :
  r ∈ inserted from clock xs →
  ∃ x, x ∈ xs ∧ Height r = Height x ∧ WitnessData r = WitnessData x
       ∧ Status r = Status x ∧ DeletedAt r = None ∧ CreatedAt r = clock.
Proof.
  revert from. induction xs as [|x xs IH]; intros from; simpl.
  - by intros ?%not_elem_of_nil.
  - intros [->|Hr]%elem_of_cons.
    + exists x. split; [left|done].
    + destruct (IH _ Hr) as (y & Hy & ?). exists y. split; [by right|done].
Qed.

Lemma NoDup_fmap_eq {A B} (f : A → B) (l : list A) x y :
  NoDup (f <$> l) → x ∈ l → y ∈ l → f x = f y → x = y.
Proof.
  induction l as [|a l IH]; simpl; [by intros _ ?%not_elem_of_nil|].
  intros [Ha Hl]%NoDup_cons [->|Hx]%elem_of_cons [->|Hy]%elem_of_cons Heq.
  - done.
  - exfalso. apply Ha. rewrite Heq. apply list_elem_of_fmap. eauto.
  - exfalso. apply Ha. rewrite <- Heq. apply list_elem_of_fmap. eauto.
  - by apply IH.
Qed.

(** X7. Insert, then look up.  While the store reports no failure,
    [CreateBatchWitness] of records whose heights are distinct and new to
    the table succeeds, and [GetBatchWitnessByHeight] then finds, at the
    height of each record, a row with the height, the data and the status
    of that record, not deleted, created at the store's time. *)
Theorem Enqueue_then_GetByHeight conv m xs w :
  quiet w → NoDup (Height <$> xs) →
  (∀ x r, x ∈ xs → r ∈ rows (committed w) → Height r ≠ Height x) →
  ∃ w1, CreateBatchWitness m xs w = (Ok (), w1) ∧ quiet w1
        ∧ ∀ x, x ∈ xs →
            ∃ r, fst (GetBatchWitnessByHeight conv m (Height x) w1) = Ok r
                 ∧ Height r = Height x ∧ WitnessData r = WitnessData x
                 ∧ Status r = Status x ∧ DeletedAt r = None ∧ CreatedAt r = now w.
Proof.
  intros Hq Hnodup Hfresh. rewrite CreateBatchWitness_insert_each.
  destruct (insert_each_quiet m xs w Hq Hnodup Hfresh) as (w1 & H1 & Hq1).
  exists w1. split_and!; [done..|]. intros x Hx.
  apply insert_each_prefix in H1 as (k & _ & Hrows & _ & _ & _ & _ & ->).
  rewrite firstn_all in Hrows.
  destruct (by_height_quiet conv m (Height x) w1 Hq1) as (w2 & -> & _). cbn [fst].
  pose proof (head_filter (satisfies [HeightEq (Height x); DeletedAtIsNull])
                (rows (committed w1))) as Hhead.
  destruct (head _) as [r|].
  - exists r. split; [done|].
    destruct Hhead as (Hr & (Hh & _)%satisfies_height_active).
    rewrite Hrows in Hr. apply elem_of_app in Hr as [Hr|Hr].
    { exfalso. by apply (Hfresh x r Hx Hr). }
    apply elem_of_inserted in Hr as (y & Hy & Hhy & Hd & Hs & Hdel & Hc).
    assert (y = x) as -> by (eapply NoDup_fmap_eq; [done..|congruence]).
    done.
  - exfalso.
    assert (∃ r, r ∈ rows (committed w1) ∧ Height r = Height x ∧ active r)
      as (r & Hr & Hh & Hact).
    { rewrite Hrows. clear -Hx.
      generalize (auto_increment (committed w)). induction xs as [|y xs IH]; intros from.
      - by apply not_elem_of_nil in Hx.
      - apply elem_of_cons in Hx as [->|Hx].
        + exists (new_row from (now w) y). split; [|done].
          apply elem_of_app. right. left.
        + destruct (IH Hx (from + 1)) as (r & Hr & ?). exists r. split; [|done].
          apply elem_of_app in Hr as [Hr|Hr]; apply elem_of_app; [by left|].
          right. simpl. by right. }
    apply (Hhead r Hr). by apply satisfies_height_active.
Qed.

Lemma Enqueue_then_GetByHeight_witness :
  quiet one_row_world
  ∧ NoDup (Height <$> [row 0 42 StatusPublished])
  ∧ (∀ x r, x ∈ [row 0 42 StatusPublished] → r ∈ rows (committed one_row_world) →
       Height r ≠ Height x)
  ∧ ∃ w1, CreateBatchWitness test_model [row 0 42 StatusPublished] one_row_world
          = (Ok (), w1) ∧ quiet w1
        ∧ ∀ x, x ∈ [row 0 42 StatusPublished] →
            ∃ r, fst (GetBatchWitnessByHeight keep_error test_model (Height x) w1) = Ok r
                 ∧ Height r = Height x ∧ WitnessData r = WitnessData x
                 ∧ Status r = Status x ∧ DeletedAt r = None
                 ∧ CreatedAt r = now one_row_world.
Proof.
  assert (quiet one_row_world) as Hq by (vm_compute; constructor).
  assert (NoDup (Height <$> [row 0 42 StatusPublished])) as Hnodup.
  { apply NoDup_cons. split; [apply not_elem_of_nil|constructor]. }
  assert (∀ x r, x ∈ [row 0 42 StatusPublished] → r ∈ rows (committed one_row_world) →
            Height r ≠ Height x) as Hfresh.
  { intros x r ->%list_elem_of_singleton ->%list_elem_of_singleton. vm_compute. discriminate. }
  split_and!; [exact Hq|exact Hnodup|exact Hfresh|].
  exact (Enqueue_then_GetByHeight keep_error test_model [row 0 42 StatusPublished]
           one_row_world Hq Hnodup Hfresh).
Defined.

(** ** What the writes keep *)

Lemma transition_same_identity a t hs rs :
  Forall2 same_identity rs (transition a t hs rs).
Proof.
  unfold transition. induction rs as [|r rs IH]; simpl; constructor; [|done].
  destruct (decide (Height r ∈ hs)); done.
Qed.

Lemma update_rows_transition s h t rs :
  update_rows s h t rs = transition s t [h] rs.
Proof.
  unfold update_rows, transition. apply list_fmap_ext. intros i r _.
  destruct (Z.eqb_spec (Height r) h) as [Heq|Hne].
  - rewrite decide_True; [done|]. rewrite Heq. left.
  - rewrite decide_False; [done|]. by intros ?%list_elem_of_singleton.
Qed.

Lemma same_identity_heights rs rs' :
  Forall2 same_identity rs rs' → Height <$> rs' = Height <$> rs ∧ ID <$> rs' = ID <$> rs.
Proof.
  induction 1 as [|r r' rs rs' (Hid & Hh & _) _ [IH1 IH2]]; [done|].
  rewrite !fmap_cons. by rewrite Hid, Hh, IH1, IH2.
Qed.

Lemma same_identity_well_formed rs rs' n :
  Forall2 same_identity rs rs' →
  well_formed {| rows := rs; auto_increment := n |} →
  well_formed {| rows := rs'; auto_increment := n |}.
Proof.
  intros H (Hh & Hi & Hlt). pose proof (same_identity_heights _ _ H) as [Eh Ei].
  unfold well_formed; simpl in *. rewrite Eh, Ei. split_and!; [done..|].
  clear -H Hlt. induction H as [|r r' rs rs' (Hid & _) _ IH]; [done|].
  apply Forall_cons in Hlt as [? ?]. constructor; [lia|by apply IH].
Qed.

Lemma run_exec_well_formed x clock t r t' :
  run_exec x clock t = Ok (r, t') → well_formed t → well_formed t'.
Proof.
  destruct x as [h d s|s h]; simpl.
  - destruct (height_taken h t) eqn:Hfree; [done|]. intros [= _ <-] (Hh & Hi & Hlt).
    unfold well_formed; simpl. rewrite !fmap_app. simpl. split_and!.
    + apply NoDup_app. split_and!; [done| |apply NoDup_singleton].
      intros h' (r' & -> & Hr')%list_elem_of_fmap Heq%list_elem_of_singleton.
      apply not_true_iff_false in Hfree. apply Hfree, height_taken_iff. eauto.
    + apply NoDup_app. split_and!; [done| |apply NoDup_singleton].
      intros i (r' & -> & Hr')%list_elem_of_fmap Heq%list_elem_of_singleton.
      rewrite Forall_forall in Hlt. specialize (Hlt r' Hr'). lia.
    + apply Forall_app. split.
      * eapply Forall_impl; [done|]. simpl. intros; lia.
      * constructor; [simpl; lia|done].
  - intros [= _ <-]. destruct t as [rs n]. simpl.
    apply same_identity_well_formed. rewrite update_rows_transition.
    apply transition_same_identity.
Qed.

Lemma Exec_well_formed text x w res w' :
  Exec text x w = (res, w') → well_formed (committed w) → well_formed (committed w').
Proof.
  intros H Hwf. apply Exec_inv in H as (_ & _ & H). destruct res as [r|e].
  - by eapply run_exec_well_formed.
  - by rewrite H.
Qed.

Lemma insert_each_well_formed m xs w :
  well_formed (committed w) → well_formed (committed (snd (insert_each m xs w))).
Proof.
  unfold insert_each. revert w. induction xs as [|x xs IH]; intros w Hwf; simpl; [done|].
  unfold mbind at 1, M_bind at 1.
  destruct ((Exec _ _ ≫= _) w) as [[[]|e] w1] eqn:H.
  - apply IH. apply bind_inv in H as [(e' & H & [=])|(r & w2 & H & [= ->])].
    by eapply Exec_well_formed.
  - simpl. apply bind_inv in H as [(e' & H & _)|(r & w2 & H & [=])].
    by eapply Exec_well_formed.
Qed.

Lemma claim_well_formed conv m text q a w :
  well_formed (committed w) → well_formed (committed (snd (claim conv m text q a w))).
Proof.
  intros Hwf. destruct (claim conv m text q a w) as [[ws|e] w'] eqn:H; simpl.
  - apply claim_Ok in H as (_ & _ & [->| ->] & _); [|done].
    destruct (committed w) as [rs n].
    unfold transitioned. simpl. eapply same_identity_well_formed; [|done].
    apply transition_same_identity.
  - apply claim_Err in H as (-> & _). done.
Qed.

(** X8. Every write of the witness model keeps the table as the schema
    wants it, whatever the store's failures: after [CreateBatchWitness],
    [UpdateBatchWitnessStatus] or either claim, heights are still unique
    over all rows, ids are unique and below the auto-increment counter. *)
Theorem writes_keep_table_well_formed conv m w :
  well_formed (committed w) →
  (∀ xs, well_formed (committed (snd (CreateBatchWitness m xs w))))
  ∧ (∀ x s, well_formed (committed (snd (UpdateBatchWitnessStatus m x s w))))
  ∧ (∀ b a n,
       well_formed (committed (snd (GetAndUpdateBatchesWitnessByStatus conv m b a n w))))
  ∧ (∀ h b a,
       well_formed (committed (snd (GetAndUpdateBatchesWitnessByHeight conv m h b a w)))).
Proof.
  intros Hwf. split_and!.
  - intros xs. rewrite CreateBatchWitness_insert_each. by apply insert_each_well_formed.
  - intros x s. unfold UpdateBatchWitnessStatus.
    destruct ((Exec _ _ ≫= _) w) as [res w1] eqn:H. simpl.
    apply bind_inv in H as [(e' & H & _)|(r & w2 & H & [= _ ->])];
      by eapply Exec_well_formed.
  - intros b a n. rewrite ByStatus_claim. by apply claim_well_formed.
  - intros h b a. rewrite ByHeight_claim. by apply claim_well_formed.
Qed.

Lemma writes_keep_table_well_formed_witness :
  well_formed (committed example_world)
  ∧ (∀ xs, well_formed (committed (snd (CreateBatchWitness test_model xs example_world)))).
Proof.
  assert (well_formed (committed example_world)) as Hwf.
  { unfold well_formed. apply (bool_decide_unpack _). vm_compute. exact I. }
  split; [exact Hwf|].
  exact (proj1 (writes_keep_table_well_formed keep_error test_model example_world Hwf)).
Defined.

(** X9. [UpdateBatchWitnessStatus] that succeeds leaves the rows in place,
    gives the new status and the store's time as [UpdatedAt] to every row
    at the height of the record, whatever status the row had and whether it
    is deleted or not, changes nothing else of these rows and changes no
    other row; one that fails changes nothing. *)
Theorem UpdateStatus_effect m x s w res w' :
  UpdateBatchWitnessStatus m x s w = (res, w') →
  match res with
  | Ok _ =>
      Forall2 (moved s (now w) [Height x]) (rows (committed w)) (rows (committed w'))
      ∧ auto_increment (committed w') = auto_increment (committed w)
      ∧ ∀ r, r ∈ rows (committed w) → Height r = Height x →
             ∃ r', r' ∈ rows (committed w') ∧ Status r' = s ∧ UpdatedAt r' = now w
                   ∧ same_identity r r'
  | Err _ => committed w' = committed w
  end.
Proof.
  unfold UpdateBatchWitnessStatus. intros H.
  apply bind_inv in H as [(e & H & ->)|(r & w1 & H & [= <- <-])];
    apply Exec_inv in H as (_ & _ & H); [done|].
  simpl in H. injection H as _ <-. simpl. rewrite update_rows_transition.
  pose proof (transition_moved s (now w) [Height x] (rows (committed w))) as Hmoved.
  split_and!; [done..|]. intros r0 Hr0 Hh.
  apply list_elem_of_lookup in Hr0 as (i & Hi).
  destruct (Forall2_lookup_l _ _ _ _ _ Hmoved Hi) as (r' & Hr' & Hm).
  exists r'. split; [by eapply list_elem_of_lookup_2|].
  unfold moved in Hm. rewrite decide_True in Hm; [done|]. rewrite Hh. left.
Qed.

Lemma UpdateStatus_effect_witness :
  UpdateBatchWitnessStatus test_model deleted_row StatusFinished deleted_row_world
  = (Ok (), snd (UpdateBatchWitnessStatus test_model deleted_row StatusFinished
                   deleted_row_world))
  ∧ ∀ r, r ∈ rows (committed deleted_row_world) → Height r = Height deleted_row →
         ∃ r', r' ∈ rows (committed (snd (UpdateBatchWitnessStatus test_model deleted_row
                                            StatusFinished deleted_row_world)))
               ∧ Status r' = StatusFinished ∧ UpdatedAt r' = now deleted_row_world
               ∧ same_identity r r'.
Proof.
  assert (UpdateBatchWitnessStatus test_model deleted_row StatusFinished deleted_row_world
          = (Ok (), snd (UpdateBatchWitnessStatus test_model deleted_row StatusFinished
                           deleted_row_world))) as H by (vm_compute; reflexivity).
  split; [exact H|].
  exact (proj2 (proj2 (UpdateStatus_effect test_model deleted_row StatusFinished
                         deleted_row_world _ _ H))).
Defined.

(** X10. A claim, by status or by height, whatever its outcome, adds no
    row and removes none, and changes of a row nothing but its status and
    its update time: id, height, data, creation and deletion times are, row
    by row, what they were. *)
Theorem claims_change_status_only conv m w :
  (∀ b a n,
     Forall2 same_identity (rows (committed w))
       (rows (committed (snd (GetAndUpdateBatchesWitnessByStatus conv m b a n w)))))
  ∧ (∀ h b a,
     Forall2 same_identity (rows (committed w))
       (rows (committed (snd (GetAndUpdateBatchesWitnessByHeight conv m h b a w))))).
Proof.
  assert (∀ text q a,
            Forall2 same_identity (rows (committed w))
              (rows (committed (snd (claim conv m text q a w))))) as Hclaim.
  { assert (Forall2 same_identity (rows (committed w)) (rows (committed w))) as Hsame.
    { apply Forall2_same_length_lookup.
      split; [done|]. intros i r r' Hr Hr'. rewrite Hr in Hr'. by injection Hr' as <-. }
    intros text q a. destruct (claim conv m text q a w) as [[ws|e] w'] eqn:H; simpl.
    - apply claim_Ok in H as (_ & _ & [->| ->] & _); [|done].
      apply transition_same_identity.
    - by apply claim_Err in H as (-> & _). }
  split; intros; [rewrite ByStatus_claim|rewrite ByHeight_claim]; apply Hclaim.
Qed.

Lemma transition_ext a t hs hs' rs :
  (∀ h, h ∈ hs ↔ h ∈ hs') → transition a t hs rs = transition a t hs' rs.
Proof.
  intros Heq. unfold transition. apply list_fmap_ext. intros i r _.
  destruct (decide (Height r ∈ hs)) as [Hin|Hin];
    destruct (decide (Height r ∈ hs')) as [Hin'|Hin']; try done;
    exfalso; apply Heq in Hin || apply Heq in Hin'; done.
Qed.

Lemma length_filter_NoDup_fmap {A B} `{EqDecision B} (f : A → B) (P : A → Prop)
    `{∀ x, Decision (P x)} (k : B) (l : list A) :
  NoDup (f <$> l) → (∀ x, P x → f x = k) → (length (filter P l) ≤ 1)%nat.
Proof.
  intros Hnd HP. induction l as [|x l IH]; simpl; [lia|].
  apply NoDup_cons in Hnd as [Hx Hnd]. rewrite filter_cons.
  destruct (decide (P x)) as [Hpx|]; [|by apply IH]. simpl.
  replace (filter P l) with (@nil A); [simpl; lia|].
  symmetry. apply filter_nil_iff. intros (y & Hy & Hpy).
  apply Hx. rewrite (HP x Hpx), <- (HP y Hpy). apply list_elem_of_fmap. eauto.
Qed.

(** X11. While the store reports no failure, a successful
    [GetAndUpdateBatchesWitnessByHeight] returns exactly the rows of the
    table that have the height and [beforeStatus] and are not deleted, as
    they were; every row at that height then has [afterStatus] and the
    store's time as [UpdatedAt] and is otherwise as it was, and no other row
    has changed.  In a table with unique heights it returns one record. *)
Theorem ClaimByHeight_success conv m h b a w ws w' :
  quiet w →
  GetAndUpdateBatchesWitnessByHeight conv m h b a w = (Ok ws, w') →
  ws ≠ []
  ∧ (∀ r, r ∈ ws ↔ r ∈ rows (committed w) ∧ Height r = h ∧ Status r = b ∧ active r)
  ∧ Forall2 (moved a (now w) [h]) (rows (committed w)) (rows (committed w'))
  ∧ (NoDup (Height <$> rows (committed w)) → length ws = 1%nat).
Proof.
  rewrite ByHeight_claim. intros Hq H.
  apply claim_Ok_quiet in H as (Hne & Hrun & Hc & _); [|done].
  rewrite run_select_by_height in Hrun. injection Hrun as Hws.
  assert (∀ r, r ∈ ws ↔ r ∈ rows (committed w) ∧ Height r = h ∧ Status r = b ∧ active r)
    as Hin.
  { intros r. rewrite <- Hws, merge_sort_Permutation, list_elem_of_filter.
    rewrite satisfies_height_status_active. unfold active. naive_solver. }
  split_and!; [done|done| |].
  - rewrite Hc. simpl.
    rewrite (transition_ext a (now w) (Height <$> ws) [h]); [apply transition_moved|].
    intros h'. split.
    + intros (r & -> & Hr)%list_elem_of_fmap. apply Hin in Hr as (_ & -> & _). left.
    + intros ->%list_elem_of_singleton. destruct ws as [|r ws]; [done|].
      assert (Height r = h) as <- by (apply (Hin r); left). left.
  - intros Hnd.
    assert (length ws ≠ 0%nat) by (by destruct ws).
    assert (length ws ≤ 1)%nat; [|lia].
    rewrite <- Hws, merge_sort_Permutation.
    apply (length_filter_NoDup_fmap Height _ h); [done|].
    intros r Hr. by apply satisfies_height_status_active in Hr as (? & _).
Qed.

Lemma ClaimByHeight_success_witness :
  quiet example_world
  ∧ GetAndUpdateBatchesWitnessByHeight keep_error test_model 5 StatusPublished
      StatusReceived example_world
    = (Ok [row 1 5 StatusPublished],
       snd (GetAndUpdateBatchesWitnessByHeight keep_error test_model 5 StatusPublished
              StatusReceived example_world))
  ∧ Forall2 (moved StatusReceived (now example_world) [5])
      (rows (committed example_world))
      (rows (committed (snd (GetAndUpdateBatchesWitnessByHeight keep_error test_model 5
                               StatusPublished StatusReceived example_world)))).
Proof.
  assert (quiet example_world) as Hq by (vm_compute; constructor).
  assert (GetAndUpdateBatchesWitnessByHeight keep_error test_model 5 StatusPublished
            StatusReceived example_world
          = (Ok [row 1 5 StatusPublished],
             snd (GetAndUpdateBatchesWitnessByHeight keep_error test_model 5 StatusPublished
                    StatusReceived example_world))) as H by (vm_compute; reflexivity).
  split_and!; [exact Hq|exact H|].
  exact (proj1 (proj2 (proj2 (ClaimByHeight_success keep_error test_model 5
                                StatusPublished StatusReceived example_world _ _ Hq H)))).
Defined.

(** ** How the operations compose *)

Lemma UpdateStatus_quiet m x s w :
  quiet w →
  ∃ w1, UpdateBatchWitnessStatus m x s w = (Ok (), w1) ∧ quiet w1
        ∧ now w1 = now w
        ∧ rows (committed w1) = transition s (now w) [Height x] (rows (committed w)).
Proof.
  intros Hq.
  destruct (Exec_quiet (updateQuery m) (UPDATE s (Height x)) w Hq)
    as (w1 & Hq1 & Hc1 & Hn1 & HE).
  simpl in HE. eexists. unfold UpdateBatchWitnessStatus.
  erewrite bind_ok; [|exact HE]. split; [done|]. simpl.
  rewrite update_rows_transition. done.
Qed.

(** X12. The setter undoes a claim.  While the store reports no failure,
    whatever status a row that is not deleted has, after
    [UpdateBatchWitnessStatus] has set it to [beforeStatus] a claim by height
    from [beforeStatus] succeeds and returns that row, with [beforeStatus]
    and the time of the update. *)
Theorem UpdateStatus_then_ClaimByHeight conv m x b a w r :
  quiet w → r ∈ rows (committed w) → active r → Height r = Height x →
  ∃ w1 ws w2,
    UpdateBatchWitnessStatus m x b w = (Ok (), w1)
    ∧ GetAndUpdateBatchesWitnessByHeight conv m (Height x) b a w1 = (Ok ws, w2)
    ∧ set_status b (now w) r ∈ ws.
Proof.
  intros Hq Hr Hact Hh.
  destruct (UpdateStatus_quiet m x b w Hq) as (w1 & H1 & Hq1 & Hn1 & Hrows).
  destruct (claim_quiet conv m (claim_by_height_query m) (by_height (Height x) b) a w1 Hq1)
    as (w2 & H2 & _).
  rewrite run_select_by_height in H2.
  assert (set_status b (now w) r
          ∈ merge_sort height_le
              (filter (satisfies [HeightEq (Height x); StatusEq b; DeletedAtIsNull])
                 (rows (committed w1)))) as Hin.
  { rewrite merge_sort_Permutation. apply list_elem_of_filter. split.
    - by apply satisfies_height_status_active.
    - rewrite Hrows. apply elem_of_transition. exists r. split; [done|].
      rewrite decide_True; [done|]. rewrite Hh. left. }
  destruct (merge_sort _ _) as [|r0 ws] eqn:Hws; [by apply not_elem_of_nil in Hin|].
  exists w1, (r0 :: ws), w2. rewrite ByHeight_claim. done.
Qed.

Lemma UpdateStatus_then_ClaimByHeight_witness :
  quiet example_world
  ∧ row 1 5 StatusPublished ∈ rows (committed example_world)
  ∧ active (row 1 5 StatusPublished)
  ∧ Height (row 1 5 StatusPublished) = Height (row 0 5 StatusPublished)
  ∧ ∃ w1 ws w2,
      UpdateBatchWitnessStatus test_model (row 0 5 StatusPublished) StatusFinished
        example_world = (Ok (), w1)
      ∧ GetAndUpdateBatchesWitnessByHeight keep_error test_model
          (Height (row 0 5 StatusPublished)) StatusFinished StatusPublished w1
        = (Ok ws, w2)
      ∧ set_status StatusFinished (now example_world) (row 1 5 StatusPublished) ∈ ws.
Proof.
  assert (quiet example_world) as Hq by (vm_compute; constructor).
  assert (row 1 5 StatusPublished ∈ rows (committed example_world)) as Hin
    by (vm_compute; left).
  split_and!; [exact Hq|exact Hin|reflexivity|reflexivity|].
  exact (UpdateStatus_then_ClaimByHeight keep_error test_model (row 0 5 StatusPublished)
           StatusFinished StatusPublished example_world (row 1 5 StatusPublished)
           Hq Hin eq_refl eq_refl).
Defined.

(** X13. While the store reports no failure, a claim by status of at least
    one row succeeds as soon as one row that is not deleted has
    [beforeStatus], and returns as many records as there are such rows, up
    to [count]. *)
Theorem ClaimBatch_takes_what_is_there conv m b a n w r :
  quiet w → 1 ≤ n →
  r ∈ rows (committed w) → active r → Status r = b →
  ∃ ws w',
    GetAndUpdateBatchesWitnessByStatus conv m b a n w = (Ok ws, w')
    ∧ quiet w'
    ∧ length ws = (Z.to_nat n `min` length (candidates b (rows (committed w))))%nat.
Proof.
  intros Hq Hn Hr Hact Hs. rewrite ByStatus_claim.
  destruct (claim_quiet conv m (claim_by_status_query m) (by_status b n) a w Hq)
    as (w' & H & Hq' & _).
  rewrite run_select_by_status in H by lia.
  assert (r ∈ candidates b (rows (committed w))) as Hin by (by apply elem_of_candidates).
  destruct (candidates b (rows (committed w))) as [|c cs] eqn:Hc;
    [by apply not_elem_of_nil in Hin|].
  destruct (Z.to_nat n) as [|k] eqn:Hk; [lia|].
  exists (take (S k) (c :: cs)), w'. split_and!; [done..|].
  by rewrite length_take.
Qed.

Lemma ClaimBatch_takes_what_is_there_witness :
  quiet example_world ∧ 1 ≤ 5
  ∧ row 1 5 StatusPublished ∈ rows (committed example_world)
  ∧ active (row 1 5 StatusPublished) ∧ Status (row 1 5 StatusPublished) = StatusPublished
  ∧ ∃ ws w',
      GetAndUpdateBatchesWitnessByStatus keep_error test_model StatusPublished
        StatusReceived 5 example_world = (Ok ws, w')
      ∧ quiet w'
      ∧ length ws = (Z.to_nat 5 `min`
                       length (candidates StatusPublished (rows (committed example_world))))%nat.
Proof.
  assert (quiet example_world) as Hq by (vm_compute; constructor).
  assert (1 ≤ 5) as Hn by lia.
  assert (row 1 5 StatusPublished ∈ rows (committed example_world)) as Hin
    by (vm_compute; left).
  split_and!; [exact Hq|exact Hn|exact Hin|reflexivity|reflexivity|].
  exact (ClaimBatch_takes_what_is_there keep_error test_model StatusPublished
           StatusReceived 5 example_world (row 1 5 StatusPublished)
           Hq Hn Hin eq_refl eq_refl).
Defined.

Lemma candidates_heights_NoDup b rs :
  NoDup (Height <$> rs) → NoDup (Height <$> candidates b rs).
Proof.
  intros Hnd. unfold candidates. rewrite merge_sort_Permutation.
  eapply sublist_NoDup; [exact Hnd|]. apply fmap_sublist, sublist_filter.
Qed.

(** After the transition of the rows at the heights [hs], the rows that
    still match are those that matched and are at none of these heights. *)
Lemma filter_transition b a t hs rs :
  b ≠ a →
  filter (satisfies [StatusEq b; DeletedAtIsNull]) (transition a t hs rs)
  = filter (λ r, (Height r ∉ hs) ∧ satisfies [StatusEq b; DeletedAtIsNull] r) rs.
Proof.
  intros Hba. unfold transition. induction rs as [|r rs IH]; [done|].
  rewrite fmap_cons, !filter_cons, IH.
  destruct (decide (Height r ∈ hs)) as [Hin|Hin].
  - rewrite decide_False.
    2:{ intros (Hs & _)%satisfies_status_active. simpl in Hs. congruence. }
    rewrite decide_False; [done|]. by intros [? _].
  - destruct (decide (satisfies [StatusEq b; DeletedAtIsNull] r)) as [Hsat|Hsat].
    + by rewrite decide_True.
    + rewrite decide_False; [done|]. by intros [_ ?].
Qed.

Lemma filter_all {A} (P : A → Prop) `{∀ x, Decision (P x)} (l : list A) :
  (∀ x, x ∈ l → P x) → filter P l = l.
Proof.
  induction l as [|x l IH]; intros HP; [done|].
  rewrite filter_cons_True by (apply HP; left). f_equal. apply IH.
  intros y Hy. apply HP. by right.
Qed.

(** What is left for the next claim: the candidates but the first [k]. *)
Lemma candidates_after_claim b a t k rs :
  b ≠ a → NoDup (Height <$> rs) →
  candidates b (transition a t (Height <$> take k (candidates b rs)) rs)
  = drop k (candidates b rs).
Proof.
  intros Hba Hnd.
  pose proof (candidates_heights_NoDup b rs Hnd) as HndC.
  pose proof (candidates_sorted b rs) as HsortC.
  set (C := candidates b rs) in *. set (hs := Height <$> take k C).
  assert (filter (λ r, Height r ∉ hs) C = drop k C) as Hdrop.
  { rewrite <- (take_drop k C) at 1. rewrite filter_app.
    rewrite <- (take_drop k C), fmap_app in HndC.
    apply NoDup_app in HndC as (_ & Hdisj & _).
    replace (filter _ (take k C)) with (@nil BatchWitness).
    2:{ symmetry. apply filter_nil_iff. intros (r & Hr & Hnot). apply Hnot.
        apply list_elem_of_fmap. eauto. }
    simpl. apply filter_all. intros r Hr Hin. apply (Hdisj (Height r) Hin).
    apply list_elem_of_fmap. eauto. }
  unfold candidates at 1. rewrite filter_transition by done. fold hs.
  apply StronglySorted_unique_strong with (R := height_le).
  - intros x1 x2 Hx1 Hx2 H12 H21. unfold height_le in *.
    apply (NoDup_fmap_eq Height rs); [done| | |lia].
    + rewrite merge_sort_Permutation in Hx1. by apply list_elem_of_filter in Hx1 as [_ ?].
    + apply (subseteq_drop k C) in Hx2.
      by apply elem_of_candidates in Hx2 as [? _].
  - apply StronglySorted_merge_sort; apply _.
  - by apply StronglySorted_drop.
  - rewrite merge_sort_Permutation, <- Hdrop. unfold C, candidates.
    rewrite <- list_filter_filter. apply filter_Permutation.
    symmetry. apply merge_sort_Permutation.
Qed.

(** X14. Claims drain the queue in order.  While the store reports no
    failure, in a table with unique heights and for [afterStatus] other than
    [beforeStatus], a successful claim by status followed by another returns
    the rows the first left, lowest first: the two lists, one after the
    other, are what one claim of both counts would have returned. *)
Theorem successive_claims_take_successive_rows conv m b a n1 n2 w ws1 w1 ws2 w2 :
  quiet w →
  b ≠ a → NoDup (Height <$> rows (committed w)) →
  GetAndUpdateBatchesWitnessByStatus conv m b a n1 w = (Ok ws1, w1) →
  GetAndUpdateBatchesWitnessByStatus conv m b a n2 w1 = (Ok ws2, w2) →
  ws2 = take (Z.to_nat n2) (drop (Z.to_nat n1) (candidates b (rows (committed w))))
  ∧ ws1 ++ ws2
    = take (Z.to_nat n1 + Z.to_nat n2) (candidates b (rows (committed w))).
Proof.
  intros Hq Hba Hnd H1 H2. rewrite ByStatus_claim in H1, H2.
  apply claim_Ok_quiet in H1 as (_ & Hrun1 & Hc1 & _ & _ & Hq1); [|done].
  apply claim_Ok_quiet in H2 as (_ & Hrun2 & _); [|done].
  apply run_select_by_status_inv in Hrun1 as (_ & ->).
  apply run_select_by_status_inv in Hrun2 as (_ & ->).
  rewrite Hc1. simpl. rewrite candidates_after_claim by done.
  split; [done|]. apply take_take_drop.
Qed.

Lemma successive_claims_take_successive_rows_witness :
  quiet example_world
  ∧ StatusPublished ≠ StatusReceived
  ∧ NoDup (Height <$> rows (committed example_world))
  ∧ example_claim = (Ok example_claimed, snd example_claim)
  ∧ GetAndUpdateBatchesWitnessByStatus keep_error test_model StatusPublished
      StatusReceived 2 (snd example_claim)
    = (Ok [row 3 7 StatusPublished],
       snd (GetAndUpdateBatchesWitnessByStatus keep_error test_model StatusPublished
              StatusReceived 2 (snd example_claim)))
  ∧ [row 3 7 StatusPublished]
    = take (Z.to_nat 2)
        (drop (Z.to_nat 2) (candidates StatusPublished (rows (committed example_world))))
  ∧ example_claimed ++ [row 3 7 StatusPublished]
    = take (Z.to_nat 2 + Z.to_nat 2)
        (candidates StatusPublished (rows (committed example_world))).
Proof.
  assert (quiet example_world) as Hq by (vm_compute; constructor).
  assert (StatusPublished ≠ StatusReceived) as Hne by (vm_compute; discriminate).
  assert (NoDup (Height <$> rows (committed example_world))) as Hnd
    by (apply (bool_decide_unpack _); vm_compute; exact I).
  assert (example_claim = (Ok example_claimed, snd example_claim)) as H1
    by (vm_compute; reflexivity).
  assert (GetAndUpdateBatchesWitnessByStatus keep_error test_model StatusPublished
            StatusReceived 2 (snd example_claim)
          = (Ok [row 3 7 StatusPublished],
             snd (GetAndUpdateBatchesWitnessByStatus keep_error test_model StatusPublished
                    StatusReceived 2 (snd example_claim)))) as H2
    by (vm_compute; reflexivity).
  split_and!; [exact Hq|exact Hne|exact Hnd|exact H1|exact H2|..];
    apply (successive_claims_take_successive_rows keep_error test_model StatusPublished
             StatusReceived 2 2 example_world example_claimed (snd example_claim)
             [row 3 7 StatusPublished] _ Hq Hne Hnd H1 H2).
Defined.

Lemma heights_page_quiet conv m s limit offset w :
  quiet w → 0 ≤ limit → 0 ≤ offset →
  ∃ w', GetAllBatchHeightsByStatus conv m s limit offset w
        = (match take (Z.to_nat limit)
                   (drop (Z.to_nat offset) (listed s (rows (committed w)))) with
           | [] => Err DbErrNotFound
           | page => Ok page
           end, w')
        ∧ quiet w' ∧ frame w w'.
Proof.
  intros Hq Hl Ho. unfold GetAllBatchHeightsByStatus, QueryWithTimeout.
  destruct (Query_quiet (timeoutQuery (db m) (heights_by_status_query m))
              (SELECT [StatusEq s; DeletedAtIsNull] (Some ASC) (Some limit)
                 (Some offset) false) w Hq)
    as (w1 & H1 & Hq1 & Hf1 & _).
  unfold run_select in H1. simpl in H1.
  destruct (Z.ltb_spec limit 0); [lia|]. destruct (Z.ltb_spec offset 0); [lia|].
  simpl in H1. erewrite bind_ok; [|by apply or_return_ok].
  match type of H1 with _ = (Ok ?rs, _) =>
    destruct (for_rows_Next_quiet ScanHeight Height ScanHeight_quiet rs [] w1 Hq1)
      as (w2 & H2 & Hq2 & Hf2 & _)
  end.
  erewrite bind_ok; [|exact H2]. simpl.
  rewrite fmap_take, fmap_drop. fold (candidates s (rows (committed w))).
  fold (listed s (rows (committed w))).
  exists w2. split; [|split; [done|by eapply frame_trans]].
  clear H1 H2.
  destruct (take (Z.to_nat limit) (drop (Z.to_nat offset) (listed s (rows (committed w)))));
    reflexivity.
Qed.

(** X15. Pages join.  While the store reports no failure and the table does
    not change, a full page of [limit1] heights followed by the page of
    [limit2] heights that starts where it ends are, one after the other, the
    page of [limit1 + limit2] heights from the same offset: paging skips no
    height and repeats none. *)
Theorem consecutive_pages_join conv m s limit1 limit2 offset w p1 w1 p2 :
  quiet w → 0 ≤ limit1 → 0 ≤ limit2 → 0 ≤ offset →
  GetAllBatchHeightsByStatus conv m s limit1 offset w = (Ok p1, w1) →
  Z.of_nat (length p1) = limit1 →
  fst (GetAllBatchHeightsByStatus conv m s limit2 (offset + limit1) w1) = Ok p2 →
  fst (GetAllBatchHeightsByStatus conv m s (limit1 + limit2) offset w) = Ok (p1 ++ p2).
Proof.
  intros Hq Hl1 Hl2 Ho H1 Hfull H2.
  destruct (heights_page_quiet conv m s limit1 offset w Hq Hl1 Ho)
    as (w1' & H1' & Hq1 & (Hc1 & _ & _)).
  rewrite H1 in H1'. injection H1' as Hp1 <-.
  destruct (heights_page_quiet conv m s limit2 (offset + limit1) w1 Hq1 Hl2 ltac:(lia))
    as (w2 & H2' & _).
  rewrite H2' in H2. cbn [fst] in H2. rewrite Hc1 in H2.
  destruct (heights_page_quiet conv m s (limit1 + limit2) offset w Hq ltac:(lia) Ho)
    as (w3 & -> & _). cbn [fst].
  set (L := listed s (rows (committed w))) in *.
  assert (p1 = take (Z.to_nat limit1) (drop (Z.to_nat offset) L)) as Ep1
    by (destruct (take (Z.to_nat limit1) _); [done|congruence]).
  assert (p2 = take (Z.to_nat limit2) (drop (Z.to_nat (offset + limit1)) L)) as Ep2
    by (destruct (take (Z.to_nat limit2) _); [done|congruence]).
  assert (take (Z.to_nat (limit1 + limit2)) (drop (Z.to_nat offset) L) = p1 ++ p2) as ->.
  { rewrite Ep1, Ep2, Z2Nat.inj_add, <- take_take_drop, drop_drop by lia.
    do 3 f_equal. lia. }
  destruct p1 as [|h p1]; [|done].
  simpl in *. destruct p2; [|done].
  destruct (take (Z.to_nat limit2) _); done.
Qed.

Lemma consecutive_pages_join_witness :
  quiet example_world ∧ 0 ≤ 1 ∧ 0 ≤ 2 ∧ 0 ≤ 0
  ∧ GetAllBatchHeightsByStatus keep_error test_model StatusPublished 1 0 example_world
    = (Ok [3], snd (GetAllBatchHeightsByStatus keep_error test_model StatusPublished 1 0
                      example_world))
  ∧ Z.of_nat (length [3]) = 1
  ∧ fst (GetAllBatchHeightsByStatus keep_error test_model StatusPublished 2 (0 + 1)
           (snd (GetAllBatchHeightsByStatus keep_error test_model StatusPublished 1 0
                   example_world))) = Ok [5; 7]
  ∧ fst (GetAllBatchHeightsByStatus keep_error test_model StatusPublished (1 + 2) 0
           example_world) = Ok ([3] ++ [5; 7]).
Proof.
  assert (quiet example_world) as Hq by (vm_compute; constructor).
  assert (0 ≤ 1) as H1 by lia. assert (0 ≤ 2) as H2 by lia. assert (0 ≤ 0) as H0 by lia.
  assert (GetAllBatchHeightsByStatus keep_error test_model StatusPublished 1 0 example_world
          = (Ok [3], snd (GetAllBatchHeightsByStatus keep_error test_model StatusPublished
                            1 0 example_world))) as Hp1 by (vm_compute; reflexivity).
  assert (fst (GetAllBatchHeightsByStatus keep_error test_model StatusPublished 2 (0 + 1)
                 (snd (GetAllBatchHeightsByStatus keep_error test_model StatusPublished 1 0
                         example_world))) = Ok [5; 7]) as Hp2 by (vm_compute; reflexivity).
  split_and!; [exact Hq|exact H1|exact H2|exact H0|exact Hp1|reflexivity|exact Hp2|].
  exact (consecutive_pages_join keep_error test_model StatusPublished 1 2 0 example_world
           [3] _ [5; 7] Hq H1 H2 H0 Hp1 eq_refl Hp2).
Defined.

(** ** Counting *)

Lemma count_quiet conv d text cs w :
  quiet w →
  ∃ w', (QueryRowCountWithTimeout d text cs ≫= λ row, or_return (CountScan row) conv) w
        = (Ok (run_count cs (rows (committed w))), w')
        ∧ quiet w' ∧ frame w w'.
Proof.
  intros Hq. unfold QueryRowCountWithTimeout, QueryRowCount.
  destruct (fault_quiet (log (timeoutQuery d text) w) Hq)
    as (w1 & Hf & Hq1 & (Hc & Hi & Hn) & _).
  destruct (fault_quiet w1 Hq1) as (w2 & Hf2 & Hq2 & (Hc2 & Hi2 & Hn2) & _).
  exists w2. unfold mbind at 1, M_bind at 1. rewrite Hf. simpl in *.
  unfold or_return, CountScan. erewrite bind_ok; [|exact Hf2].
  rewrite Hc. split; [done|]. split; [done|]. unfold frame. split_and!; congruence.
Qed.

Lemma run_count_active rs :
  run_count [DeletedAtIsNull] rs = Z.of_nat (length (filter active rs)).
Proof.
  unfold run_count. do 2 f_equal. apply list_filter_iff. apply satisfies_active.
Qed.

Lemma run_count_status s rs :
  run_count [StatusEq s; DeletedAtIsNull] rs = count_status s rs.
Proof.
  unfold run_count, count_status. do 2 f_equal. apply list_filter_iff.
  intros r. rewrite satisfies_status_active. done.
Qed.

Lemma counts_add_up rs :
  (∀ r, r ∈ rs → active r →
        Status r = StatusPublished ∨ Status r = StatusReceived ∨ Status r = StatusFinished) →
  Z.of_nat (length (filter active rs))
  = count_status StatusPublished rs + count_status StatusReceived rs
    + count_status StatusFinished rs.
Proof.
  unfold count_status. induction rs as [|r rs IH]; intros Hst; [done|].
  rewrite !filter_cons.
  assert (∀ r', r' ∈ rs → active r' →
            Status r' = StatusPublished ∨ Status r' = StatusReceived
            ∨ Status r' = StatusFinished) as Hrest by (intros; apply Hst; [by right|done]).
  specialize (IH Hrest).
  assert (∀ s (l : list BatchWitness),
            length (if decide (Status r = s ∧ active r) then r :: l else l)
            = ((if decide (Status r = s ∧ active r) then 1 else 0) + length l)%nat) as Hlen
    by (intros s l; by destruct (decide _)).
  rewrite !Hlen. clear Hlen.
  destruct (decide (active r)) as [Hact|Hact].
  - simpl length. rewrite Nat2Z.inj_succ, IH.
    destruct (Hst r ltac:(left) Hact) as [Hs|[Hs|Hs]]; rewrite Hs;
      repeat (destruct (decide _) as [[? ?]|?]; try discriminate; try tauto); try lia.
  - rewrite IH. repeat (destruct (decide _) as [[? ?]|?]; try tauto); try lia.
Qed.

(** X16. While the store reports no failure, [GetRowCounts] returns four
    numbers: the rows that are not deleted, and those of them that are
    Published, Received and Finished.  When every row that is not deleted
    has one of the three statuses, the first is the sum of the other three. *)
Theorem RowCounts_add_up conv m w :
  quiet w →
  fst (GetRowCounts conv m w)
  = Ok [Z.of_nat (length (filter active (rows (committed w))));
        count_status StatusPublished (rows (committed w));
        count_status StatusReceived (rows (committed w));
        count_status StatusFinished (rows (committed w))]
  ∧ ((∀ r, r ∈ rows (committed w) → active r →
           Status r = StatusPublished ∨ Status r = StatusReceived
           ∨ Status r = StatusFinished) →
     Z.of_nat (length (filter active (rows (committed w))))
     = count_status StatusPublished (rows (committed w))
       + count_status StatusReceived (rows (committed w))
       + count_status StatusFinished (rows (committed w))).
Proof.
  intros Hq. split; [|apply counts_add_up].
  unfold GetRowCounts.
  destruct (count_quiet conv (db m) (count_query m) [DeletedAtIsNull] w Hq)
    as (w1 & H1 & Hq1 & (Hc1 & _ & _)).
  destruct (count_quiet conv (db m) (count_by_status_query m)
              [StatusEq StatusPublished; DeletedAtIsNull] w1 Hq1)
    as (w2 & H2 & Hq2 & (Hc2 & _ & _)).
  destruct (count_quiet conv (db m) (count_by_status_query m)
              [StatusEq StatusReceived; DeletedAtIsNull] w2 Hq2)
    as (w3 & H3 & Hq3 & (Hc3 & _ & _)).
  destruct (count_quiet conv (db m) (count_by_status_query m)
              [StatusEq StatusFinished; DeletedAtIsNull] w3 Hq3)
    as (w4 & H4 & _).
  rewrite <- bind_assoc. erewrite bind_ok; [|exact H1].
  rewrite <- bind_assoc. erewrite bind_ok; [|exact H2].
  rewrite <- bind_assoc. erewrite bind_ok; [|exact H3].
  rewrite <- bind_assoc. erewrite bind_ok; [|exact H4].
  simpl. rewrite Hc3, Hc2, Hc1, run_count_active, !run_count_status. done.
Qed.

Lemma RowCounts_add_up_witness :
  quiet (snd example_claim)
  ∧ fst (GetRowCounts keep_error test_model (snd example_claim)) = Ok [3; 1; 2; 0].
Proof.
  assert (quiet (snd example_claim)) as Hq by (vm_compute; constructor).
  split; [exact Hq|].
  exact (eq_trans (proj1 (RowCounts_add_up keep_error test_model (snd example_claim) Hq))
           eq_refl).
Defined.

(** ** The hint *)

Lemma wrap64_in_range z : - 2 ^ 63 ≤ z < 2 ^ 63 → wrap64 z = z.
Proof.
  intros Hz. unfold wrap64. rewrite Z.mod_small by lia. lia.
Qed.

(** X17. For a number of seconds between -9223372036 and 9223372036,
    after [SetMaxExecutionTime] the hint of every [...WithTimeout] statement
    carries that many seconds, in milliseconds.  One second more and the
    product in nanoseconds wraps around: the hint is negative. *)
Theorem hint_carries_the_seconds seconds d query :
  -9223372036 ≤ seconds ≤ 9223372036 →
  timeoutQuery (SetMaxExecutionTime seconds d) query
  = "/*+ MAX_EXECUTION_TIME(" +:+ pretty (seconds * 1000) +:+ ") */ " +:+ query
  ∧ timeoutQuery (SetMaxExecutionTime 9223372037 d) query
    = "/*+ MAX_EXECUTION_TIME(-9223372036709) */ " +:+ query.
Proof.
  intros Hs. split; [|reflexivity].
  unfold timeoutQuery, SetMaxExecutionTime, Milliseconds, Second. simpl maxExecutionTime.
  rewrite wrap64_in_range by lia.
  replace (seconds * 1000000000) with (seconds * 1000 * 1000000) by lia.
  rewrite Z.quot_mul by lia. done.
Qed.

Lemma hint_carries_the_seconds_witness :
  -9223372036 ≤ 30 ≤ 9223372036
  ∧ timeoutQuery (SetMaxExecutionTime 30 {| maxExecutionTime := 0 |}) "SELECT 1"
    = "/*+ MAX_EXECUTION_TIME(30000) */ SELECT 1".
Proof.
  assert (-9223372036 ≤ 30 ≤ 9223372036) as H by lia.
  split; [exact H|].
  exact (proj1 (hint_carries_the_seconds 30 {| maxExecutionTime := 0 |} "SELECT 1" H)).
Defined.

(** ** The round trips of a claim *)

Lemma update_each_sent m tx a ws w w' :
  update_each m tx a ws w = (Ok (), w') →
  sent w' = sent w ++ replicate (length ws) (updateQuery m).
Proof.
  unfold update_each. revert w. induction ws as [|x ws IH]; intros w H; simpl in H.
  - inversion H; subst. simpl. by rewrite app_nil_r.
  - apply bind_inv in H as [(e & _ & [=])|([] & w1 & H & Hrest)].
    apply bind_inv in H as [(e' & H & [=])|(r & w2 & H & [= ->])].
    apply tx_Exec_UPDATE_inv in H as (_ & _ & Hs & _).
    apply IH in Hrest. rewrite Hrest, Hs, <- app_assoc. done.
Qed.

Lemma claim_sent conv m text q a w ws w' :
  claim conv m text q a w = (Ok ws, w') →
  sent w' = sent w ++ text :: replicate (length ws) (updateQuery m).
Proof.
  unfold claim. intros H.
  apply bind_inv in H as [(e & _ & [=])|(tx & w1 & H & H1)].
  apply BeginTransaction_inv in H as (_ & _ & Hs0 & _).
  unfold defer_Rollback_or_Commit in H1.
  destruct (claim_body conv m tx text q a w1) as [[ws'|e] w2] eqn:Hb; [|done].
  injection H1 as <- <-.
  assert (sent (snd (Commit tx w2)) = sent w2) as ->.
  { destruct (Commit tx w2) as [r w3] eqn:HC. by apply Commit_inv in HC as (_ & _ & ? & _). }
  unfold claim_body in Hb.
  apply bind_inv in Hb as [(e & _ & [=])|(rs & w3 & H & H1)].
  apply or_return_inv in H as [(? & H & [= <-])|(e' & _ & [=])].
  apply tx_Query_inv in H as (_ & Hs1 & _).
  apply bind_inv in H1 as [(e & _ & [=])|(xs & w4 & H1 & H2)].
  apply (for_rows_Next_inv Scan id Scan_inv) in H1 as (_ & Hs2 & _).
  destruct (decide (length xs = 0%nat)); [done|].
  apply bind_inv in H2 as [(e & _ & [=])|([] & w5 & H2 & [= <- <-])].
  apply update_each_sent in H2. rewrite H2, Hs2, Hs1, Hs0, <- app_assoc. done.
Qed.

(** X18. A claim that succeeds has sent its SELECT and then one UPDATE for
    each record it returns, and no other statement. *)
Theorem claim_round_trips conv m w :
  (∀ b a n ws w',
     GetAndUpdateBatchesWitnessByStatus conv m b a n w = (Ok ws, w') →
     sent w' = sent w ++ claim_by_status_query m
                         :: replicate (length ws) (updateQuery m))
  ∧ (∀ h b a ws w',
     GetAndUpdateBatchesWitnessByHeight conv m h b a w = (Ok ws, w') →
     sent w' = sent w ++ claim_by_height_query m
                         :: replicate (length ws) (updateQuery m)).
Proof.
  split; intros *; [rewrite ByStatus_claim|rewrite ByHeight_claim]; apply claim_sent.
Qed.

Lemma claim_round_trips_witness :
  example_claim = (Ok example_claimed, snd example_claim)
  ∧ sent (snd example_claim)
    = sent example_world
      ++ claim_by_status_query test_model
         :: replicate (length example_claimed) (updateQuery test_model).
Proof.
  assert (GetAndUpdateBatchesWitnessByStatus keep_error test_model
            StatusPublished StatusReceived 2 example_world
          = (Ok example_claimed, snd example_claim)) as H by (vm_compute; reflexivity).
  split; [exact H|].
  exact (proj1 (claim_round_trips keep_error test_model example_world) _ _ _ _ _ H).
Defined.

(** ** The other tables *)

Lemma tbl_bind_ok {R A B} (c : sqltable.M R A) (f : A → sqltable.M R B) w a w1 :
  c w = (Ok a, w1) → (c ≫= f) w = f a w1.
Proof. unfold mbind, sqltable.M_bind, sqltable.bind. by intros ->. Qed.

Lemma tbl_bind_err {R A B} (c : sqltable.M R A) (f : A → sqltable.M R B) w e w1 :
  c w = (Err e, w1) → (c ≫= f) w = (Err e, w1).
Proof. unfold mbind, sqltable.M_bind, sqltable.bind. by intros ->. Qed.

Lemma tbl_bind_inv {R A B} (c : sqltable.M R A) (f : A → sqltable.M R B) w r w' :
  (c ≫= f) w = (r, w') →
  (∃ e, c w = (Err e, w') ∧ r = Err e)
  ∨ (∃ a w1, c w = (Ok a, w1) ∧ f a w1 = (r, w')).
Proof.
  unfold mbind, sqltable.M_bind, sqltable.bind. destruct (c w) as [[a|e] w1]; intros H.
  - right. eauto.
  - left. exists e. by inversion H.
Qed.

Lemma same_table_refl {R} (w : sqltable.World R) : same_table w w.
Proof. done. Qed.

Lemma same_table_trans {R} (w1 w2 w3 : sqltable.World R) :
  same_table w1 w2 → same_table w2 w3 → same_table w1 w3.
Proof. unfold same_table. intros (-> & -> & ->) (-> & -> & ->). done. Qed.

Lemma tbl_fault_inv {R} (w : sqltable.World R) r w' :
  sqltable.fault w = (r, w') → same_table w w' ∧ sqltable.sent w' = sqltable.sent w.
Proof.
  unfold sqltable.fault. destruct (sqltable.faults w) as [|[e|] fs];
    intros [= <- <-]; done.
Qed.

Lemma tbl_fault_quiet {R} (w : sqltable.World R) :
  sqltable.quiet w →
  ∃ w', sqltable.fault w = (Ok (), w') ∧ sqltable.quiet w' ∧ same_table w w'
        ∧ sqltable.sent w' = sqltable.sent w.
Proof.
  unfold sqltable.quiet, sqltable.fault.
  destruct (sqltable.faults w) as [|[e|] fs] eqn:Hf; intros Hq.
  - exists w. by rewrite Hf.
  - by inversion Hq.
  - eexists. split; [done|]. inversion Hq; subst. done.
Qed.

Lemma tbl_Query_quiet {R} text (q : sqltable.select R) (w : sqltable.World R) :
  sqltable.quiet w →
  ∃ w', sqltable.Query R text q w = (sqltable.run_select R q (sqltable.rows w), w')
        ∧ sqltable.quiet w' ∧ same_table w w'.
Proof.
  intros Hq.
  destruct (tbl_fault_quiet (sqltable.log R text w) Hq) as (w1 & Hf & Hq1 & (Hr & Ha & Hn) & _).
  unfold sqltable.Query. rewrite Hf. simpl in *. rewrite Hr. eexists. done.
Qed.

Lemma tbl_Scan_quiet {R A} (column : R → A) r (w : sqltable.World R) :
  sqltable.quiet w →
  ∃ w', sqltable.Scan column r w = (Ok (column r), w') ∧ sqltable.quiet w'
        ∧ same_table w w'.
Proof.
  intros Hq. destruct (tbl_fault_quiet w Hq) as (w' & H & Hq' & Hs & _).
  exists w'. unfold sqltable.Scan, sqltable.bind. rewrite H. done.
Qed.

(** A query for one row and its scan, while the store reports no failure. *)
Lemma tbl_first_quiet {R A} conv d text (q : sqltable.select R) (column : R → A) w :
  sqltable.quiet w →
  ∃ w', (sqltable.QueryRowWithTimeout d text q ≫= λ row,
           sqltable.or_return (sqltable.RowScan row column) (not_found_or_converted conv)) w
        = (first_or_NotFound conv column (sqltable.run_select R q (sqltable.rows w)), w')
        ∧ sqltable.quiet w' ∧ same_table w w'.
Proof.
  intros Hq. unfold sqltable.QueryRowWithTimeout, sqltable.QueryRow.
  destruct (tbl_Query_quiet (timeoutQuery d text) q w Hq) as (w1 & H1 & Hq1 & Hs1).
  unfold mbind, sqltable.M_bind, sqltable.bind at 1. rewrite H1.
  destruct (sqltable.run_select R q (sqltable.rows w)) as [rs|e]; simpl.
  - destruct (head rs) as [r|]; simpl.
    + destruct (tbl_Scan_quiet column r w1 Hq1) as (w2 & H2 & Hq2 & Hs2).
      exists w2. unfold sqltable.or_return. rewrite H2.
      split; [done|]. split; [done|]. by eapply same_table_trans.
    + exists w1. split; [reflexivity|done].
  - exists w1. done.
Qed.

Lemma tbl_Next_quiet {R} (rs : list R) (w : sqltable.World R) :
  sqltable.quiet w →
  ∃ w', sqltable.Next rs w = (Ok (head rs), w') ∧ sqltable.quiet w' ∧ same_table w w'.
Proof.
  intros Hq. destruct (tbl_fault_quiet w Hq) as (w' & H & Hq' & Hs & _).
  exists w'. unfold sqltable.Next. rewrite H. done.
Qed.

Lemma tbl_for_rows_Next_quiet {R} (rs xs : list R) (w : sqltable.World R) :
  sqltable.quiet w →
  ∃ w', sqltable.for_rows_Next rs xs w = (Ok (xs ++ rs), w') ∧ sqltable.quiet w'
        ∧ same_table w w'.
Proof.
  revert xs w. induction rs as [|r rs IH]; intros xs w Hq; simpl.
  - destruct (tbl_Next_quiet [] w Hq) as (w0 & H0 & Hq0 & Hs0).
    exists w0. unfold sqltable.bind. rewrite H0. simpl. by rewrite app_nil_r.
  - destruct (tbl_Next_quiet (r :: rs) w Hq) as (w0 & H0 & Hq0 & Hs0).
    destruct (tbl_Scan_quiet id r w0 Hq0) as (w1 & H1 & Hq1 & Hs1).
    destruct (IH (xs ++ [r]) w1 Hq1) as (w2 & H2 & Hq2 & Hs2).
    exists w2. unfold sqltable.bind at 1. rewrite H0. simpl.
    unfold sqltable.bind at 1. rewrite H1. simpl. rewrite H2, <- app_assoc.
    split; [done|]. split; [done|].
    eapply same_table_trans; [done|]. by eapply same_table_trans.
Qed.

(** An INSERT: it fails and leaves the table as it was, or it appends the
    row it makes, whose values fit, and no existing row conflicted. *)
Lemma tbl_Exec_inv {R} text (i : sqltable.insert R) (w : sqltable.World R) res w' :
  sqltable.Exec text i w = (res, w') →
  sqltable.now w' = sqltable.now w
  ∧ match res with
    | Ok r =>
        RowsAffected r = Ok 1
        ∧ existsb (sqltable.ins_conflict R i) (sqltable.rows w) = false
        ∧ sqltable.rows w'
          = sqltable.rows w
            ++ [sqltable.ins_row R i (sqltable.auto_increment w) (sqltable.now w)]
        ∧ sqltable.auto_increment w' = sqltable.auto_increment w + 1
        ∧ sqltable.ins_refused R i = None
    | Err e =>
        same_table w w'
        ∧ (sqltable.ins_refused R i = None →
           existsb (sqltable.ins_conflict R i) (sqltable.rows w) = true →
           sqltable.quiet w → e = MySQLError ER_DUP_ENTRY "Duplicate entry")
    end.
Proof.
  unfold sqltable.Exec.
  destruct (sqltable.fault (sqltable.log R text w)) as [[[]|e] w1] eqn:Hf.
  - apply tbl_fault_inv in Hf as ((Hr & Ha & Hn) & _). simpl in *. rewrite Hr.
    destruct (sqltable.ins_refused R i) as [e|] eqn:Hfit.
    { intros [= <- <-]. done. }
    destruct (existsb _ _) eqn:Hex; intros [= <- <-]; simpl.
    + split; [done|]. split; [done|]. done.
    + rewrite Ha, Hn. done.
  - intros [= <- <-]. pose proof Hf as Hf'.
    apply tbl_fault_inv in Hf as ((Hr & Ha & Hn) & _). simpl in *.
    split; [done|]. split; [done|]. intros _ _ Hq.
    destruct (tbl_fault_quiet (sqltable.log R text w) Hq) as (w2 & Hf2 & _).
    rewrite Hf2 in Hf'. done.
Qed.

Lemma tbl_Exec_quiet {R} text (i : sqltable.insert R) (w : sqltable.World R) :
  sqltable.quiet w →
  sqltable.ins_refused R i = None →
  existsb (sqltable.ins_conflict R i) (sqltable.rows w) = false →
  ∃ r w', sqltable.Exec text i w = (Ok r, w') ∧ RowsAffected r = Ok 1
        ∧ sqltable.quiet w'
        ∧ sqltable.rows w'
          = sqltable.rows w
            ++ [sqltable.ins_row R i (sqltable.auto_increment w) (sqltable.now w)]
        ∧ sqltable.auto_increment w' = sqltable.auto_increment w + 1
        ∧ sqltable.now w' = sqltable.now w.
Proof.
  intros Hq Hfit Hfree.
  destruct (tbl_fault_quiet (sqltable.log R text w) Hq) as (w1 & Hf & Hq1 & (Hr & Ha & Hn) & _).
  unfold sqltable.Exec. rewrite Hf, Hfit. simpl in *. rewrite Hr, Hfree.
  eexists _, _. split; [done|]. simpl. rewrite Ha, Hn. done.
Qed.

Global Instance key_le_total {R} (k : R → Z) : Total (sqltable.key_le R k).
Proof. intros x y. unfold sqltable.key_le. lia. Qed.
Global Instance key_le_trans {R} (k : R → Z) : Transitive (sqltable.key_le R k).
Proof. intros x y z. unfold sqltable.key_le. lia. Qed.
Global Instance key_ge_total {R} (k : R → Z) : Total (sqltable.key_ge R k).
Proof. intros x y. unfold sqltable.key_ge. lia. Qed.
Global Instance key_ge_trans {R} (k : R → Z) : Transitive (sqltable.key_ge R k).
Proof. intros x y z. unfold sqltable.key_ge. lia. Qed.

Lemma head_sorted_by_key_max {R} (k : R → Z) (l : list R) :
  match head (merge_sort (sqltable.key_ge R k) l) with
  | Some r => r ∈ l ∧ ∀ r', r' ∈ l → k r' ≤ k r
  | None => l = []
  end.
Proof.
  pose proof (StronglySorted_merge_sort (sqltable.key_ge R k) l) as Hsorted.
  pose proof (merge_sort_Permutation (sqltable.key_ge R k) l) as Hperm.
  destruct (merge_sort (sqltable.key_ge R k) l) as [|r l'] eqn:Hl; simpl.
  - by apply Permutation_nil_l in Hperm.
  - split; [rewrite <- Hperm; left|].
    intros r' Hr'. rewrite <- Hperm in Hr'.
    apply StronglySorted_inv in Hsorted as [_ Hall].
    apply elem_of_cons in Hr' as [->|Hr']; [lia|].
    rewrite Forall_forall in Hall. by apply Hall.
Qed.

Lemma not_deleted_None p :
  proof_model.not_deleted p = true ↔ prover.DeletedAt p = None.
Proof. unfold proof_model.not_deleted. destruct (prover.DeletedAt p); naive_solver. Qed.

(** X19. [CreateProof] against the proof table inserts one row or nothing:
    when it succeeds the table has one more row, the proof with the next id
    and the store's time, and no row had its batch number; when it fails the
    table is as it was.  So a proof whose batch number any row has, deleted
    or not, is never inserted. *)
Theorem CreateProof_inserts_one_row_or_nothing m row w res w' :
  proof_model.CreateProof m row w = (res, w') →
  match res with
  | Ok _ =>
      sqltable.rows w'
      = sqltable.rows w
        ++ [proof_model.stored row (sqltable.auto_increment w) (sqltable.now w)]
      ∧ ∀ p, p ∈ sqltable.rows w → prover.BatchNumber p ≠ prover.BatchNumber row
  | Err _ => sqltable.rows w' = sqltable.rows w
  end.
Proof.
  unfold proof_model.CreateProof. intros H.
  apply tbl_bind_inv in H as [(e & H & ->)|(r & w1 & H & H1)].
  { by apply tbl_Exec_inv in H as (_ & (? & _) & _). }
  apply tbl_Exec_inv in H as (_ & Hrows & Hfree & Hr & _ & _).
  apply tbl_bind_inv in H1 as [(e & H1 & ->)|(n & w2 & H1 & H2)].
  { unfold sqltable.lift in H1. rewrite Hrows in H1. done. }
  unfold sqltable.lift in H1. rewrite Hrows in H1. injection H1 as <- <-.
  simpl in H2. injection H2 as <- <-. split; [done|].
  intros p Hp Heq. apply not_true_iff_false in Hfree. apply Hfree.
  apply existsb_exists. exists p. split; [by apply list_elem_of_In|].
  simpl. by apply Z.eqb_eq.
Qed.

Lemma CreateProof_inserts_one_row_or_nothing_witness :
  proof_model.CreateProof test_proof_model (proof_at 0 9 None) three_proofs
  = (Err (MySQLError ER_DUP_ENTRY "Duplicate entry"),
     snd (proof_model.CreateProof test_proof_model (proof_at 0 9 None) three_proofs))
  ∧ sqltable.rows (snd (proof_model.CreateProof test_proof_model (proof_at 0 9 None)
                          three_proofs))
    = sqltable.rows three_proofs.
Proof.
  assert (proof_model.CreateProof test_proof_model (proof_at 0 9 None) three_proofs
          = (Err (MySQLError ER_DUP_ENTRY "Duplicate entry"),
             snd (proof_model.CreateProof test_proof_model (proof_at 0 9 None)
                    three_proofs))) as H by (vm_compute; reflexivity).
  split; [exact H|].
  exact (CreateProof_inserts_one_row_or_nothing test_proof_model (proof_at 0 9 None)
           three_proofs _ _ H).
Defined.

Lemma run_select_limit_1 {R} (q : sqltable.select R) rs :
  sqltable.sel_limit R q = Some 1 →
  sqltable.run_select R q rs
  = Ok (take 1 (sqltable.order_by R (sqltable.sel_order R q) (sqltable.matching q rs))).
Proof. unfold sqltable.run_select. by intros ->. Qed.

Lemma first_of_limit_1 {R A} conv (column : R → A) (l : list R) :
  first_or_NotFound conv column (Ok (take 1 l))
  = match head l with Some x => Ok (column x) | None => Err DbErrNotFound end.
Proof. unfold first_or_NotFound. by rewrite head_take_1. Qed.

Lemma refused_fits row : proof_model.fits row → proof_model.refused row = None.
Proof.
  intros (H1 & H2 & H3 & H4 & H5).
  unfold proof_model.refused, proof_model.fits_TEXT, proof_model.fits_INT.
  repeat match goal with
         | |- context [?x <=? ?y] => destruct (Z.leb_spec x y); [|lia]
         end.
  done.
Qed.

(** X20. Insert, then look up.  While the store reports no failure,
    [CreateProof] of a proof whose values fit the columns of the table (the
    three texts a TEXT, the assets count an INT) and whose batch
    number is new to the table succeeds, and [GetProofByBatchNumber] of that
    number then returns a proof with the fields of the one given, the next
    id, the store's time as creation and update times, not deleted. *)
Theorem CreateProof_then_GetByBatchNumber conv m row w :
  sqltable.quiet w →
  proof_model.fits row →
  (∀ p, p ∈ sqltable.rows w → prover.BatchNumber p ≠ prover.BatchNumber row) →
  ∃ w1 p w2,
    proof_model.CreateProof m row w = (Ok (), w1)
    ∧ proof_model.GetProofByBatchNumber conv m (prover.BatchNumber row) w1 = (Ok p, w2)
    ∧ prover.ID p = sqltable.auto_increment w
    ∧ prover.CreatedAt p = sqltable.now w ∧ prover.UpdatedAt p = sqltable.now w
    ∧ prover.DeletedAt p = None
    ∧ prover.ProofInfo p = prover.ProofInfo row
    ∧ prover.CexAssetListCommitments p = prover.CexAssetListCommitments row
    ∧ prover.AccountTreeRoots p = prover.AccountTreeRoots row
    ∧ prover.BatchCommitment p = prover.BatchCommitment row
    ∧ prover.AssetsCount p = prover.AssetsCount row
    ∧ prover.BatchNumber p = prover.BatchNumber row.
Proof.
  intros Hq Hfits Hfresh.
  assert (existsb (sqltable.ins_conflict _ (proof_model.insert_proof row)) (sqltable.rows w)
          = false) as Hfree.
  { apply not_true_iff_false. intros (p & Hp & Heq)%existsb_exists.
    apply (Hfresh p); [by apply list_elem_of_In|]. by apply Z.eqb_eq. }
  destruct (tbl_Exec_quiet (prover.insert_query m) (proof_model.insert_proof row) w Hq
              (refused_fits row Hfits) Hfree)
    as (r & w1 & HE & Hr & Hq1 & Hrows & _).
  exists w1, (proof_model.stored row (sqltable.auto_increment w) (sqltable.now w)).
  destruct (tbl_first_quiet conv (prover.db m) (proof_model.by_number_query m)
              (sqltable.SELECT
                 (λ p, (prover.BatchNumber p =? prover.BatchNumber row)
                       && proof_model.not_deleted p) None (Some 1))
              id w1 Hq1) as (w2 & H2 & _).
  exists w2. split; [|split; [|done]].
  - unfold proof_model.CreateProof. erewrite tbl_bind_ok; [|exact HE].
    unfold sqltable.lift. erewrite tbl_bind_ok; [|by rewrite Hr]. done.
  - unfold proof_model.GetProofByBatchNumber. rewrite H2.
    rewrite run_select_limit_1 by done. rewrite first_of_limit_1. simpl.
    unfold sqltable.matching. rewrite Hrows, filter_app. simpl.
    replace (filter _ (sqltable.rows w)) with (@nil prover.Proof).
    2:{ symmetry. apply filter_nil_iff. intros (p & Hp & Hsat). simpl in Hsat.
        apply andb_true_iff in Hsat as [Heq%Z.eqb_eq _]. by apply (Hfresh p). }
    rewrite filter_cons_True; [done|]. simpl. by rewrite Z.eqb_refl.
Qed.

Lemma CreateProof_then_GetByBatchNumber_witness :
  sqltable.quiet three_proofs
  ∧ proof_model.fits (proof_at 0 7 None)
  ∧ (∀ p, p ∈ sqltable.rows three_proofs →
          prover.BatchNumber p ≠ prover.BatchNumber (proof_at 0 7 None))
  ∧ ∃ w1 p w2,
      proof_model.CreateProof test_proof_model (proof_at 0 7 None) three_proofs = (Ok (), w1)
      ∧ proof_model.GetProofByBatchNumber keep_error test_proof_model
          (prover.BatchNumber (proof_at 0 7 None)) w1 = (Ok p, w2)
      ∧ prover.ID p = sqltable.auto_increment three_proofs
      ∧ prover.CreatedAt p = sqltable.now three_proofs
      ∧ prover.UpdatedAt p = sqltable.now three_proofs
      ∧ prover.DeletedAt p = None
      ∧ prover.ProofInfo p = prover.ProofInfo (proof_at 0 7 None)
      ∧ prover.CexAssetListCommitments p
        = prover.CexAssetListCommitments (proof_at 0 7 None)
      ∧ prover.AccountTreeRoots p = prover.AccountTreeRoots (proof_at 0 7 None)
      ∧ prover.BatchCommitment p = prover.BatchCommitment (proof_at 0 7 None)
      ∧ prover.AssetsCount p = prover.AssetsCount (proof_at 0 7 None)
      ∧ prover.BatchNumber p = prover.BatchNumber (proof_at 0 7 None).
Proof.
  assert (sqltable.quiet three_proofs) as Hq by (vm_compute; constructor).
  assert (proof_model.fits (proof_at 0 7 None)) as Hfits
    by (unfold proof_model.fits; simpl; lia).
  assert (∀ p, p ∈ sqltable.rows three_proofs →
               prover.BatchNumber p ≠ prover.BatchNumber (proof_at 0 7 None)) as Hfresh.
  { intros p Hp. vm_compute in Hp.
    repeat (apply elem_of_cons in Hp as [->|Hp]; [vm_compute; discriminate|]).
    by apply not_elem_of_nil in Hp. }
  split_and!; [exact Hq|exact Hfits|exact Hfresh|].
  exact (CreateProof_then_GetByBatchNumber keep_error test_proof_model (proof_at 0 7 None)
           three_proofs Hq Hfits Hfresh).
Defined.

Lemma between_matching start end_ (l : list prover.Proof) :
  sqltable.matching
    (sqltable.SELECT
       (λ p, (start <=? prover.BatchNumber p) && (prover.BatchNumber p <=? end_)
             && proof_model.not_deleted p)
       (Some (prover.BatchNumber, ASC)) None) l
  = filter (λ p, start ≤ prover.BatchNumber p ≤ end_ ∧ prover.DeletedAt p = None) l.
Proof.
  unfold sqltable.matching. simpl. apply list_filter_iff. intros p.
  rewrite !andb_true_iff, !Z.leb_le, not_deleted_None. tauto.
Qed.

(** X21. [GetProofsBetween], while the store reports no failure, returns
    the proofs that are not deleted and whose batch number lies between
    [start] and [end], both included, each once and in ascending order of
    batch number; when there is none, an empty range included, it returns
    [DbErrNotFound] and never an empty list.  The table is left as it was. *)
Theorem GetProofsBetween_range conv m start end_ w :
  sqltable.quiet w →
  ∃ res w',
    proof_model.GetProofsBetween conv m start end_ w = (res, w')
    ∧ same_table w w'
    ∧ let found :=
        filter (λ p, start ≤ prover.BatchNumber p ≤ end_ ∧ prover.DeletedAt p = None)
          (sqltable.rows w) in
      match res with
      | Ok ps =>
          ps ≠ [] ∧ ps ≡ₚ found
          ∧ StronglySorted (λ a b, prover.BatchNumber a ≤ prover.BatchNumber b) ps
      | Err e => e = DbErrNotFound ∧ found = []
      end.
Proof.
  intros Hq. unfold proof_model.GetProofsBetween, sqltable.QueryWithTimeout.
  destruct (tbl_Query_quiet (timeoutQuery (prover.db m) (proof_model.between_query m))
              (sqltable.SELECT
                 (λ p, (start <=? prover.BatchNumber p) && (prover.BatchNumber p <=? end_)
                       && proof_model.not_deleted p)
                 (Some (prover.BatchNumber, ASC)) None) w Hq)
    as (w1 & H1 & Hq1 & Hs1).
  unfold sqltable.run_select in H1. cbn [sqltable.sel_limit sqltable.sel_order] in H1.
  rewrite between_matching in H1.
  set (found := filter _ (sqltable.rows w)) in *.
  set (sorted := sqltable.order_by _ _ found) in *.
  destruct (tbl_for_rows_Next_quiet sorted [] w1 Hq1) as (w2 & H2 & Hq2 & Hs2).
  exists (if decide (length sorted = 0%nat) then Err DbErrNotFound else Ok sorted), w2.
  split.
  { erewrite tbl_bind_ok; [|unfold sqltable.or_return; by rewrite H1].
    erewrite tbl_bind_ok; [|exact H2]. simpl. by destruct (decide _). }
  split; [by eapply same_table_trans|].
  assert (sorted ≡ₚ found) as Hperm by apply merge_sort_Permutation.
  destruct (decide (length sorted = 0%nat)) as [Hlen|Hlen]; simpl.
  - split; [done|]. apply nil_length_inv in Hlen. rewrite Hlen in Hperm.
    by apply Permutation_nil_l in Hperm.
  - split; [by intros ->|]. split; [done|].
    apply (StronglySorted_merge_sort (sqltable.key_le prover.Proof prover.BatchNumber)).
Qed.

Lemma GetProofsBetween_range_witness :
  sqltable.quiet three_proofs
  ∧ ∃ res w',
      proof_model.GetProofsBetween keep_error test_proof_model 1 10 three_proofs = (res, w')
      ∧ same_table three_proofs w'
      ∧ let found :=
          filter (λ p, 1 ≤ prover.BatchNumber p ≤ 10 ∧ prover.DeletedAt p = None)
            (sqltable.rows three_proofs) in
        match res with
        | Ok ps =>
            ps ≠ [] ∧ ps ≡ₚ found
            ∧ StronglySorted (λ a b, prover.BatchNumber a ≤ prover.BatchNumber b) ps
        | Err e => e = DbErrNotFound ∧ found = []
        end.
Proof.
  assert (sqltable.quiet three_proofs) as Hq by (vm_compute; constructor).
  split; [exact Hq|].
  exact (GetProofsBetween_range keep_error test_proof_model 1 10 three_proofs Hq).
Defined.

(** X22. [GetLatestProof], while the store reports no failure, returns a
    proof of the table that is not deleted and whose batch number no other
    proof that is not deleted exceeds, or [DbErrNotFound] when every proof is
    deleted or the table is empty.  [GetLatestConfirmedProof] runs the same
    statement and gives the same answer: it looks at no status. *)
Theorem GetLatestProof_is_highest conv m w :
  sqltable.quiet w →
  ∃ res w',
    proof_model.GetLatestProof conv m w = (res, w')
    ∧ proof_model.GetLatestConfirmedProof conv m w = (res, w')
    ∧ same_table w w'
    ∧ match res with
      | Ok p =>
          p ∈ sqltable.rows w ∧ prover.DeletedAt p = None
          ∧ ∀ p', p' ∈ sqltable.rows w → prover.DeletedAt p' = None →
                  prover.BatchNumber p' ≤ prover.BatchNumber p
      | Err e =>
          e = DbErrNotFound
          ∧ ∀ p, p ∈ sqltable.rows w → prover.DeletedAt p ≠ None
      end.
Proof.
  intros Hq.
  destruct (tbl_first_quiet conv (prover.db m) (proof_model.latest_query m)
              (sqltable.SELECT proof_model.not_deleted (Some (prover.BatchNumber, DESC))
                 (Some 1)) id w Hq) as (w' & H & _ & Hs).
  eexists _, w'. split; [exact H|]. split; [exact H|]. split; [exact Hs|].
  rewrite run_select_limit_1 by done. rewrite first_of_limit_1.
  cbn [sqltable.sel_order sqltable.order_by].
  pose proof (head_sorted_by_key_max prover.BatchNumber
                (sqltable.matching
                   (sqltable.SELECT proof_model.not_deleted
                      (Some (prover.BatchNumber, DESC)) (Some 1)) (sqltable.rows w))) as Hmax.
  destruct (head _) as [p|].
  - destruct Hmax as [Hin Hmax]. unfold sqltable.matching in Hin.
    apply list_elem_of_filter in Hin as [Hnd Hin]. simpl in Hnd.
    apply not_deleted_None in Hnd. simpl. split; [done|]. split; [done|].
    intros p' Hp' Hnd'. apply Hmax. unfold sqltable.matching.
    apply list_elem_of_filter. split; [|done]. simpl. by apply not_deleted_None.
  - split; [done|]. intros p Hp Hnd. unfold sqltable.matching in Hmax.
    apply filter_nil_iff in Hmax. apply Hmax. exists p. split; [done|].
    simpl. by apply not_deleted_None.
Qed.

Lemma GetLatestProof_is_highest_witness :
  sqltable.quiet three_proofs
  ∧ ∃ res w',
      proof_model.GetLatestProof keep_error test_proof_model three_proofs = (res, w')
      ∧ proof_model.GetLatestConfirmedProof keep_error test_proof_model three_proofs
        = (res, w')
      ∧ same_table three_proofs w'
      ∧ match res with
        | Ok p =>
            p ∈ sqltable.rows three_proofs ∧ prover.DeletedAt p = None
            ∧ ∀ p', p' ∈ sqltable.rows three_proofs → prover.DeletedAt p' = None →
                    prover.BatchNumber p' ≤ prover.BatchNumber p
        | Err e =>
            e = DbErrNotFound
            ∧ ∀ p, p ∈ sqltable.rows three_proofs → prover.DeletedAt p ≠ None
        end.
Proof.
  assert (sqltable.quiet three_proofs) as Hq by (vm_compute; constructor).
  split; [exact Hq|].
  exact (GetLatestProof_is_highest keep_error test_proof_model three_proofs Hq).
Defined.

(** X23. A deleted proof keeps its batch number.  While the store reports
    no failure, if the table has a deleted proof of batch [n] and no other
    proof of that batch, then [GetProofByBatchNumber n] returns
    [DbErrNotFound], and [CreateProof] of a proof of batch [n] whose values
    fit the columns of the table fails with the store's duplicate-entry
    error and leaves the table as it was. *)
Theorem deleted_proof_keeps_its_batch_number conv m row w :
  sqltable.quiet w →
  proof_model.fits row →
  (∃ p, p ∈ sqltable.rows w ∧ prover.BatchNumber p = prover.BatchNumber row) →
  (∀ p, p ∈ sqltable.rows w → prover.BatchNumber p = prover.BatchNumber row →
        prover.DeletedAt p ≠ None) →
  (∃ w1, proof_model.GetProofByBatchNumber conv m (prover.BatchNumber row) w
         = (Err DbErrNotFound, w1))
  ∧ ∃ w2, proof_model.CreateProof m row w
          = (Err (MySQLError ER_DUP_ENTRY "Duplicate entry"), w2)
          ∧ sqltable.rows w2 = sqltable.rows w.
Proof.
  intros Hq Hfits (p & Hp & Hnum) Hdel. split.
  - destruct (tbl_first_quiet conv (prover.db m) (proof_model.by_number_query m)
                (sqltable.SELECT
                   (λ p, (prover.BatchNumber p =? prover.BatchNumber row)
                         && proof_model.not_deleted p) None (Some 1)) id w Hq)
      as (w1 & H1 & _).
    exists w1. unfold proof_model.GetProofByBatchNumber. rewrite H1.
    rewrite run_select_limit_1 by done. rewrite first_of_limit_1. simpl.
    unfold sqltable.matching.
    replace (filter _ (sqltable.rows w)) with (@nil prover.Proof); [done|].
    symmetry. apply filter_nil_iff. intros (p' & Hp' & Hsat). simpl in Hsat.
    apply andb_true_iff in Hsat as [Heq%Z.eqb_eq Hnd%not_deleted_None].
    by apply (Hdel p').
  - assert (existsb (sqltable.ins_conflict _ (proof_model.insert_proof row))
              (sqltable.rows w) = true) as Htaken.
    { apply existsb_exists. exists p. split; [by apply list_elem_of_In|].
      simpl. by apply Z.eqb_eq. }
    destruct (proof_model.CreateProof m row w) as [res w2] eqn:H. exists w2.
    pose proof H as H'. unfold proof_model.CreateProof in H'.
    apply tbl_bind_inv in H' as [(e & HE & ->)|(r & w1 & HE & _)].
    + apply tbl_Exec_inv in HE as (_ & (Hrows & _ & _) & Hdup).
      rewrite Hdup; [done|by apply refused_fits|done|done].
    + apply tbl_Exec_inv in HE as (_ & _ & Hfree & _). congruence.
Qed.

Lemma deleted_proof_keeps_its_batch_number_witness :
  sqltable.quiet three_proofs
  ∧ proof_model.fits (proof_at 0 9 None)
  ∧ (∃ w1, proof_model.GetProofByBatchNumber keep_error test_proof_model
             (prover.BatchNumber (proof_at 0 9 None)) three_proofs
           = (Err DbErrNotFound, w1))
  ∧ ∃ w2, proof_model.CreateProof test_proof_model (proof_at 0 9 None) three_proofs
          = (Err (MySQLError ER_DUP_ENTRY "Duplicate entry"), w2)
          ∧ sqltable.rows w2 = sqltable.rows three_proofs.
Proof.
  assert (sqltable.quiet three_proofs) as Hq by (vm_compute; constructor).
  assert (proof_model.fits (proof_at 0 9 None)) as Hfits
    by (unfold proof_model.fits; simpl; lia).
  split; [exact Hq|]. split; [exact Hfits|].
  apply (deleted_proof_keeps_its_batch_number keep_error test_proof_model
           (proof_at 0 9 None) three_proofs Hq Hfits).
  - exists (proof_at 3 9 (Some 50)). split; [|reflexivity].
    vm_compute. do 2 right. left.
  - intros p Hp Hnum. vm_compute in Hp.
    repeat (apply elem_of_cons in Hp as [->|Hp]; [first [done | vm_compute in Hnum; done]|]).
    by apply not_elem_of_nil in Hp.
Defined.

(** A loop over [Exec], whatever the store does. *)
Lemma tbl_for_range_invariant {R A} (P : sqltable.World R → Prop)
    (body : A → sqltable.M R unit) (l : list A) w res w' :
  (∀ x w res w', body x w = (res, w') → P w → P w') →
  sqltable.for_range l body w = (res, w') → P w → P w'.
Proof.
  intros Hbody. revert w. induction l as [|x l IH]; intros w; simpl.
  - by intros [= <- <-].
  - unfold sqltable.bind. destruct (body x w) as [[[]|e] w1] eqn:Hx.
    + intros H HP. eapply IH; [exact H|]. by eapply Hbody.
    + intros [= <- <-] HP. by eapply Hbody.
Qed.

Lemma insert_user_proofs_inv same_id refuses m (rs : list userproof.UserProof) w res w' :
  sqltable.for_range rs
    (λ row, sqltable.Exec (userproof.insert_query m)
              (userproof.insert_user_proof same_id refuses row) ;; mret ()) w = (res, w') →
  ∃ n,
    sqltable.rows w'
    = sqltable.rows w ++ ((λ r, userproof.stored r (sqltable.now w)) <$> take n rs)
    ∧ sqltable.now w' = sqltable.now w
    ∧ match res with Ok _ => n = length rs | Err _ => (n < length rs)%nat end
    ∧ ∀ l1 r l2, take n rs = l1 ++ r :: l2 →
        ∀ u, u ∈ sqltable.rows w ++ ((λ r, userproof.stored r (sqltable.now w)) <$> l1) →
             userproof.AccountIndex u ≠ userproof.AccountIndex r
             ∧ same_id (userproof.AccountId u) (userproof.AccountId r) = false.
Proof.
  revert w. induction rs as [|r rs IH]; intros w; simpl.
  - intros [= <- <-]. exists 0%nat. rewrite app_nil_r. split_and!; try done.
    intros [|??] ?? [=].
  - unfold sqltable.bind at 1. unfold mbind, sqltable.M_bind, sqltable.bind at 1.
    destruct (sqltable.Exec _ _ w) as [[r0|e] w1] eqn:HE; simpl.
    + apply tbl_Exec_inv in HE as (Hnow & _ & Hfree & Hrows & _). simpl in Hrows.
      intros H. apply IH in H as (n & Hrows' & Hnow' & Hres & Hsplit).
      exists (S n). rewrite Hrows', Hrows, Hnow, Hnow'. simpl.
      rewrite <- app_assoc. split_and!; try done.
      { destruct res; lia. }
      intros l1 r1 l2 Heq u Hu. destruct l1 as [|r' l1]; simpl in Heq.
      * injection Heq as <- _. simpl in Hu. rewrite app_nil_r in Hu.
        apply not_true_iff_false in Hfree.
        assert (¬ ((userproof.AccountIndex u =? userproof.AccountIndex r)
                   || same_id (userproof.AccountId u) (userproof.AccountId r) = true))
          as Hno.
        { intros Hc. apply Hfree, existsb_exists. exists u.
          split; [by apply list_elem_of_In|done]. }
        rewrite orb_true_iff, Z.eqb_eq in Hno.
        split; [tauto|]. destruct (same_id _ _); tauto.
      * injection Heq as <- Heq. apply (Hsplit l1 r1 l2 Heq).
        rewrite Hrows, Hnow, <- app_assoc. exact Hu.
    + intros [= <- <-]. apply tbl_Exec_inv in HE as (Hnow & (Hrows & _) & _).
      exists 0%nat. simpl. rewrite app_nil_r. split_and!; try done; [lia|].
      intros [|??] ?? [=].
Qed.

Lemma CreateUserProofs_loop same_id refuses m rs w :
  userproof.CreateUserProofs same_id refuses m rs w
  = sqltable.for_range rs
      (λ row, sqltable.Exec (userproof.insert_query m)
                (userproof.insert_user_proof same_id refuses row) ;; mret ()) w.
Proof.
  unfold userproof.CreateUserProofs. destruct (decide _) as [Hlen|]; [|done].
  by apply nil_length_inv in Hlen as ->.
Qed.

(** X24. [CreateUserProofs] is not all or nothing: whatever the store does,
    when it returns the table holds its old rows followed by the first [n]
    rows of the argument, as stored with the store's time, in the argument's
    order; [n] is the length of the argument when it succeeds and less when
    it fails, so the rows before the one that failed stay inserted. *)
Theorem CreateUserProofs_inserts_a_prefix same_id refuses m rs w res w' :
  userproof.CreateUserProofs same_id refuses m rs w = (res, w') →
  ∃ n,
    sqltable.rows w'
    = sqltable.rows w ++ ((λ r, userproof.stored r (sqltable.now w)) <$> take n rs)
    ∧ match res with Ok _ => n = length rs | Err _ => (n < length rs)%nat end.
Proof.
  rewrite CreateUserProofs_loop. intros H.
  apply insert_user_proofs_inv in H as (n & Hrows & _ & Hres & _). by exists n.
Qed.

Lemma CreateUserProofs_inserts_a_prefix_witness :
  userproof.CreateUserProofs String.eqb refuses_nothing test_user_model
    [user_at 2 "b"; user_at 1 "c"; user_at 3 "d"] (user_world [user_at 1 "a"] [])
  = (Err (MySQLError ER_DUP_ENTRY "Duplicate entry"),
     snd (userproof.CreateUserProofs String.eqb refuses_nothing test_user_model
            [user_at 2 "b"; user_at 1 "c"; user_at 3 "d"] (user_world [user_at 1 "a"] [])))
  ∧ ∃ n,
      sqltable.rows
        (snd (userproof.CreateUserProofs String.eqb refuses_nothing test_user_model
                [user_at 2 "b"; user_at 1 "c"; user_at 3 "d"]
                (user_world [user_at 1 "a"] [])))
      = sqltable.rows (user_world [user_at 1 "a"] [])
        ++ ((λ r, userproof.stored r (sqltable.now (user_world [user_at 1 "a"] [])))
              <$> take n [user_at 2 "b"; user_at 1 "c"; user_at 3 "d"])
      ∧ (n < length [user_at 2 "b"; user_at 1 "c"; user_at 3 "d"])%nat.
Proof.
  assert (userproof.CreateUserProofs String.eqb refuses_nothing test_user_model
            [user_at 2 "b"; user_at 1 "c"; user_at 3 "d"] (user_world [user_at 1 "a"] [])
          = (Err (MySQLError ER_DUP_ENTRY "Duplicate entry"),
             snd (userproof.CreateUserProofs String.eqb refuses_nothing test_user_model
                    [user_at 2 "b"; user_at 1 "c"; user_at 3 "d"]
                    (user_world [user_at 1 "a"] [])))) as H
    by (vm_compute; reflexivity).
  split; [exact H|].
  exact (CreateUserProofs_inserts_a_prefix String.eqb refuses_nothing test_user_model _ _ _ _ H).
Defined.

(** X25. Insert, then look up.  After a [CreateUserProofs] that succeeded,
    while the store reports no failure, [GetUserProofByIndex] of the account
    index of any row of the argument returns that row as stored: its fields
    and the store's time of the insertion. *)
Theorem CreateUserProofs_then_GetByIndex conv same_id refuses m rs w w1 r :
  userproof.CreateUserProofs same_id refuses m rs w = (Ok (), w1) →
  sqltable.quiet w1 →
  r ∈ rs →
  ∃ w2, userproof.GetUserProofByIndex conv m (userproof.AccountIndex r) w1
        = (Ok (userproof.stored r (sqltable.now w)), w2).
Proof.
  rewrite CreateUserProofs_loop. intros H Hq Hr.
  apply insert_user_proofs_inv in H as (n & Hrows & _ & -> & Hsplit).
  rewrite firstn_all in Hrows, Hsplit.
  apply list_elem_of_split in Hr as (l1 & l2 & ->).
  specialize (Hsplit l1 r l2 eq_refl).
  destruct (tbl_first_quiet conv (userproof.db m) (userproof.by_index_query m)
              (sqltable.SELECT (λ u, userproof.AccountIndex u =? userproof.AccountIndex r)
                 None (Some 1)) (λ u, u) w1 Hq) as (w2 & H2 & _).
  exists w2. unfold userproof.GetUserProofByIndex. rewrite H2.
  rewrite run_select_limit_1 by done. rewrite first_of_limit_1. simpl.
  unfold sqltable.matching. rewrite Hrows, fmap_app, app_assoc, filter_app. simpl.
  replace (filter _ (sqltable.rows w ++ _)) with (@nil userproof.UserProof).
  2:{ symmetry. apply filter_nil_iff. intros (u & Hu & Hsat). simpl in Hsat.
      apply Z.eqb_eq in Hsat. by destruct (Hsplit u Hu). }
  rewrite filter_cons_True; [done|]. simpl. by rewrite Z.eqb_refl.
Qed.

Lemma CreateUserProofs_then_GetByIndex_witness :
  userproof.CreateUserProofs String.eqb refuses_nothing test_user_model
    [user_at 2 "b"; user_at 3 "c"] (user_world [user_at 1 "a"] [])
  = (Ok (), snd (userproof.CreateUserProofs String.eqb refuses_nothing test_user_model
                   [user_at 2 "b"; user_at 3 "c"] (user_world [user_at 1 "a"] [])))
  ∧ ∃ w2, userproof.GetUserProofByIndex keep_error test_user_model
            (userproof.AccountIndex (user_at 3 "c"))
            (snd (userproof.CreateUserProofs String.eqb refuses_nothing test_user_model
                    [user_at 2 "b"; user_at 3 "c"] (user_world [user_at 1 "a"] [])))
          = (Ok (userproof.stored (user_at 3 "c")
                   (sqltable.now (user_world [user_at 1 "a"] []))), w2).
Proof.
  assert (userproof.CreateUserProofs String.eqb refuses_nothing test_user_model
            [user_at 2 "b"; user_at 3 "c"] (user_world [user_at 1 "a"] [])
          = (Ok (), snd (userproof.CreateUserProofs String.eqb refuses_nothing test_user_model
                           [user_at 2 "b"; user_at 3 "c"] (user_world [user_at 1 "a"] []))))
    as H by (vm_compute; reflexivity).
  split; [exact H|].
  apply (CreateUserProofs_then_GetByIndex keep_error String.eqb refuses_nothing test_user_model _ _ _ _ H).
  - vm_compute. constructor.
  - right. left.
Defined.

Lemma insert_user_proof_keeps_index_unique same_id refuses text row
    (w : sqltable.World userproof.UserProof) res w' :
  sqltable.Exec text (userproof.insert_user_proof same_id refuses row) w = (res, w') →
  NoDup (userproof.AccountIndex <$> sqltable.rows w) →
  NoDup (userproof.AccountIndex <$> sqltable.rows w').
Proof.
  intros H Hnd. apply tbl_Exec_inv in H as (_ & H). destruct res as [r|e].
  - destruct H as (_ & Hfree & -> & _). rewrite fmap_app. simpl.
    apply NoDup_app. split; [done|]. split; [|apply NoDup_singleton].
    intros i Hi ->%list_elem_of_singleton.
    apply list_elem_of_fmap in Hi as (u & Hidx & Hu).
    apply not_true_iff_false in Hfree. apply Hfree, existsb_exists.
    exists u. split; [by apply list_elem_of_In|]. simpl.
    apply orb_true_iff. left. apply Z.eqb_eq. done.
  - destruct H as ((-> & _) & _). done.
Qed.

(** X26. [CreateUserProofs] keeps the account index a key: whatever the
    store does and whether the call succeeds or fails part-way, if no two
    rows of the table had the same account index before, none have after. *)
Theorem CreateUserProofs_keeps_index_unique same_id refuses m rs w res w' :
  userproof.CreateUserProofs same_id refuses m rs w = (res, w') →
  NoDup (userproof.AccountIndex <$> sqltable.rows w) →
  NoDup (userproof.AccountIndex <$> sqltable.rows w').
Proof.
  rewrite CreateUserProofs_loop.
  apply (tbl_for_range_invariant
           (λ w, NoDup (userproof.AccountIndex <$> sqltable.rows w))).
  intros row w0 res0 w0' H.
  apply tbl_bind_inv in H as [(e & H & ->)|(r & w1 & H & [= <- <-])];
    by eapply insert_user_proof_keeps_index_unique.
Qed.

Lemma CreateUserProofs_keeps_index_unique_witness :
  NoDup (userproof.AccountIndex <$> sqltable.rows (user_world [user_at 1 "a"] []))
  ∧ NoDup (userproof.AccountIndex <$>
             sqltable.rows
               (snd (userproof.CreateUserProofs String.eqb refuses_nothing test_user_model
                       [user_at 2 "b"; user_at 1 "c"; user_at 3 "d"]
                       (user_world [user_at 1 "a"] [])))).
Proof.
  assert (NoDup (userproof.AccountIndex <$>
                   sqltable.rows (user_world [user_at 1 "a"] []))) as Hnd.
  { apply (bool_decide_unpack _). vm_compute. exact I. }
  split; [exact Hnd|].
  exact (CreateUserProofs_keeps_index_unique String.eqb refuses_nothing test_user_model
           [user_at 2 "b"; user_at 1 "c"; user_at 3 "d"] (user_world [user_at 1 "a"] [])
           _ _ (surjective_pairing _) Hnd).
Defined.

(** X27. [GetLatestAccountIndex], while the store reports no failure,
    returns the greatest account index of the table, and [DbErrNotFound]
    exactly when the table is empty. *)
Theorem GetLatestAccountIndex_is_greatest conv m w :
  sqltable.quiet w →
  ∃ res w',
    userproof.GetLatestAccountIndex conv m w = (res, w')
    ∧ same_table w w'
    ∧ match res with
      | Ok i =>
          i ∈ userproof.AccountIndex <$> sqltable.rows w
          ∧ ∀ u, u ∈ sqltable.rows w → userproof.AccountIndex u ≤ i
      | Err e => e = DbErrNotFound ∧ sqltable.rows w = []
      end.
Proof.
  intros Hq.
  destruct (tbl_first_quiet conv (userproof.db m) (userproof.latest_index_query m)
              (sqltable.SELECT (λ _, true) (Some (userproof.AccountIndex, DESC)) (Some 1))
              userproof.AccountIndex w Hq) as (w' & H & _ & Hs).
  eexists _, w'. split; [exact H|]. split; [exact Hs|].
  rewrite run_select_limit_1 by done. rewrite first_of_limit_1.
  cbn [sqltable.sel_order sqltable.order_by].
  assert (sqltable.matching
            (sqltable.SELECT (λ _ : userproof.UserProof, true)
               (Some (userproof.AccountIndex, DESC)) (Some 1)) (sqltable.rows w)
          = sqltable.rows w) as ->.
  { unfold sqltable.matching. by apply filter_all. }
  pose proof (head_sorted_by_key_max userproof.AccountIndex (sqltable.rows w)) as Hmax.
  destruct (head _) as [u|]; [|done].
  destruct Hmax as [Hin Hmax]. split; [|done].
  apply list_elem_of_fmap. by exists u.
Qed.

Lemma GetLatestAccountIndex_is_greatest_witness :
  sqltable.quiet (user_world [user_at 1 "a"; user_at 7 "b"; user_at 3 "c"] [])
  ∧ ∃ res w',
      userproof.GetLatestAccountIndex keep_error test_user_model
        (user_world [user_at 1 "a"; user_at 7 "b"; user_at 3 "c"] []) = (res, w')
      ∧ same_table (user_world [user_at 1 "a"; user_at 7 "b"; user_at 3 "c"] []) w'
      ∧ match res with
        | Ok i =>
            i ∈ userproof.AccountIndex <$>
                  sqltable.rows (user_world [user_at 1 "a"; user_at 7 "b"; user_at 3 "c"] [])
            ∧ ∀ u, u ∈ sqltable.rows
                         (user_world [user_at 1 "a"; user_at 7 "b"; user_at 3 "c"] []) →
                   userproof.AccountIndex u ≤ i
        | Err e =>
            e = DbErrNotFound
            ∧ sqltable.rows (user_world [user_at 1 "a"; user_at 7 "b"; user_at 3 "c"] []) = []
        end.
Proof.
  assert (sqltable.quiet (user_world [user_at 1 "a"; user_at 7 "b"; user_at 3 "c"] []))
    as Hq by (vm_compute; constructor).
  split; [exact Hq|].
  exact (GetLatestAccountIndex_is_greatest keep_error test_user_model _ Hq).
Defined.
